(** * Pacemaker DCM communication core: handlers.py

    A shallow embedding of [_SerialHandler] and [ConnectionHandler] from
    [pacemaker-master/handlers.py], together with the part of Python's
    [struct] module the two classes rely on, and the properties of the
    wire format, the frame reassembler and the connection state machine. *)

From Stdlib Require Import ZArith List Bool Ascii String Strings.Byte Lia.
From Stdlib Require Import Floats.SpecFloat.
From stdpp Require Import base option list gmap strings pretty.

Import ListNotations.
Local Open Scope string_scope.
Local Open Scope list_scope.
Local Open Scope Z_scope.

(** ** Python values and exceptions *)

(** The exceptions this code can raise. *)
Inductive exn :=
| KeyError (key : string)
| StructError
| OverflowError
| AttributeError
| TypeError
| IndexError
| SerialException.

Inductive result (A : Type) :=
| Ok (a : A)
| Raise (e : exn).
Arguments Ok {A} a.
Arguments Raise {A} e.

Definition rbind {A B} (r : result A) (k : A -> result B) : result B :=
  match r with
  | Ok a => k a
  | Raise e => Raise e
  end.

Declare Scope result_scope.
Delimit Scope result_scope with result.
Notation "x <-? r ; k" := (rbind r (fun x => k))
  (at level 100, r at next level, right associativity) : result_scope.

(** A parameter value is a Python [int] or a Python [float]; a [float] is an
    IEEE 754 binary64 number, without NaN payload. *)
Inductive pyval :=
| PyInt (z : Z)
| PyFloat (f : spec_float).

#[global] Instance byte_eq_dec : EqDecision byte := Byte.byte_eq_dec.

#[global] Instance spec_float_eq_dec : EqDecision spec_float.
Proof. solve_decision. Defined.

#[global] Instance pyval_eq_dec : EqDecision pyval.
Proof. solve_decision. Defined.

(** ** IEEE 754 numbers: binary32 on the wire, binary64 in Python *)

Module IEEE.

(** Number of binary digits of a positive mantissa. *)
Definition digits (m : positive) : Z := Zpos (digits2_pos m).

(** The C conversion [(float) x] of a double, rounding to nearest even. *)
Definition narrow (x : spec_float) : spec_float :=
  match x with
  | S754_finite s m e => binary_round 24 128 s m e
  | _ => x
  end.

(** The C conversion [(double) y] of a float.  It is exact: the mantissa is
    shifted left to 53 digits and the exponent lowered by as much. *)
Definition widen (y : spec_float) : spec_float :=
  match y with
  | S754_finite s m e =>
      let d := 53 - digits m in
      S754_finite s (Z.to_pos (Z.shiftl (Zpos m) d)) (e - d)
  | _ => y
  end.

(** Conversion of a Python [int] to a double ([PyFloat_AsDouble]). *)
Definition of_int (z : Z) : spec_float := binary_normalize 53 1024 z 0 false.

Definition is_inf (x : spec_float) : bool :=
  match x with
  | S754_infinity _ => true
  | _ => false
  end.

Definition sign_bit (s : bool) : Z := if s then 2 ^ 31 else 0.

(** The 32-bit pattern of a binary32 number: sign, 8 bits of biased
    exponent, 23 bits of fraction. *)
Definition bits_of_b32 (y : spec_float) : Z :=
  match y with
  | S754_zero s => sign_bit s
  | S754_infinity s => sign_bit s + 255 * 2 ^ 23
  | S754_nan => 255 * 2 ^ 23 + 2 ^ 22
  | S754_finite s m e =>
      if 2 ^ 23 <=? Zpos m
      then sign_bit s + (e + 150) * 2 ^ 23 + (Zpos m - 2 ^ 23)
      else sign_bit s + Zpos m
  end.

Definition b32_of_bits (w : Z) : spec_float :=
  let s := 2 ^ 31 <=? w in
  let ex := (w / 2 ^ 23) mod 256 in
  let frac := w mod 2 ^ 23 in
  if ex =? 0 then
    match frac with
    | Zpos m => S754_finite s m (-149)
    | _ => S754_zero s
    end
  else if ex =? 255 then
    (if frac =? 0 then S754_infinity s else S754_nan)
  else S754_finite s (Z.to_pos (frac + 2 ^ 23)) (ex - 150).

(** Quotient of two integers, correctly rounded: the value of a decimal
    literal such as [0.1] in the given format. *)
Definition ratio (prec emax : Z) (n d : Z) : spec_float :=
  SFdiv prec emax (binary_normalize prec emax n 0 false)
                  (binary_normalize prec emax d 0 false).

Definition single (n d : Z) : spec_float := ratio 24 128 n d.
Definition double (n d : Z) : spec_float := ratio 53 1024 n d.

End IEEE.

(** ** The [struct] module: formats [B], [H], [f] and [x] in [=] mode *)

Module Struct.

(** [=] is native byte order with standard sizes and no alignment; the
    byte order is the one of the host. *)
Inductive byteorder := LittleEndian | BigEndian.

Inductive code :=
| FmtB   (* unsigned char, 1 byte *)
| FmtH   (* unsigned short, 2 bytes *)
| Fmtf   (* float, 4 bytes *)
| Fmtx.  (* pad byte, no value *)

Definition code_size (c : code) : nat :=
  match c with
  | FmtB => 1
  | FmtH => 2
  | Fmtf => 4
  | Fmtx => 1
  end%nat.

Definition code_of_ascii (a : ascii) : option code :=
  if decide (a = "B"%char) then Some FmtB
  else if decide (a = "H"%char) then Some FmtH
  else if decide (a = "f"%char) then Some Fmtf
  else if decide (a = "x"%char) then Some Fmtx
  else None.

Definition digit_of_ascii (a : ascii) : option nat :=
  let n := nat_of_ascii a in
  if (48 <=? n)%nat && (n <=? 57)%nat then Some (n - 48)%nat else None.

(** Items of a format string: an optional decimal repeat count, then a
    format character. *)
Fixpoint parse_items (s : string) (count : option nat) : result (list code) :=
  match s with
  | EmptyString =>
      match count with
      | None => Ok []
      | Some _ => Raise StructError
      end
  | String a rest =>
      match digit_of_ascii a with
      | Some d => parse_items rest (Some (10 * default 0%nat count + d)%nat)
      | None =>
          match code_of_ascii a with
          | Some c =>
              (cs <-? parse_items rest None;
               Ok (repeat c (default 1%nat count) ++ cs))%result
          | None => Raise StructError
          end
      end
  end.

Definition parse_format (fmt : string) : result (list code) :=
  match fmt with
  | String "=" rest => parse_items rest None
  | _ => Raise StructError
  end.

Definition size_of (cs : list code) : nat :=
  fold_right (fun c n => (code_size c + n)%nat) 0%nat cs.

Definition calcsize (fmt : string) : result nat :=
  (cs <-? parse_format fmt; Ok (size_of cs))%result.

(** *** Bytes and unsigned integers *)

Definition byte_of_Z (z : Z) : byte :=
  default x00 (Byte.of_N (Z.to_N (z mod 256))).

Definition Z_of_byte (b : byte) : Z := Z.of_N (Byte.to_N b).

Fixpoint le_bytes (n : nat) (z : Z) : list byte :=
  match n with
  | O => []
  | S n' => byte_of_Z z :: le_bytes n' (z / 256)
  end.

Fixpoint le_uint (bs : list byte) : Z :=
  match bs with
  | [] => 0
  | b :: bs' => Z_of_byte b + 256 * le_uint bs'
  end.

Definition uint_bytes (bo : byteorder) (n : nat) (z : Z) : list byte :=
  match bo with
  | LittleEndian => le_bytes n z
  | BigEndian => rev (le_bytes n z)
  end.

Definition bytes_uint (bo : byteorder) (bs : list byte) : Z :=
  match bo with
  | LittleEndian => le_uint bs
  | BigEndian => le_uint (rev bs)
  end.

(** *** Packing *)

Definition pack_uint (bo : byteorder) (n : nat) (v : pyval) : result (list byte) :=
  match v with
  | PyInt z =>
      if (0 <=? z) && (z <? 256 ^ Z.of_nat n)
      then Ok (uint_bytes bo n z)
      else Raise StructError
  | PyFloat _ => Raise StructError
  end.

(** The argument of an [f] field is converted to a double first. *)
Definition as_double (v : pyval) : result spec_float :=
  match v with
  | PyFloat x => Ok x
  | PyInt z =>
      let x := IEEE.of_int z in
      if IEEE.is_inf x then Raise StructError else Ok x
  end.

Definition b32_bytes (bo : byteorder) (y : spec_float) : list byte :=
  uint_bytes bo 4 (IEEE.bits_of_b32 y).

Definition pack_float (bo : byteorder) (x : spec_float) : result (list byte) :=
  let y := IEEE.narrow x in
  if IEEE.is_inf y && negb (IEEE.is_inf x)
  then Raise OverflowError
  else Ok (b32_bytes bo y).

(** [pack] turns an [OverflowError] raised while it packs an [int] into
    [struct.error]. *)
Definition int_overflow (v : pyval) (r : result (list byte)) : result (list byte) :=
  match v, r with
  | PyInt _, Raise OverflowError => Raise StructError
  | _, _ => r
  end.

Definition pack_value (bo : byteorder) (c : code) (v : pyval) : result (list byte) :=
  match c with
  | FmtB => pack_uint bo 1 v
  | FmtH => pack_uint bo 2 v
  | Fmtf => int_overflow v (x <-? as_double v; pack_float bo x)%result
  | Fmtx => Ok [x00]
  end.

Fixpoint pack_codes (bo : byteorder) (cs : list code) (args : list pyval)
  : result (list byte) :=
  match cs with
  | [] =>
      match args with
      | [] => Ok []
      | _ :: _ => Raise StructError
      end
  | Fmtx :: cs' =>
      (bs <-? pack_codes bo cs' args; Ok (x00 :: bs))%result
  | c :: cs' =>
      match args with
      | [] => Raise StructError
      | v :: args' =>
          (b <-? pack_value bo c v;
           bs <-? pack_codes bo cs' args';
           Ok (b ++ bs))%result
      end
  end.

Definition pack (bo : byteorder) (fmt : string) (args : list pyval)
  : result (list byte) :=
  (cs <-? parse_format fmt; pack_codes bo cs args)%result.

(** *** Unpacking *)

Definition unpack_value (bo : byteorder) (c : code) (bs : list byte)
  : option pyval :=
  match c with
  | FmtB | FmtH => Some (PyInt (bytes_uint bo bs))
  | Fmtf => Some (PyFloat (IEEE.widen (IEEE.b32_of_bits (bytes_uint bo bs))))
  | Fmtx => None
  end.

Fixpoint unpack_codes (bo : byteorder) (cs : list code) (bs : list byte)
  : list pyval :=
  match cs with
  | [] => []
  | c :: cs' =>
      let n := code_size c in
      match unpack_value bo c (take n bs) with
      | Some v => v :: unpack_codes bo cs' (drop n bs)
      | None => unpack_codes bo cs' (drop n bs)
      end
  end.

(** [unpack_from(fmt, buffer, offset)]: the buffer must hold at least
    [calcsize(fmt)] bytes from [offset] on. *)
Definition unpack_from (bo : byteorder) (fmt : string) (buffer : list byte)
    (offset : nat) : result (list pyval) :=
  (cs <-? parse_format fmt;
   if (offset + size_of cs <=? length buffer)%nat
   then Ok (unpack_codes bo cs (drop offset buffer))
   else Raise StructError)%result.

End Struct.

(** ** Stateful code: state, emitted signals, exceptions *)

Inductive PacemakerState := NOT_CONNECTED | CONNECTED | REGISTERED.

#[global] Instance PacemakerState_eq_dec : EqDecision PacemakerState.
Proof. solve_decision. Defined.

(** What a handler lets the rest of the program observe: the Qt signals it
    emits and the message boxes it shows. *)
Inductive effect :=
| ecg_data_update (a_data v_data : list pyval)
| params_received (ok : bool) (msg : string)
| connect_status_change (state : PacemakerState) (info : option string)
| show_alert (msg : string).

(** A method runs on the object's state and on the log of effects so far.  It
    returns, raises (the state reached and the effects emitted before the
    exception stay), or never returns. *)
Inductive outcome (St A : Type) :=
| Done (a : A) (s : St) (log : list effect)
| Raised (e : exn) (s : St) (log : list effect)
| Hang (s : St) (log : list effect).
Arguments Done {St A} a s log.
Arguments Raised {St A} e s log.
Arguments Hang {St A} s log.

(** The state a call ends in, or is in when it raises or gets stuck. *)
Definition final {St A} (o : outcome St A) : St :=
  match o with
  | Done _ s _ | Raised _ s _ | Hang s _ => s
  end.

Definition M (St A : Type) : Type := St -> list effect -> outcome St A.

Section Exec.
Context {St : Type}.

Definition ret {A} (a : A) : M St A := fun s log => Done a s log.

Definition bind {A B} (m : M St A) (k : A -> M St B) : M St B :=
  fun s log =>
    match m s log with
    | Done a s' log' => k a s' log'
    | Raised e s' log' => Raised e s' log'
    | Hang s' log' => Hang s' log'
    end.

Definition gets {A} (f : St -> A) : M St A := fun s log => Done (f s) s log.
Definition modify (f : St -> St) : M St unit := fun s log => Done tt (f s) log.
Definition emit (e : effect) : M St unit := fun s log => Done tt s (log ++ [e]).
Definition raise {A} (e : exn) : M St A := fun s log => Raised e s log.

Definition lift_result {A} (r : result A) : M St A :=
  match r with
  | Ok a => ret a
  | Raise e => raise e
  end.

(** [try: m except Exception: h] *)
Definition try_except {A} (m : M St A) (h : exn -> M St A) : M St A :=
  fun s log =>
    match m s log with
    | Raised e s' log' => h e s' log'
    | o => o
    end.

(** The effects of a call started with an empty log. *)
Definition run {A} (m : M St A) (s : St) : outcome St A := m s [].
End Exec.

(** A method of a component, run on the object that owns the component. *)
Definition zoom {St Sub A} (proj : St -> Sub) (upd : Sub -> St -> St)
    (m : M Sub A) : M St A :=
  fun s log =>
    match m (proj s) log with
    | Done a sub log' => Done a (upd sub s) log'
    | Raised e sub log' => Raised e (upd sub s) log'
    | Hang sub log' => Hang (upd sub s) log'
    end.

(** [m] leaves the part [f] of the state as it is, however it ends. *)
Definition keeps {St A B} (f : St -> B) (m : M St A) : Prop :=
  forall s log, f (final (m s log)) = f s.

Declare Scope exec_scope.
Delimit Scope exec_scope with exec.
Notation "x <- m ;; k" := (bind m (fun x => k))
  (at level 100, m at next level, right associativity) : exec_scope.
Notation "m ;; k" := (bind m (fun _ => k))
  (at level 100, right associativity) : exec_scope.

(** The value of an expression of a class body.  Class bodies are evaluated
    when the module is imported, and an exception there stops the import. *)
Definition class_attr {A} (dflt : A) (r : result A) : A :=
  match r with
  | Ok a => a
  | Raise _ => dflt
  end.

(** Truth value of an [Optional[str]]. *)
Definition truthy (o : option string) : bool :=
  match o with
  | Some (String _ _) => true
  | _ => false
  end.

(** ** pySerial: the [Serial] object, with the device behind it *)

Module Serial.

(** [rx] lists what the coming calls of [read] return, in order; once it is
    used up the line stays silent and [read] returns [b""].  [tx] lists the
    writes so far.  [fault] says that input and output on the port fail
    (the device is gone). *)
Record t := mk {
  is_open : bool;
  port : option string;
  rx : list (list byte);
  tx : list (list byte);
  fault : bool
}.

Definition set_is_open (b : bool) (c : t) : t :=
  mk b (port c) (rx c) (tx c) (fault c).
Definition set_port_attr (p : option string) (c : t) : t :=
  mk (is_open c) p (rx c) (tx c) (fault c).
Definition set_rx (w : list (list byte)) (c : t) : t :=
  mk (is_open c) (port c) w (tx c) (fault c).
Definition set_tx (w : list (list byte)) (c : t) : t :=
  mk (is_open c) (port c) (rx c) w (fault c).

(** [Serial(baudrate=115200, timeout=0)]: no port yet, closed. *)
Definition new (wire : list (list byte)) (faulty : bool) : t :=
  mk false None wire [] faulty.

Definition close (c : t) : t := set_is_open false c.

Definition open (c : t) : result t :=
  if is_open c then Raise SerialException
  else match port c with
       | None => Raise SerialException
       | Some _ => if fault c then Raise SerialException
                   else Ok (set_is_open true c)
       end.

(** Assignment to [port]: an open connection is closed and opened again
    on the new port. *)
Definition set_port (p : option string) (c : t) : result t :=
  if is_open c then open (set_port_attr p (close c))
  else Ok (set_port_attr p c).

Definition write (data : list byte) (c : t) : result t :=
  if negb (is_open c) || fault c then Raise SerialException
  else Ok (set_tx (tx c ++ [data]) c).

End Serial.

(** ** [_SerialHandler]: the transport *)

Module _SerialHandler.
Import Struct.

(** *** Class attributes *)

Definition _num_floats : nat := 20.
Definition _PARAMS_FMT_STR : string := "=3BfB2fBf4H5B".
Definition _ECG_FMT_STR : string := "=" +:+ pretty _num_floats +:+ "f".
Definition _ECG_DATA_STR : string :=
  "=" +:+ pretty (_num_floats `div` 2)%nat +:+ "f".
Definition _PARAMS_NUM_BYTES : nat := class_attr 0%nat (calcsize _PARAMS_FMT_STR).
Definition _ECG_NUM_BYTES : nat := class_attr 0%nat (calcsize _ECG_FMT_STR).
Definition _ECG_DATA : nat := class_attr 0%nat (calcsize _ECG_DATA_STR).
Definition _REQUEST_ECG (bo : byteorder) : list byte :=
  class_attr [] (pack bo "=B33x" [PyInt 85]).
Definition _PARAMS_ORDER : list string :=
  ["Pacing Mode"; "Lower Rate Limit"; "Upper Rate Limit"; "Atrial Amplitude";
   "Atrial Pulse Width"; "Atrial Sensitivity"; "Ventricular Amplitude";
   "Ventricular Pulse Width"; "Ventricular Sensitivity"; "VRP"; "ARP";
   "PVARP"; "Fixed AV Delay"; "Maximum Sensor Rate"; "Reaction Time";
   "Response Factor"; "Recovery Time"; "Activity Threshold"].

(** *** Instance attributes ([_lock] is left out: a method runs as one step) *)

Record t := mk {
  _running : bool;
  _buf : list byte;
  _conn : Serial.t;
  _num_bytes_to_read : nat;
  _sent_data : list byte;
  _send_params : bool
}.

Definition set_running (b : bool) (st : t) : t :=
  mk b (_buf st) (_conn st) (_num_bytes_to_read st) (_sent_data st) (_send_params st).
Definition set_buf (b : list byte) (st : t) : t :=
  mk (_running st) b (_conn st) (_num_bytes_to_read st) (_sent_data st) (_send_params st).
Definition set_conn (c : Serial.t) (st : t) : t :=
  mk (_running st) (_buf st) c (_num_bytes_to_read st) (_sent_data st) (_send_params st).
Definition set_sent_data (d : list byte) (st : t) : t :=
  mk (_running st) (_buf st) (_conn st) (_num_bytes_to_read st) d (_send_params st).
Definition set_send_params (b : bool) (st : t) : t :=
  mk (_running st) (_buf st) (_conn st) (_num_bytes_to_read st) (_sent_data st) b.

(** [__init__]; the arguments describe the device that will be attached. *)
Definition init (wire : list (list byte)) (faulty : bool) : t :=
  mk false [] (Serial.new wire faulty) (_ECG_NUM_BYTES + 1) [] false.

(** *** [_readline] *)

(** The [while] loop of [_readline], by recursion on the reads to come.
    [wire] is [rx] of the connection. *)
Fixpoint _readline_loop (wire : list (list byte)) (st : t) (log : list effect)
  : outcome t (option (list byte)) :=
  let n := _num_bytes_to_read st in
  let sync w := set_conn (Serial.set_rx w (_conn st)) in
  if negb (_running st && Serial.is_open (_conn st)) then
    Done None (sync wire st) log
  else if Serial.fault (_conn st) then
    Raised SerialException (sync wire st) log
  else
    match wire with
    | [] =>
        (* every read returns b"" from now on *)
        if (n <=? length (_buf st))%nat
        then Done (Some (take n (_buf st)))
                  (set_buf (drop n (_buf st) ++ []) (sync [] st)) log
        else Hang (sync [] st) log
    | data :: wire' =>
        if (n <=? length (_buf st))%nat
        then Done (Some (take n (_buf st)))
                  (set_buf (drop n (_buf st) ++ data) (sync wire' st)) log
        else _readline_loop wire' (set_buf (_buf st ++ data) st) log
    end.

Definition _readline : M t (option (list byte)) :=
  fun st log =>
    let n := _num_bytes_to_read st in
    if (n <=? length (_buf st))%nat
    then Done (Some (take n (_buf st))) (set_buf (drop n (_buf st)) st) log
    else _readline_loop (Serial.rx (_conn st)) st log.

(** *** The other methods *)

Definition _try_to_open_port : M t unit :=
  (c <- gets _conn ;;
   match Serial.open c with
   | Ok c' => modify (set_conn c')
   | Raise _ => ret tt
   end)%exec.

Definition _verify_params (received_params : list byte) : M t unit :=
  (sent <- gets _sent_data ;;
   if decide (sent <> take _PARAMS_NUM_BYTES received_params)
   then emit (params_received false
                "The received parameters were not the same as the sent ones!
Please restart the DCM/Pacemaker or try a different Pacemaker!")
   else emit (params_received true "Successfully sent parameters!"))%exec.

Definition stop : M t unit :=
  (modify (set_running false) ;;
   modify (fun st => set_conn (Serial.close (_conn st)) st))%exec.

Definition conn_set_port (p : option string) : M t unit :=
  (c <- gets _conn ;;
   c' <- lift_result (Serial.set_port p c) ;;
   modify (set_conn c'))%exec.

Definition start_serial_comm (port : option string) : M t unit :=
  (modify (set_buf []) ;;
   conn_set_port port)%exec.

Definition stop_serial_comm : M t unit :=
  (modify (fun st => set_conn (Serial.close (_conn st)) st) ;;
   conn_set_port None)%exec.

(** [[params_to_send[key] for key in self._PARAMS_ORDER]] *)
Fixpoint lookup_all (params : gmap string pyval) (keys : list string)
  : result (list pyval) :=
  match keys with
  | [] => Ok []
  | key :: keys' =>
      match params !! key with
      | None => Raise (KeyError key)
      | Some v => (vs <-? lookup_all params keys'; Ok (v :: vs))%result
      end
  end.

Definition encode_params (bo : byteorder) (params : gmap string pyval)
  : result (list byte) :=
  (args <-? lookup_all params _PARAMS_ORDER;
   pack bo _PARAMS_FMT_STR args)%result.

Definition send_params_to_pacemaker (bo : byteorder)
    (params_to_send : gmap string pyval) : M t unit :=
  (data <- lift_result (encode_params bo params_to_send) ;;
   modify (set_sent_data data) ;;
   modify (set_send_params true))%exec.

Definition conn_write (data : list byte) : M t unit :=
  (c <- gets _conn ;;
   c' <- lift_result (Serial.write data c) ;;
   modify (set_conn c'))%exec.

(** The dispatch on the control byte, inside the [try] of [run]. *)
Definition dispatch (bo : byteorder) (line : option (list byte)) : M t unit :=
  match line with
  | None => raise TypeError
  | Some [] => raise IndexError
  | Some (control_byte :: line) =>
      if decide (control_byte = x00) then
        (a_data <- lift_result (unpack_from bo _ECG_DATA_STR line 0) ;;
         v_data <- lift_result (unpack_from bo _ECG_DATA_STR line _ECG_DATA) ;;
         emit (ecg_data_update a_data v_data))%exec
      else if decide (control_byte = x01) then _verify_params line
      else ret tt
  end.

(** The block under the lock: the pending parameters, or a request for
    ECG data. *)
Definition send_request (bo : byteorder) : M t unit :=
  (send_params <- gets _send_params ;;
   if send_params : bool then
     modify (set_send_params false) ;;
     sent <- gets _sent_data ;;
     conn_write sent
   else conn_write (_REQUEST_ECG bo))%exec.

(** The body of the [try] of [run]. *)
Definition exchange (bo : byteorder) : M t unit :=
  (send_request bo ;;
   line <- _readline ;;
   dispatch bo line)%exec.

(** One turn of the [while self._running] loop of [run]. *)
Definition run_iteration (bo : byteorder) : M t unit :=
  (is_open <- gets (fun st => Serial.is_open (_conn st)) ;;
   if is_open : bool then
     try_except (exchange bo) (fun _ => ret tt)
   else
     port <- gets (fun st => Serial.port (_conn st)) ;;
     if truthy port then _try_to_open_port
     else ret tt)%exec.

(** [k] calls of [_readline] in a row, and the lines they return. *)
Fixpoint read_lines (k : nat) : M t (list (option (list byte))) :=
  match k with
  | O => ret []
  | S k' =>
      (line <- _readline ;;
       lines <- read_lines k' ;;
       ret (line :: lines))%exec
  end.

End _SerialHandler.

(** ** pySerial: [ListPortInfo] *)

Record ListPortInfo := mkPort {
  device : option string;
  vid : option Z;
  pid : option Z;
  serial_number : option string
}.

#[global] Instance ListPortInfo_eq_dec : EqDecision ListPortInfo.
Proof. solve_decision. Defined.

(** The descriptor of no port: every attribute [None]. *)
Definition no_port : ListPortInfo := mkPort None None None None.

(** The repository pins no version of pySerial, and the constructor of
    [ListPortInfo] changed between two releases: up to 3.4 it is
    [__init__(self, device=None)], from 3.5 on
    [__init__(self, device, skip_link_detection=False)].  The library is
    therefore a parameter of every method that calls the constructor. *)
Inductive pyserial := upto_3_4 | from_3_5.

(** [ListPortInfo()], with no argument: the descriptor of no port up to
    3.4, [TypeError] for the missing argument from 3.5 on. *)
Definition ListPortInfo_new (lib : pyserial) : result ListPortInfo :=
  match lib with
  | upto_3_4 => Ok no_port
  | from_3_5 => Raise TypeError
  end.

(** [ListPortInfo.__eq__] compares the [device] attribute only. *)
Definition port_eqb (a b : ListPortInfo) : bool :=
  bool_decide (device a = device b).

(** [dev in devices] *)
Definition port_in (dev : ListPortInfo) (devices : list ListPortInfo) : bool :=
  existsb (port_eqb dev) devices.

(** [[dev for dev in new if dev not in old]] *)
Definition difference (new old : list ListPortInfo) : list ListPortInfo :=
  List.filter (fun dev => negb (port_in dev old)) new.

(** [str(x)] inside an f-string *)
Definition fstr (o : option string) : string :=
  match o with
  | Some s => s
  | None => "None"
  end.

(** ** [ConnectionHandler]: the connection state machine *)

Module ConnectionHandler.

(** What [self._device] is bound to: [__init__] binds it to the list that
    [comports()] returns, the state machine to a [ListPortInfo]. *)
Inductive device_attr :=
| PortList (ports : list ListPortInfo)
| Port (dev : ListPortInfo).

Record t := mk {
  _running : bool;
  _device : device_attr;
  _devices : list ListPortInfo;
  _old_devices : list ListPortInfo;
  _first_serial_num : option string;
  _current_state : PacemakerState;
  _prev_state : PacemakerState;
  _wanted_state : PacemakerState;
  serial : _SerialHandler.t
}.

Definition set_running (b : bool) (s : t) : t :=
  mk b (_device s) (_devices s) (_old_devices s) (_first_serial_num s)
     (_current_state s) (_prev_state s) (_wanted_state s) (serial s).
Definition set_device (d : device_attr) (s : t) : t :=
  mk (_running s) d (_devices s) (_old_devices s) (_first_serial_num s)
     (_current_state s) (_prev_state s) (_wanted_state s) (serial s).
Definition set_devices (l : list ListPortInfo) (s : t) : t :=
  mk (_running s) (_device s) l (_old_devices s) (_first_serial_num s)
     (_current_state s) (_prev_state s) (_wanted_state s) (serial s).
Definition set_old_devices (l : list ListPortInfo) (s : t) : t :=
  mk (_running s) (_device s) (_devices s) l (_first_serial_num s)
     (_current_state s) (_prev_state s) (_wanted_state s) (serial s).
Definition set_first_serial_num (n : option string) (s : t) : t :=
  mk (_running s) (_device s) (_devices s) (_old_devices s) n
     (_current_state s) (_prev_state s) (_wanted_state s) (serial s).
Definition set_current_state (p : PacemakerState) (s : t) : t :=
  mk (_running s) (_device s) (_devices s) (_old_devices s) (_first_serial_num s)
     p (_prev_state s) (_wanted_state s) (serial s).
Definition set_prev_state (p : PacemakerState) (s : t) : t :=
  mk (_running s) (_device s) (_devices s) (_old_devices s) (_first_serial_num s)
     (_current_state s) p (_wanted_state s) (serial s).
Definition set_wanted_state (p : PacemakerState) (s : t) : t :=
  mk (_running s) (_device s) (_devices s) (_old_devices s) (_first_serial_num s)
     (_current_state s) (_prev_state s) p (serial s).
Definition set_serial (h : _SerialHandler.t) (s : t) : t :=
  mk (_running s) (_device s) (_devices s) (_old_devices s) (_first_serial_num s)
     (_current_state s) (_prev_state s) (_wanted_state s) h.

(** [__init__]; [comports] is what [serial.tools.list_ports.comports()]
    returns at that moment, [h] the transport it creates and starts. *)
Definition init (comports : list ListPortInfo) (h : _SerialHandler.t) : t :=
  mk false (PortList comports) [] [] (Some "")
     NOT_CONNECTED NOT_CONNECTED NOT_CONNECTED
     (_SerialHandler.set_running true h).

(** A method of [self.serial]. *)
Definition on_serial {A} (m : M _SerialHandler.t A) : M t A :=
  zoom serial set_serial m.

(** [self._device.serial_number] and [self._device.device]: a list has
    neither attribute. *)
Definition device_serial_number : M t (option string) :=
  (d <- gets _device ;;
   match d with
   | Port dev => ret (serial_number dev)
   | PortList _ => raise AttributeError
   end)%exec.

Definition device_device : M t (option string) :=
  (d <- gets _device ;;
   match d with
   | Port dev => ret (device dev)
   | PortList _ => raise AttributeError
   end)%exec.

Definition _show_alert (msg : string) : M t unit := emit (show_alert msg).

Definition _filter_devices (data : list ListPortInfo) : list ListPortInfo :=
  List.filter
    (fun dev => bool_decide (vid dev = Some 0x1366) &&
                bool_decide (pid dev = Some 0x1015))
    data.

(** [any(self._device.serial_number == dev.serial_number for dev in removed)] *)
Fixpoint any_removed (removed : list ListPortInfo) : M t bool :=
  match removed with
  | [] => ret false
  | dev :: rest =>
      (sn <- device_serial_number ;;
       if bool_decide (sn = serial_number dev) then ret true
       else any_removed rest)%exec
  end.

Definition _handle_removed_device (lib : pyserial)
    (removed : list ListPortInfo) : M t unit :=
  (hit <- any_removed removed ;;
   if hit : bool then
     modify (set_wanted_state NOT_CONNECTED) ;;
     first <- match removed with
              | dev :: _ => ret (serial_number dev)
              | [] => raise IndexError
              end ;;
     emit (connect_status_change NOT_CONNECTED first) ;;
     empty <- lift_result (ListPortInfo_new lib) ;;
     modify (set_device (Port empty)) ;;
     on_serial _SerialHandler.stop_serial_comm
   else ret tt)%exec.

(** The branch of [_update_state] taken when no pacemaker is connected. *)
Definition not_connected_step (added : list ListPortInfo) : M t unit :=
  match added with
  | [] => ret tt
  | dev :: _ =>
      (modify (set_device (Port dev)) ;;
       first <- gets _first_serial_num ;;
       if bool_decide (first = Some "") then
         sn <- device_serial_number ;;
         modify (set_first_serial_num sn) ;;
         modify (set_wanted_state REGISTERED)
       else
         sn <- device_serial_number ;;
         if bool_decide (first = sn)
         then modify (set_wanted_state REGISTERED)
         else modify (set_wanted_state CONNECTED))%exec
  end.

Definition connected_step (lib : pyserial)
    (removed : list ListPortInfo) : M t unit :=
  (prev <- gets _prev_state ;;
   (if bool_decide (prev = NOT_CONNECTED) then
      sn <- device_serial_number ;;
      emit (connect_status_change CONNECTED
              (Some (fstr sn +:+ ", press New Patient to register")))
    else ret tt) ;;
   _handle_removed_device lib removed)%exec.

Definition registered_step (lib : pyserial)
    (removed : list ListPortInfo) : M t unit :=
  (prev <- gets _prev_state ;;
   (if bool_decide (prev = NOT_CONNECTED) || bool_decide (prev = CONNECTED) then
      port <- device_device ;;
      on_serial (_SerialHandler.start_serial_comm port) ;;
      sn <- device_serial_number ;;
      emit (connect_status_change REGISTERED sn)
    else ret tt) ;;
   _handle_removed_device lib removed)%exec.

(** [_update_state]; [comports] is what [list_ports.comports()] returns on
    this tick. *)
Definition _update_state (lib : pyserial)
    (comports : list ListPortInfo) : M t unit :=
  (modify (set_devices (_filter_devices comports)) ;;
   devices <- gets _devices ;;
   old_devices <- gets _old_devices ;;
   let added := difference devices old_devices in
   let removed := difference old_devices devices in
   current <- gets _current_state ;;
   wanted <- gets _wanted_state ;;
   (if bool_decide (current <> wanted)
    then modify (set_current_state wanted)
    else ret tt) ;;
   current <- gets _current_state ;;
   match current with
   | NOT_CONNECTED => not_connected_step added
   | CONNECTED => connected_step lib removed
   | REGISTERED => registered_step lib removed
   end ;;
   devices <- gets _devices ;;
   modify (set_old_devices devices) ;;
   current <- gets _current_state ;;
   modify (set_prev_state current))%exec.

Definition register_device : M t unit :=
  (current <- gets _current_state ;;
   if bool_decide (current = CONNECTED) then
     modify (set_wanted_state REGISTERED)
   else
     sn <- device_serial_number ;;
     if truthy sn then
       _show_alert "Already registered this pacemaker!"
     else
       devices <- gets _devices ;;
       if (0 <? length devices)%nat then
         _show_alert "Please unplug and replug the pacemaker you want to connect to!"
       else
         _show_alert "Please plug in a pacemaker!")%exec.

Definition send_data_to_pacemaker (bo : Struct.byteorder)
    (params : gmap string pyval) : M t unit :=
  on_serial (_SerialHandler.send_params_to_pacemaker bo params).

Definition stop : M t unit :=
  (modify (set_running false) ;;
   on_serial _SerialHandler.stop)%exec.

End ConnectionHandler.

(** * The parameter block, as the specification words it *)

Module ParameterSet.
Import Struct.

(** The 18 fields in their declared order, each with the type of its slot
    in the block. *)
Definition declared_layout : list (string * code) :=
  [("Pacing Mode", FmtB); ("Lower Rate Limit", FmtB); ("Upper Rate Limit", FmtB);
   ("Atrial Amplitude", Fmtf); ("Atrial Pulse Width", FmtB);
   ("Atrial Sensitivity", Fmtf); ("Ventricular Amplitude", Fmtf);
   ("Ventricular Pulse Width", FmtB); ("Ventricular Sensitivity", Fmtf);
   ("VRP", FmtH); ("ARP", FmtH); ("PVARP", FmtH); ("Fixed AV Delay", FmtH);
   ("Maximum Sensor Rate", FmtB); ("Reaction Time", FmtB);
   ("Response Factor", FmtB); ("Recovery Time", FmtB);
   ("Activity Threshold", FmtB)].

(** The fields of a layout packed one after the other, in the order of the
    layout, with nothing in between. *)
Fixpoint pack_fields (bo : byteorder) (params : gmap string pyval)
    (layout : list (string * code)) : result (list byte) :=
  match layout with
  | [] => Ok []
  | (key, c) :: layout' =>
      match params !! key with
      | None => Raise (KeyError key)
      | Some v =>
          (b <-? pack_value bo c v;
           bs <-? pack_fields bo params layout';
           Ok (b ++ bs))%result
      end
  end.

(** A value fits a slot: an integer within the range of the slot, or, for a
    float slot, a number within the range of single precision. *)
Definition fits (c : code) (v : pyval) : bool :=
  match c, v with
  | FmtB, PyInt z => (0 <=? z) && (z <? 256)
  | FmtH, PyInt z => (0 <=? z) && (z <? 65536)
  | Fmtf, _ =>
      match as_double v with
      | Ok x => negb (IEEE.is_inf (IEEE.narrow x) && negb (IEEE.is_inf x))
      | Raise _ => false
      end
  | _, _ => false
  end.

(** A parameter set that has every field of the layout, typed by it. *)
Definition conforms (params : gmap string pyval) : bool :=
  forallb (fun '(key, c) =>
             match params !! key with
             | Some v => fits c v
             | None => false
             end)
          declared_layout.

(** Settings of a dual-chamber rate-adaptive mode. *)
Definition sample : gmap string pyval :=
  list_to_map
    [("Pacing Mode", PyInt 3); ("Lower Rate Limit", PyInt 60);
     ("Upper Rate Limit", PyInt 120);
     ("Atrial Amplitude", PyFloat (IEEE.double 35 10));
     ("Atrial Pulse Width", PyInt 1);
     ("Atrial Sensitivity", PyFloat (IEEE.double 75 100));
     ("Ventricular Amplitude", PyFloat (IEEE.double 35 10));
     ("Ventricular Pulse Width", PyInt 1);
     ("Ventricular Sensitivity", PyFloat (IEEE.double 25 10));
     ("VRP", PyInt 320); ("ARP", PyInt 250); ("PVARP", PyInt 250);
     ("Fixed AV Delay", PyInt 150); ("Maximum Sensor Rate", PyInt 120);
     ("Reaction Time", PyInt 30); ("Response Factor", PyInt 8);
     ("Recovery Time", PyInt 5); ("Activity Threshold", PyInt 4)].

End ParameterSet.

(** * The ECG payload, as the specification words it *)

Module Ecg.
Import Struct.


(** The payload that carries the given single-precision values. *)
Definition payload_of (bo : byteorder) (values : list spec_float) : list byte :=
  concat (map (b32_bytes bo) values).

(** What Python receives for a single-precision value. *)
Definition received (y : spec_float) : pyval := PyFloat (IEEE.widen y).

(** The Python floats [from/10, (from+1)/10, ...], [k] of them, as the
    literals [0.1], [0.2], ... denote them. *)
Fixpoint python_tenths (from : Z) (k : nat) : list pyval :=
  match k with
  | O => []
  | S k' => PyFloat (IEEE.double from 10) :: python_tenths (from + 1) k'
  end.

(** The single-precision numbers [from/10, (from+1)/10, ...], [k] of them. *)
Fixpoint tenths (from : Z) (k : nat) : list spec_float :=
  match k with
  | O => []
  | S k' => IEEE.single from 10 :: tenths (from + 1) k'
  end.

End Ecg.

(** * Views of the two objects used in the statements *)

Module Wire.
Import Struct.

(** A transport whose buffer and pending reads are replaced. *)
Definition with_input (buf : list byte) (wire : list (list byte))
    (st : _SerialHandler.t) : _SerialHandler.t :=
  _SerialHandler.set_buf buf
    (_SerialHandler.set_conn (Serial.set_rx wire (_SerialHandler._conn st)) st).

(** Everything the device has sent and the program has not yet returned as
    a line: the buffer, then the reads to come. *)
Definition unread (st : _SerialHandler.t) : list byte :=
  _SerialHandler._buf st ++ concat (Serial.rx (_SerialHandler._conn st)).

(** The transport can read: it runs, on an open port without fault. *)
Definition reading (st : _SerialHandler.t) : bool :=
  _SerialHandler._running st &&
  Serial.is_open (_SerialHandler._conn st) &&
  negb (Serial.fault (_SerialHandler._conn st)).

(** The transport once the request of a turn of [run] is written: the
    pending parameters if there are any, a request for ECG data if not. *)
Definition requested (bo : byteorder) (st : _SerialHandler.t) : _SerialHandler.t :=
  let wrote data s :=
    _SerialHandler.set_conn
      (Serial.set_tx (Serial.tx (_SerialHandler._conn s) ++ [data])
                     (_SerialHandler._conn s)) s in
  if _SerialHandler._send_params st
  then wrote (_SerialHandler._sent_data st) (_SerialHandler.set_send_params false st)
  else wrote (_SerialHandler._REQUEST_ECG bo) st.

(** The transport with its port bound, and unbound. *)
Definition bound (port : option string) (h : _SerialHandler.t) : _SerialHandler.t :=
  _SerialHandler.set_conn (Serial.set_port_attr port (_SerialHandler._conn h))
    (_SerialHandler.set_buf [] h).

Definition unbound (h : _SerialHandler.t) : _SerialHandler.t :=
  _SerialHandler.set_conn
    (Serial.set_port_attr None (Serial.close (_SerialHandler._conn h))) h.

End Wire.

Module Tick.

(** The handler of a tick once the scan is stored and the wanted state
    adopted. *)
Definition scanned (comports : list ListPortInfo) (ch : ConnectionHandler.t)
  : ConnectionHandler.t :=
  ConnectionHandler.set_current_state (ConnectionHandler._wanted_state ch)
    (ConnectionHandler.set_devices (ConnectionHandler._filter_devices comports) ch).

(** The handler at the end of a tick: this scan and this state become the
    previous ones. *)
Definition settled (ch : ConnectionHandler.t) : ConnectionHandler.t :=
  ConnectionHandler.set_prev_state (ConnectionHandler._current_state ch)
    (ConnectionHandler.set_old_devices (ConnectionHandler._devices ch) ch).

(** The devices a tick finds added and removed. *)
Definition added (comports : list ListPortInfo) (ch : ConnectionHandler.t)
  : list ListPortInfo :=
  difference (ConnectionHandler._filter_devices comports)
             (ConnectionHandler._old_devices ch).

Definition removed (comports : list ListPortInfo) (ch : ConnectionHandler.t)
  : list ListPortInfo :=
  difference (ConnectionHandler._old_devices ch)
             (ConnectionHandler._filter_devices comports).

(** The branch a tick takes. *)
Definition branch (lib : pyserial) (comports : list ListPortInfo)
    (ch : ConnectionHandler.t)
  : M ConnectionHandler.t unit :=
  match ConnectionHandler._wanted_state ch with
  | NOT_CONNECTED => ConnectionHandler.not_connected_step (added comports ch)
  | CONNECTED => ConnectionHandler.connected_step lib (removed comports ch)
  | REGISTERED => ConnectionHandler.registered_step lib (removed comports ch)
  end.

(** One of the devices carries the serial number of [dev]. *)
Definition carries_serial (dev : ListPortInfo) (devices : list ListPortInfo) : bool :=
  existsb (fun r => bool_decide (serial_number dev = serial_number r)) devices.

(** The handler once its device is found removed and given up: it asks
    for NOT_CONNECTED, holds the empty descriptor, and the port of its
    transport is unbound. *)
Definition dropped (ch : ConnectionHandler.t) : ConnectionHandler.t :=
  ConnectionHandler.set_serial (Wire.unbound (ConnectionHandler.serial ch))
    (ConnectionHandler.set_device (ConnectionHandler.Port no_port)
       (ConnectionHandler.set_wanted_state NOT_CONNECTED ch)).

(** The handler once its device is found removed, when the constructor of
    the empty descriptor raises: it asks for NOT_CONNECTED, and that is all
    that has changed. *)
Definition alarmed (ch : ConnectionHandler.t) : ConnectionHandler.t :=
  ConnectionHandler.set_wanted_state NOT_CONNECTED ch.

(** The handler after a run of ticks, one per scan. *)
Fixpoint ticks (lib : pyserial) (scans : list (list ListPortInfo))
    (ch : ConnectionHandler.t)
  : ConnectionHandler.t :=
  match scans with
  | [] => ch
  | comports :: scans' =>
      ticks lib scans'
        (final (run (ConnectionHandler._update_state lib comports) ch))
  end.

End Tick.

(** * Concrete situations *)

Module Scenario.
Import Struct.

(** The block of [ParameterSet.sample] on a little-endian host. *)
Definition sample_block : list byte :=
  class_attr [] (_SerialHandler.encode_params LittleEndian ParameterSet.sample).

(** A transport that runs on an open port, with [wire] to come. *)
Definition transport (wire : list (list byte)) : _SerialHandler.t :=
  _SerialHandler.mk true [] (Serial.mk true (Some "COM3") wire [] false)
    (_SerialHandler._ECG_NUM_BYTES + 1) [] false.

(** The same transport after [ParameterSet.sample] was handed to it. *)
Definition transport_sent : _SerialHandler.t :=
  _SerialHandler.set_send_params true
    (_SerialHandler.set_sent_data sample_block (transport [])).

(** The payload of a frame that echoes [sample_block]: the block, then
    padding up to the size of an ECG payload. *)
Definition echo_payload : list byte :=
  sample_block ++ repeat x00 (_SerialHandler._ECG_NUM_BYTES - length sample_block).

(** Three frames: ECG data carrying 0.1, 0.2, ..., 2.0, an echo of the
    sample block, and a frame of neither kind. *)
Definition ecg_frame : list byte :=
  x00 :: Ecg.payload_of LittleEndian (Ecg.tenths 1 20).
Definition echo_frame : list byte := x01 :: echo_payload.
Definition other_frame : list byte :=
  x02 :: repeat xff _SerialHandler._ECG_NUM_BYTES.

(** A stream cut after [i] bytes and again [j] bytes later. *)
Definition cut (i j : nat) (stream : list byte) : list (list byte) :=
  [take i stream; take j (drop i stream); drop (i + j) stream].

(** Two pacemakers and a device of another make. *)
Definition pacemaker_1 : ListPortInfo :=
  mkPort (Some "COM3") (Some 0x1366) (Some 0x1015) (Some "000621000000").
Definition pacemaker_2 : ListPortInfo :=
  mkPort (Some "COM4") (Some 0x1366) (Some 0x1015) (Some "000621000001").
Definition mouse : ListPortInfo :=
  mkPort (Some "COM1") (Some 0x046d) (Some 0xc077) None.

(** A connection handler right after [__init__], with nothing plugged in. *)
Definition fresh_handler : ConnectionHandler.t :=
  ConnectionHandler.init [] (_SerialHandler.init [] false).

(** The handler after [pacemaker_1] was found, registered and seen again
    on the next tick. *)
Definition registered_handler : ConnectionHandler.t :=
  Tick.ticks from_3_5 [[mouse; pacemaker_1]; [mouse; pacemaker_1]] fresh_handler.

(** The handler after [pacemaker_1] was registered and then unplugged, with
    a pySerial up to 3.4, where the loop of the handler outlives the
    removal. *)
Definition unplugged_handler : ConnectionHandler.t :=
  Tick.ticks upto_3_4 [[mouse]; [mouse]] registered_handler.

End Scenario.

(** * The loops of the two threads, and their callers *)

Module Loop.
Import Struct.

(** The effects a call has logged, however it ends. *)
Definition logged {St A} (o : outcome St A) : list effect :=
  match o with
  | Done _ _ log | Raised _ _ log | Hang _ log => log
  end.

(** The first [k] turns of the [while self._running] loop of
    [_SerialHandler.run]. *)
Fixpoint serial_turns (bo : byteorder) (k : nat) : M _SerialHandler.t unit :=
  match k with
  | O => ret tt
  | S k' =>
      (running <- gets _SerialHandler._running ;;
       if running : bool then
         _SerialHandler.run_iteration bo ;;
         serial_turns bo k'
       else ret tt)%exec
  end.

(** [_SerialHandler.run], cut after [k] turns. *)
Definition serial_run (bo : byteorder) (k : nat) : M _SerialHandler.t unit :=
  (modify (_SerialHandler.set_running true) ;;
   serial_turns bo k)%exec.

(** What handling the line [frame] emits on the transport [st]. *)
Definition frame_effects (bo : byteorder) (st : _SerialHandler.t)
    (frame : list byte) : list effect :=
  logged (run (_SerialHandler.dispatch bo (Some frame)) st).

(** What happens to a transport: [run] starts ([self._running = True]),
    its loop takes a turn, or another thread calls a method between two
    turns. *)
Inductive serial_call :=
| Start
| Turn
| TryOpen
| SendParams (params : gmap string pyval)
| StartComm (port : option string)
| StopComm
| Stop.

Definition serial_perform (bo : byteorder) (c : serial_call)
  : M _SerialHandler.t unit :=
  match c with
  | Start => modify (_SerialHandler.set_running true)
  | Turn => _SerialHandler.run_iteration bo
  | TryOpen => _SerialHandler._try_to_open_port
  | SendParams params => _SerialHandler.send_params_to_pacemaker bo params
  | StartComm port => _SerialHandler.start_serial_comm port
  | StopComm => _SerialHandler.stop_serial_comm
  | Stop => _SerialHandler.stop
  end.

(** The transport after a run of calls; a call that raises leaves the state
    it raised in. *)
Fixpoint serial_session (bo : byteorder) (calls : list serial_call)
    (st : _SerialHandler.t) : _SerialHandler.t :=
  match calls with
  | [] => st
  | c :: calls' => serial_session bo calls' (final (run (serial_perform bo c) st))
  end.

(** What happens to a connection handler: a tick of its own loop, a button
    of the window, a turn of the loop of its transport. *)
Inductive handler_call :=
| Tick (comports : list ListPortInfo)
| Register
| SendData (params : gmap string pyval)
| TransportTurn.

Definition handler_perform (lib : pyserial) (bo : byteorder) (c : handler_call)
  : M ConnectionHandler.t unit :=
  match c with
  | Tick comports => ConnectionHandler._update_state lib comports
  | Register => ConnectionHandler.register_device
  | SendData params => ConnectionHandler.send_data_to_pacemaker bo params
  | TransportTurn =>
      ConnectionHandler.on_serial (_SerialHandler.run_iteration bo)
  end.

Fixpoint handler_session (lib : pyserial) (bo : byteorder)
    (calls : list handler_call) (ch : ConnectionHandler.t)
  : ConnectionHandler.t :=
  match calls with
  | [] => ch
  | c :: calls' =>
      handler_session lib bo calls' (final (run (handler_perform lib bo c) ch))
  end.

(** Every tick of the session has returned.  [ConnectionHandler.run] calls
    [_update_state] outside any [try], so a tick that raises ends the loop
    of the handler: only a session in which the ticks returned can go on
    with another tick. *)
Fixpoint ticks_returned (lib : pyserial) (bo : byteorder)
    (calls : list handler_call) (ch : ConnectionHandler.t) : bool :=
  match calls with
  | [] => true
  | c :: calls' =>
      match c, run (handler_perform lib bo c) ch with
      | Tick _, Done _ ch' _ => ticks_returned lib bo calls' ch'
      | Tick _, _ => false
      | _, o => ticks_returned lib bo calls' (final o)
      end
  end.

(** [ConnectionHandler.run], cut after one tick per scan. *)
Fixpoint handler_ticks (lib : pyserial) (scans : list (list ListPortInfo))
  : M ConnectionHandler.t unit :=
  match scans with
  | [] => ret tt
  | comports :: scans' =>
      (running <- gets ConnectionHandler._running ;;
       if running : bool then
         ConnectionHandler._update_state lib comports ;;
         handler_ticks lib scans'
       else ret tt)%exec
  end.

Definition handler_run (lib : pyserial) (scans : list (list ListPortInfo))
  : M ConnectionHandler.t unit :=
  (modify (ConnectionHandler.set_running true) ;;
   emit (connect_status_change NOT_CONNECTED (Some "")) ;;
   handler_ticks lib scans)%exec.

End Loop.

(** * numpy: one-dimensional arrays of doubles *)

Module Numpy.

Definition ndarray : Type := list spec_float.

(** [np.zeros(n)] *)
Definition zeros (n : nat) : ndarray := repeat (S754_zero false) n.

(** The position a slice bound [i] stands for in an array of [n] items: a
    negative bound counts from the end, and every bound is clipped. *)
Definition bound (n : nat) (i : Z) : nat :=
  if i <? 0 then Z.to_nat (Z.max 0 (Z.of_nat n + i))
  else Nat.min (Z.to_nat i) n.

(** [a[start:stop]] for bounds already placed. *)
Definition slice (a : ndarray) (start stop : nat) : ndarray :=
  take (stop - start) (drop start a).

(** [a[start:stop] = src]: the shapes must agree, or [src] must hold one
    item, which is then repeated; [None] is [ValueError]. *)
Definition set_slice (a : ndarray) (start stop : nat) (src : ndarray)
  : option ndarray :=
  let len := (stop - start)%nat in
  if decide (length src = len) then
    Some (take start a ++ src ++ drop (start + len) a)
  else
    match src with
    | [x] => Some (take start a ++ repeat x len ++ drop (start + len) a)
    | _ => None
    end.

(** A tuple of Python numbers as an array of doubles; [None] is
    [OverflowError], for an [int] beyond the doubles. *)
Fixpoint asarray (data : list pyval) : option ndarray :=
  match data with
  | [] => Some []
  | v :: data' =>
      match v, asarray data' with
      | PyFloat x, Some xs => Some (x :: xs)
      | PyInt z, Some xs =>
          if IEEE.is_inf (IEEE.of_int z) then None
          else Some (IEEE.of_int z :: xs)
      | _, None => None
      end
  end.

End Numpy.

(** ** pyqtgraph: what a [PlotDataItem] draws *)

Module PlotDataItem.

(** [data] is the curve as it was drawn by the last [setData]. *)
Record t := mk {
  data : Numpy.ndarray;
  visible : bool
}.

Definition setData (d : Numpy.ndarray) (p : t) : t := mk d (visible p).
Definition show (p : t) : t := mk (data p) true.
Definition hide (p : t) : t := mk (data p) false.

End PlotDataItem.

(** ** [GraphsHandler]: the two scrolling ECG traces *)

Module GraphsHandler.

Record t := mk {
  _atri_data : Numpy.ndarray;
  _vent_data : Numpy.ndarray;
  _atri_plot : PlotDataItem.t;
  _vent_plot : PlotDataItem.t
}.

Inductive error := ValueError | OverflowError.

(** A method returns, or raises and leaves the handler as it is then. *)
Inductive outcome :=
| Returned (g : t)
| Failed (e : error) (g : t).

Definition state (o : outcome) : t :=
  match o with
  | Returned g | Failed _ g => g
  end.

Definition _plot_data (g : t) : t :=
  mk (_atri_data g) (_vent_data g)
     (PlotDataItem.setData (_atri_data g) (_atri_plot g))
     (PlotDataItem.setData (_vent_data g) (_vent_plot g)).

(** [__init__]: both traces start at zero and are shown (the settings of the
    two plot widgets are left out). *)
Definition init (data_size : nat) : t :=
  _plot_data
    (mk (Numpy.zeros data_size) (Numpy.zeros data_size)
        (PlotDataItem.mk [] true) (PlotDataItem.mk [] true)).

(** The two assignments that scroll one trace:
    [a[:-size] = a[size:]], then [a[-size:] = data]. *)
Definition scroll (a : Numpy.ndarray) (data : list pyval)
  : Numpy.ndarray * option error :=
  let n := length a in
  let size := Z.of_nat (length data) in
  match Numpy.set_slice a 0 (Numpy.bound n (- size))
          (Numpy.slice a (Numpy.bound n size) n) with
  | None => (a, Some ValueError)
  | Some a1 =>
      match Numpy.asarray data with
      | None => (a1, Some OverflowError)
      | Some src =>
          match Numpy.set_slice a1 (Numpy.bound n (- size)) n src with
          | None => (a1, Some ValueError)
          | Some a2 => (a2, None)
          end
      end
  end.

Definition update_data (atri_data vent_data : list pyval) (g : t) : outcome :=
  match scroll (_atri_data g) atri_data with
  | (a, Some e) => Failed e (mk a (_vent_data g) (_atri_plot g) (_vent_plot g))
  | (a, None) =>
      let g1 := mk a (_vent_data g) (_atri_plot g) (_vent_plot g) in
      match scroll (_vent_data g1) vent_data with
      | (v, Some e) => Failed e (mk a v (_atri_plot g1) (_vent_plot g1))
      | (v, None) =>
          Returned (_plot_data (mk a v (_atri_plot g1) (_vent_plot g1)))
      end
  end.

Definition atri_vis (show : bool) (g : t) : t :=
  mk (_atri_data g) (_vent_data g)
     (if show then PlotDataItem.show (_atri_plot g)
      else PlotDataItem.hide (_atri_plot g))
     (_vent_plot g).

Definition vent_vis (show : bool) (g : t) : t :=
  mk (_atri_data g) (_vent_data g) (_atri_plot g)
     (if show then PlotDataItem.show (_vent_plot g)
      else PlotDataItem.hide (_vent_plot g)).

End GraphsHandler.

(** * Invariants of the two objects *)

Module Invariant.

(** Every write so far is as long as a parameter block, and so is what a
    pending write will send. *)
Definition frame_sized (st : _SerialHandler.t) : Prop :=
  Forall (fun w => length w = _SerialHandler._PARAMS_NUM_BYTES)
         (Serial.tx (_SerialHandler._conn st)) /\
  (_SerialHandler._send_params st = true ->
   length (_SerialHandler._sent_data st) = _SerialHandler._PARAMS_NUM_BYTES).

(** The port of the transport is unbound and closed. *)
Definition idle (h : _SerialHandler.t) : Prop :=
  Serial.port (_SerialHandler._conn h) = None /\
  Serial.is_open (_SerialHandler._conn h) = false.

(** Outside state NOT_CONNECTED the active device is a descriptor. *)
Definition described (ch : ConnectionHandler.t) : Prop :=
  (ConnectionHandler._wanted_state ch <> NOT_CONNECTED \/
   ConnectionHandler._current_state ch <> NOT_CONNECTED) ->
  exists dev, ConnectionHandler._device ch = ConnectionHandler.Port dev.

(** The invariant of a handler whose loop is alive: the active device is
    described, and the port is bound only while REGISTERED is both the
    state of the last tick and the wanted one. *)
Definition sound (ch : ConnectionHandler.t) : Prop :=
  described ch /\
  ((ConnectionHandler._prev_state ch <> REGISTERED \/
    ConnectionHandler._wanted_state ch <> REGISTERED) ->
   idle (ConnectionHandler.serial ch)).

(** A pacemaker, by its USB identity. *)
Definition eligible (dev : ListPortInfo) : Prop :=
  vid dev = Some 0x1366 /\ pid dev = Some 0x1015.

(** The handler holds pacemakers only: in its two scans, and as its active
    device, unless that is the empty descriptor or still the list of
    [__init__]. *)
Definition pacemakers_only (ch : ConnectionHandler.t) : Prop :=
  Forall eligible (ConnectionHandler._devices ch) /\
  Forall eligible (ConnectionHandler._old_devices ch) /\
  (forall dev, ConnectionHandler._device ch = ConnectionHandler.Port dev ->
     dev = no_port \/ eligible dev).

(** A step from [ch] to [ch'], however it ends, keeps the active device
    described and a pacemaker, and keeps the serial number the handler
    remembers once there is one. *)
Definition kept (ch ch' : ConnectionHandler.t) : Prop :=
  described ch' /\ pacemakers_only ch' /\
  (ConnectionHandler._first_serial_num ch <> Some "" ->
   ConnectionHandler._first_serial_num ch' = ConnectionHandler._first_serial_num ch).

End Invariant.

(** More transports and handlers to run the code on. *)

Module Bench.

(** A running transport whose port is open but fails on every read and
    write. *)
Definition broken_transport : _SerialHandler.t :=
  _SerialHandler.mk true [] (Serial.mk true (Some "COM3") [] [] true)
    (_SerialHandler._ECG_NUM_BYTES + 1) [] false.

(** A running transport with stale bytes in its buffer, whose port is
    closed, with [wire] to come once it is open. *)
Definition stale_transport (wire : list (list byte)) : _SerialHandler.t :=
  _SerialHandler.mk true [x07; x07; x07] (Serial.mk false None wire [] false)
    (_SerialHandler._ECG_NUM_BYTES + 1) [] false.

(** A second pacemaker that reports the serial number of
    [Scenario.pacemaker_1] on another port. *)
Definition twin : ListPortInfo :=
  mkPort (Some "COM7") (Some 0x1366) (Some 0x1015) (Some "000621000000").

(** The handler after [Scenario.pacemaker_2] was found while another serial
    number is remembered, and announced on the next tick: state CONNECTED
    (which takes a removal that the loop outlived, so a pySerial up to
    3.4). *)
Definition connected_handler : ConnectionHandler.t :=
  Eval vm_compute in
    Tick.ticks from_3_5 [[Scenario.pacemaker_2]; [Scenario.pacemaker_2]]
      Scenario.unplugged_handler.

(** The handler with [Scenario.pacemaker_1] registered while its twin is
    plugged in as well. *)
Definition twin_handler : ConnectionHandler.t :=
  Eval vm_compute in
    Tick.ticks from_3_5
      [[Scenario.pacemaker_1]; [Scenario.pacemaker_1; twin];
       [Scenario.pacemaker_1; twin]]
      Scenario.fresh_handler.

(** A window of five samples and batches for it. *)
Definition window : GraphsHandler.t :=
  GraphsHandler.mk
    (map IEEE.of_int [1; 2; 3; 4; 5]) (map IEEE.of_int [6; 7; 8; 9; 10])
    (PlotDataItem.mk [] true) (PlotDataItem.mk [] false).

End Bench.


(** * How a tick ends *)

Module Ending.

(** The end of a tick in state CONNECTED or REGISTERED, from the moment its
    branch looks at the removed devices: [s] is the handler then, [dev] its
    active device, [log] what is emitted so far.  When a removed device
    carries the serial number of [dev], the handler asks for NOT_CONNECTED
    and emits the signal; then it gives the device up and the tick returns,
    or [ListPortInfo()] raises and the tick stops there, with this tick not
    made the previous one. *)
Definition closing (lib : pyserial) (dev : ListPortInfo)
    (rem : list ListPortInfo) (s : ConnectionHandler.t) (log : list effect)
  : outcome ConnectionHandler.t unit :=
  match rem with
  | r :: _ =>
      if Tick.carries_serial dev rem then
        match lib with
        | upto_3_4 =>
            Done tt (Tick.settled (Tick.dropped s))
              (log ++ [connect_status_change NOT_CONNECTED (serial_number r)])
        | from_3_5 =>
            Raised TypeError (Tick.alarmed s)
              (log ++ [connect_status_change NOT_CONNECTED (serial_number r)])
        end
      else Done tt (Tick.settled s) log
  | [] => Done tt (Tick.settled s) log
  end.

End Ending.
(** * Properties *)

(** ** The [struct] model *)

Section StructFacts.
Import Struct.
Variable bo : byteorder.

Lemma le_bytes_length n z : length (le_bytes n z) = n.
Proof.
  revert z. induction n as [|n IH]; intros z; simpl; [reflexivity|].
  now rewrite IH.
Qed.

Lemma uint_bytes_length n z : length (uint_bytes bo n z) = n.
Proof.
  unfold uint_bytes. destruct bo.
  - apply le_bytes_length.
  - rewrite length_rev. apply le_bytes_length.
Qed.

Lemma int_overflow_ok v r b : int_overflow v r = Ok b -> r = Ok b.
Proof.
  unfold int_overflow. destruct v; [|auto].
  destruct r as [a|[]]; auto; discriminate.
Qed.

Lemma pack_value_length c v b :
  pack_value bo c v = Ok b -> length b = code_size c.
Proof.
  destruct c; simpl; try (intros H%int_overflow_ok; revert H).
  - destruct v as [z|f]; simpl; [|discriminate].
    destruct (_ && _); [|discriminate].
    intros [= <-]. apply uint_bytes_length.
  - destruct v as [z|f]; simpl; [|discriminate].
    destruct (_ && _); [|discriminate].
    intros [= <-]. apply uint_bytes_length.
  - destruct (as_double v) as [x|e]; simpl; [|discriminate].
    unfold pack_float. destruct (_ && _); [discriminate|].
    intros [= <-]. apply uint_bytes_length.
  - intros [= <-]. reflexivity.
Qed.

Lemma pack_codes_length cs : forall args bs,
  pack_codes bo cs args = Ok bs -> length bs = size_of cs.
Proof.
  induction cs as [|c cs IH]; intros args bs; simpl.
  - destruct args; [|discriminate]. now intros [= <-].
  - assert (Hval : forall v args',
               rbind (pack_value bo c v)
                 (fun b => rbind (pack_codes bo cs args')
                   (fun bs0 => Ok (b ++ bs0))) = Ok bs ->
               length bs = (code_size c + size_of cs)%nat).
    { intros v args' H.
      destruct (pack_value bo c v) as [b|e] eqn:Hb; simpl in H; [|discriminate].
      destruct (pack_codes bo cs args') as [bs0|e] eqn:Hbs; simpl in H; [|discriminate].
      injection H as <-. rewrite length_app.
      now rewrite (pack_value_length _ _ _ Hb), (IH _ _ Hbs). }
    destruct c; try (destruct args as [|v args']; [discriminate|apply Hval]).
    destruct (pack_codes bo cs args) as [bs0|e] eqn:Hbs; simpl; [|discriminate].
    intros [= <-]. simpl. now rewrite (IH _ _ Hbs).
Qed.

End StructFacts.

(** ** Encoding of the parameter block *)

Section Encoding.
Import Struct _SerialHandler ParameterSet.
Variable bo : byteorder.

Lemma parse_params_format :
  parse_format _PARAMS_FMT_STR = Ok (map snd declared_layout).
Proof. reflexivity. Qed.

Lemma params_order_declared : _PARAMS_ORDER = map fst declared_layout.
Proof. reflexivity. Qed.

Lemma params_num_bytes : _PARAMS_NUM_BYTES = 34%nat.
Proof. reflexivity. Qed.

(** The request for ECG data has the size of the parameter block: the
    marker 0x55, then 33 pad bytes. *)
Lemma request_ecg_bytes : _REQUEST_ECG bo = x55 :: repeat x00 33.
Proof. now destruct bo. Qed.

(** Looking all the keys up first and packing the values against the codes
    afterwards is packing field by field, as long as every key is there. *)
Lemma pack_codes_fields params (layout : list (string * code)) :
  Forall (fun kc => snd kc <> Fmtx) layout ->
  forall args,
    lookup_all params (map fst layout) = Ok args ->
    pack_codes bo (map snd layout) args = pack_fields bo params layout.
Proof.
  induction layout as [|[key c] layout IH]; intros Hx args; simpl.
  - now intros [= <-].
  - inversion Hx as [|? ? Hc Hx']; subst. simpl in Hc.
    destruct (params !! key) as [v|] eqn:Hkey; [|discriminate].
    destruct (lookup_all params (map fst layout)) as [vs|e] eqn:Hvs;
      simpl; [|discriminate].
    intros [= <-]. rewrite (IH Hx' vs eq_refl).
    destruct c; try reflexivity. now elim Hc.
Qed.

Lemma lookup_all_total params (layout : list (string * code)) :
  Forall (fun kc => is_Some (params !! fst kc)) layout ->
  exists args, lookup_all params (map fst layout) = Ok args.
Proof.
  induction 1 as [|[key c] layout [v Hv] _ [args IH]]; simpl.
  - now exists [].
  - simpl in Hv. rewrite Hv, IH. simpl. now eexists.
Qed.

Lemma fits_pack_value c v :
  fits c v = true -> exists b, pack_value bo c v = Ok b.
Proof.
  destruct c; simpl.
  - destruct v as [z|f]; [|discriminate]. unfold pack_uint.
    change (256 ^ Z.of_nat 1) with 256. intros ->. now eexists.
  - destruct v as [z|f]; [|discriminate]. unfold pack_uint.
    change (256 ^ Z.of_nat 2) with 65536. intros ->. now eexists.
  - destruct (as_double v) as [x|e]; simpl; [|discriminate].
    unfold pack_float. destruct (_ && _); [discriminate|].
    destruct v; now eexists.
  - destruct v; discriminate.
Qed.

Lemma pack_fields_total params (layout : list (string * code)) :
  forallb (fun '(key, c) =>
             match params !! key with
             | Some v => fits c v
             | None => false
             end) layout = true ->
  exists bs, pack_fields bo params layout = Ok bs.
Proof.
  induction layout as [|[key c] layout IH]; simpl.
  - now exists [].
  - intros [Hhd Htl]%andb_prop.
    destruct (params !! key) as [v|]; [|discriminate].
    destruct (fits_pack_value _ _ Hhd) as [b ->].
    destruct (IH Htl) as [bs ->]. simpl. now eexists.
Qed.

Lemma conforms_has_fields params :
  conforms params = true ->
  Forall (fun kc : string * code => is_Some (params !! fst kc)) declared_layout.
Proof.
  unfold conforms. generalize declared_layout as layout.
  induction layout as [|[key c] layout IH]; simpl; [constructor|].
  intros [Hhd Htl]%andb_prop. constructor; [|now apply IH].
  simpl. destruct (params !! key); [now eexists|discriminate].
Qed.

Lemma declared_layout_no_pad :
  Forall (fun kc : string * code => snd kc <> Fmtx) declared_layout.
Proof. repeat constructor; discriminate. Qed.

(** With every field present, the block is the declared fields packed in
    the declared order. *)
Lemma encode_params_fields params :
  Forall (fun kc : string * code => is_Some (params !! fst kc)) declared_layout ->
  encode_params bo params = pack_fields bo params declared_layout.
Proof.
  intros Hall. unfold encode_params.
  destruct (lookup_all_total _ _ Hall) as [args Hargs].
  rewrite params_order_declared, Hargs. cbv beta iota delta [rbind].
  unfold pack. rewrite parse_params_format. cbv beta iota delta [rbind].
  now apply pack_codes_fields; [apply declared_layout_no_pad|].
Qed.

Lemma encode_params_length params bs :
  encode_params bo params = Ok bs -> length bs = 34%nat.
Proof.
  unfold encode_params.
  destruct (lookup_all params _PARAMS_ORDER) as [args|e]; simpl; [|discriminate].
  unfold pack. rewrite parse_params_format. cbv beta iota delta [rbind].
  intros H. now rewrite (pack_codes_length _ _ _ _ H).
Qed.

Lemma conforms_encodes params :
  conforms params = true ->
  exists bs,
    encode_params bo params = Ok bs /\
    pack_fields bo params declared_layout = Ok bs /\
    length bs = 34%nat.
Proof.
  intros Hok.
  pose proof (encode_params_fields params (conforms_has_fields _ Hok)) as Heq.
  destruct (pack_fields_total params _ Hok) as [bs Hbs].
  exists bs. rewrite Heq. repeat split; try assumption.
  apply (encode_params_length params). now rewrite Heq.
Qed.

End Encoding.

(** C1, as amended.  For every parameter set that has the 18 fields, typed
    as their slots require, the encoding step of [send_params_to_pacemaker]
    produces the 18 fields packed back to back in the declared order (Pacing
    Mode first, Activity Threshold last), and the block is exactly 34 bytes
    long: 3+4+1+8+1+4+8+5 for the format [=3BfB2fBf4H5B]. *)
Theorem encode_params_declared_order
    (bo : Struct.byteorder) (params : gmap string pyval) :
  ParameterSet.conforms params = true ->
  exists bs,
    _SerialHandler.encode_params bo params = Ok bs /\
    ParameterSet.pack_fields bo params ParameterSet.declared_layout = Ok bs /\
    length ParameterSet.declared_layout = 18%nat /\
    length bs = 34%nat.
Proof.
  intros Hok.
  destruct (conforms_encodes bo params Hok) as (bs & Henc & Hfields & Hlen).
  exists bs. repeat split; assumption.
Qed.

Lemma encode_params_declared_order_witness :
  ParameterSet.conforms ParameterSet.sample = true /\
  exists bs,
    _SerialHandler.encode_params Struct.LittleEndian ParameterSet.sample = Ok bs /\
    ParameterSet.pack_fields Struct.LittleEndian ParameterSet.sample
      ParameterSet.declared_layout = Ok bs /\
    length ParameterSet.declared_layout = 18%nat /\
    length bs = 34%nat.
Proof.
  split; [vm_compute; reflexivity|].
  apply (encode_params_declared_order Struct.LittleEndian ParameterSet.sample).
  vm_compute; reflexivity.
Defined.

(** C1 as stated fails: the block of the sample settings is not 33 bytes
    long. *)
Lemma encode_params_not_33_bytes :
  exists bs,
    _SerialHandler.encode_params Struct.LittleEndian ParameterSet.sample = Ok bs /\
    length bs <> 33%nat.
Proof.
  eexists. split; [vm_compute; reflexivity|]. vm_compute. discriminate.
Qed.

(** ** Enqueuing a parameter write *)

Section Enqueue.
Import Struct _SerialHandler.

Lemma send_params_to_pacemaker_run bo params st :
  run (send_params_to_pacemaker bo params) st =
  match encode_params bo params with
  | Ok data => Done tt (set_send_params true (set_sent_data data st)) []
  | Raise e => Raised e st []
  end.
Proof.
  unfold run, send_params_to_pacemaker, bind, lift_result.
  now destruct (encode_params bo params).
Qed.

Lemma send_data_to_pacemaker_run bo params ch :
  run (ConnectionHandler.send_data_to_pacemaker bo params) ch =
  match encode_params bo params with
  | Ok data =>
      Done tt (ConnectionHandler.set_serial
                 (set_send_params true
                    (set_sent_data data (ConnectionHandler.serial ch))) ch) []
  | Raise e => Raised e ch []
  end.
Proof.
  unfold run, ConnectionHandler.send_data_to_pacemaker,
    ConnectionHandler.on_serial, zoom.
  pose proof (send_params_to_pacemaker_run bo params (ConnectionHandler.serial ch)) as H.
  unfold run in H. rewrite H.
  destruct (encode_params bo params); [reflexivity|]. now destruct ch.
Qed.

End Enqueue.

(** C6.  Whatever the connection state, [send_data_to_pacemaker] hands the
    parameter set to the transport: the encoded block becomes the last-sent
    bytes and the pending-write flag is set.  Nothing else of the connection
    handler changes, nothing is emitted, and the outcome does not depend on
    [_current_state]. *)
Theorem send_data_bypasses_state
    (bo : Struct.byteorder) (ch : ConnectionHandler.t)
    (params : gmap string pyval) :
  ParameterSet.conforms params = true ->
  exists data,
    _SerialHandler.encode_params bo params = Ok data /\
    forall state,
      run (ConnectionHandler.send_data_to_pacemaker bo params)
          (ConnectionHandler.set_current_state state ch) =
      Done tt
        (ConnectionHandler.set_current_state state
           (ConnectionHandler.set_serial
              (_SerialHandler.set_send_params true
                 (_SerialHandler.set_sent_data data (ConnectionHandler.serial ch)))
              ch))
        [].
Proof.
  intros Hok.
  destruct (conforms_encodes bo params Hok) as (data & Henc & _).
  exists data. split; [assumption|]. intros state.
  rewrite send_data_to_pacemaker_run, Henc. reflexivity.
Qed.

Lemma send_data_bypasses_state_witness :
  ParameterSet.conforms ParameterSet.sample = true /\
  exists data,
    _SerialHandler.encode_params Struct.LittleEndian ParameterSet.sample = Ok data /\
    forall state,
      run (ConnectionHandler.send_data_to_pacemaker Struct.LittleEndian
             ParameterSet.sample)
          (ConnectionHandler.set_current_state state Scenario.fresh_handler) =
      Done tt
        (ConnectionHandler.set_current_state state
           (ConnectionHandler.set_serial
              (_SerialHandler.set_send_params true
                 (_SerialHandler.set_sent_data data
                    (ConnectionHandler.serial Scenario.fresh_handler)))
              Scenario.fresh_handler))
        [].
Proof.
  split; [vm_compute; reflexivity|].
  apply (send_data_bypasses_state Struct.LittleEndian Scenario.fresh_handler
           ParameterSet.sample).
  vm_compute; reflexivity.
Defined.

(** ** Verification of the echoed parameters *)

Section Verification.
Import _SerialHandler.

Lemma verify_params_run st received :
  run (_verify_params received) st =
  Done tt st
    [if decide (_sent_data st <> take 34 received)
     then params_received false
            "The received parameters were not the same as the sent ones!
Please restart the DCM/Pacemaker or try a different Pacemaker!"
     else params_received true "Successfully sent parameters!"].
Proof.
  unfold run, _verify_params, bind, gets. rewrite params_num_bytes.
  now destruct (decide (_sent_data st <> take 34 received)).
Qed.

End Verification.

(** C2, as amended.  [_verify_params] emits one verification signal, and
    its flag is true exactly when the first 34 bytes of the echoed payload
    (34 is [_PARAMS_NUM_BYTES]) are the last-sent bytes; one differing byte
    among those 34 makes it false. *)
Theorem verify_params_first_34_bytes
    (st : _SerialHandler.t) (received : list byte) :
  exists ok msg,
    run (_SerialHandler._verify_params received) st =
      Done tt st [params_received ok msg] /\
    (ok = true <-> take 34 received = _SerialHandler._sent_data st) /\
    (forall i : nat, (i < 34)%nat ->
       _SerialHandler._sent_data st !! i <> received !! i -> ok = false).
Proof.
  rewrite verify_params_run.
  destruct (decide (_SerialHandler._sent_data st <> take 34 received)) as [Hne|Heq].
  - eexists false, _. split; [reflexivity|]. split; [|reflexivity].
    split; [discriminate|]. intros H. now elim Hne.
  - apply dec_stable in Heq. eexists true, _. split; [reflexivity|].
    split; [now split|]. intros i Hi Hdiff. elim Hdiff.
    now rewrite Heq, lookup_take_lt.
Qed.

(** C2 as stated fails: the transport sent the 34-byte block of the sample
    settings and the device echoes it faithfully.  The first 33 bytes of the
    echo are not the sent bytes, being one byte short, and yet the
    verification succeeds. *)
Lemma verify_params_not_first_33_bytes :
  run (_SerialHandler._verify_params Scenario.echo_payload) Scenario.transport_sent =
    Done tt Scenario.transport_sent
      [params_received true "Successfully sent parameters!"] /\
  take 33 Scenario.echo_payload <> _SerialHandler._sent_data Scenario.transport_sent.
Proof.
  split; [vm_compute; reflexivity|]. vm_compute. discriminate.
Qed.

(** ** Reassembly of frames *)

Section Reassembly.
Import _SerialHandler Wire.

Lemma with_input_id st : with_input (_buf st) (Serial.rx (_conn st)) st = st.
Proof. now destruct st as [? ? [] ? ? ?]. Qed.

Lemma unread_with_input b w st : unread (with_input b w st) = b ++ concat w.
Proof. reflexivity. Qed.

Lemma reading_inv st :
  reading st = true ->
  _running st = true /\ Serial.is_open (_conn st) = true /\
  Serial.fault (_conn st) = false.
Proof.
  unfold reading. intros [[-> ->]%andb_prop Hf%negb_true_iff]%andb_prop.
  now rewrite Hf.
Qed.

(** The loop on a transport whose buffer is [b]: only the buffer and the
    reads to come matter. *)
Lemma readline_loop_frame wire : forall st log b f rest,
  reading st = true ->
  length f = _num_bytes_to_read st ->
  b ++ concat wire = f ++ rest ->
  exists b' wire',
    _readline_loop wire (with_input b (Serial.rx (_conn st)) st) log =
      Done (Some f) (with_input b' wire' st) log /\
    b' ++ concat wire' = rest.
Proof.
  induction wire as [|data wire IH]; intros st log b f rest Hrd Hlen Heq;
    destruct (reading_inv _ Hrd) as (Hrun & Hopen & Hfault).
  - simpl in Heq. rewrite app_nil_r in Heq. subst b.
    exists rest, []. split; [|apply app_nil_r].
    assert (Hcmp : (_num_bytes_to_read st <=? length (f ++ rest))%nat = true)
      by (apply Nat.leb_le; rewrite length_app; lia).
    destruct st as [run0 buf0 [op po rx0 tx0 fa] n sd sp]; simpl in *.
    rewrite Hrun, Hopen, Hfault, Hcmp; simpl. unfold with_input; simpl.
    now rewrite <- Hlen, take_app_length, drop_app_length, app_nil_r.
  - destruct (Nat.leb_spec (_num_bytes_to_read st) (length b)) as [Hle|Hlt].
    + exists (drop (length f) b ++ data), wire.
      apply Nat.leb_le in Hle as Hcmp. rewrite <- Hlen in Hle. split.
      * destruct st as [run0 buf0 [op po rx0 tx0 fa] n sd sp]; simpl in *.
        rewrite Hrun, Hopen, Hfault, Hcmp; simpl. unfold with_input; simpl.
        rewrite <- Hlen. f_equal. f_equal.
        rewrite <- (take_app_le b (data ++ concat wire)) by lia.
        rewrite Heq. apply take_app_length.
      * simpl in Heq.
        rewrite <- app_assoc, <- (drop_app_le b) by lia.
        rewrite Heq. apply drop_app_length.
    + destruct (IH st log (b ++ data) f rest Hrd Hlen) as (b' & wire' & Hrun' & Hrest).
      { simpl in Heq. now rewrite <- app_assoc. }
      exists b', wire'. split; [|assumption]. rewrite <- Hrun'.
      apply Nat.leb_gt in Hlt as Hcmp.
      destruct st as [run0 buf0 [op po rx0 tx0 fa] n sd sp]; simpl in *.
      rewrite Hrun, Hopen, Hfault, Hcmp; simpl. reflexivity.
Qed.

(** One call of [_readline] when a whole frame is still to be read. *)
Lemma readline_frame st log f rest :
  reading st = true ->
  length f = _num_bytes_to_read st ->
  unread st = f ++ rest ->
  exists st',
    _readline st log = Done (Some f) st' log /\
    unread st' = rest /\
    st' = with_input (_buf st') (Serial.rx (_conn st')) st.
Proof.
  intros Hrd Hlen Heq. unfold _readline.
  destruct (Nat.leb_spec (_num_bytes_to_read st) (length (_buf st))) as [Hle|Hlt].
  - exists (set_buf (drop (_num_bytes_to_read st) (_buf st)) st).
    unfold unread in *. rewrite <- Hlen in *. split; [|split].
    + f_equal. f_equal.
      rewrite <- (take_app_le (_buf st) (concat (Serial.rx (_conn st)))) by lia.
      rewrite Heq. apply take_app_length.
    + simpl. rewrite <- (drop_app_le (_buf st)) by lia.
      rewrite Heq. apply drop_app_length.
    + now destruct st as [? ? [] ? ? ?].
  - destruct (readline_loop_frame (Serial.rx (_conn st)) st log (_buf st) f rest
                Hrd Hlen Heq) as (b' & wire' & Hrun & Hrest).
    rewrite with_input_id in Hrun.
    exists (with_input b' wire' st). split; [assumption|]. split.
    + now rewrite unread_with_input.
    + reflexivity.
Qed.

(** With less than a frame to come and the line silent afterwards, the loop
    never ends. *)
Lemma readline_loop_starved wire : forall st log b,
  reading st = true ->
  (length (b ++ concat wire) < _num_bytes_to_read st)%nat ->
  _readline_loop wire (with_input b (Serial.rx (_conn st)) st) log =
    Hang (with_input (b ++ concat wire) [] st) log.
Proof.
  induction wire as [|data wire IH]; intros st log b Hrd Hlt;
    destruct (reading_inv _ Hrd) as (Hrun & Hopen & Hfault).
  - simpl concat in *. rewrite app_nil_r in Hlt. rewrite app_nil_r.
    apply Nat.leb_gt in Hlt as Hcmp.
    destruct st as [run0 buf0 [op po rx0 tx0 fa] n sd sp]; simpl in *.
    rewrite Hrun, Hopen, Hfault, Hcmp; simpl. reflexivity.
  - simpl concat in *. rewrite app_assoc in *.
    rewrite <- (IH st log (b ++ data) Hrd Hlt).
    assert (Hcmp : (_num_bytes_to_read st <=? length b)%nat = false)
      by (apply Nat.leb_gt; rewrite !length_app in Hlt; lia).
    destruct st as [run0 buf0 [op po rx0 tx0 fa] n sd sp]; simpl in *.
    rewrite Hrun, Hopen, Hfault, Hcmp; simpl. reflexivity.
Qed.

Lemma readline_starved st log :
  reading st = true ->
  (length (unread st) < _num_bytes_to_read st)%nat ->
  _readline st log = Hang (with_input (unread st) [] st) log.
Proof.
  intros Hrd Hlt. unfold _readline, unread in *.
  replace (_num_bytes_to_read st <=? length (_buf st))%nat with false
    by (symmetry; apply Nat.leb_gt; rewrite length_app in Hlt; lia).
  rewrite <- (readline_loop_starved _ st log (_buf st) Hrd Hlt).
  now rewrite with_input_id.
Qed.

(** A line that [_readline] returns is one frame long, and together with
    what is left to read it is what was there to read before the call:
    nothing is dropped and nothing changes place. *)
Lemma readline_loop_fifo wire : forall st log r st' log',
  _readline_loop wire st log = Done (Some r) st' log' ->
  length r = _num_bytes_to_read st /\
  r ++ unread st' = _buf st ++ concat wire /\
  _num_bytes_to_read st' = _num_bytes_to_read st /\ log' = log.
Proof.
  induction wire as [|data wire IH]; intros st log r st' log'; simpl.
  - destruct (negb _); [discriminate|].
    destruct (Serial.fault _); [discriminate|].
    destruct (Nat.leb_spec (_num_bytes_to_read st) (length (_buf st))) as [Hle|Hlt];
      [|discriminate].
    intros [= <- <- <-]. unfold unread; simpl.
    rewrite length_take_le by lia. rewrite !app_nil_r, take_drop. auto.
  - destruct (negb _); [discriminate|].
    destruct (Serial.fault _); [discriminate|].
    destruct (Nat.leb_spec (_num_bytes_to_read st) (length (_buf st))) as [Hle|Hlt].
    + intros [= <- <- <-]. unfold unread; simpl.
      rewrite length_take_le by lia.
      rewrite !app_assoc, take_drop. auto.
    + intros H. apply IH in H. simpl in H. now rewrite <- app_assoc in H.
Qed.

Lemma readline_fifo st log r st' log' :
  _readline st log = Done (Some r) st' log' ->
  length r = _num_bytes_to_read st /\
  r ++ unread st' = unread st /\
  _num_bytes_to_read st' = _num_bytes_to_read st /\ log' = log.
Proof.
  unfold _readline.
  destruct (Nat.leb_spec (_num_bytes_to_read st) (length (_buf st))) as [Hle|Hlt].
  - intros [= <- <- <-]. unfold unread; simpl.
    rewrite length_take_le by lia. rewrite app_assoc, take_drop. auto.
  - apply readline_loop_fifo.
Qed.

End Reassembly.

Section ReadLines.
Import _SerialHandler Wire.

Lemma read_lines_frames k : forall frames st log,
  reading st = true ->
  Forall (fun f => length f = _num_bytes_to_read st) frames ->
  unread st = concat frames ->
  (k <= length frames)%nat ->
  exists st',
    read_lines k st log = Done (map Some (take k frames)) st' log /\
    unread st' = concat (drop k frames) /\
    reading st' = true /\
    _num_bytes_to_read st' = _num_bytes_to_read st.
Proof.
  induction k as [|k IH]; intros frames st log Hrd Hall Hun Hk.
  - exists st. now rewrite take_0, drop_0.
  - destruct frames as [|f frames]; [simpl in Hk; lia|].
    inversion Hall as [|? ? Hf Hall']; subst.
    destruct (readline_frame st log f (concat frames) Hrd Hf Hun)
      as (st1 & Hline & Hun1 & Hst1).
    assert (Hrd1 : reading st1 = true) by (rewrite Hst1; exact Hrd).
    assert (Hn1 : _num_bytes_to_read st1 = _num_bytes_to_read st)
      by (rewrite Hst1; reflexivity).
    destruct (IH frames st1 log Hrd1) as (st' & Hlines & Hun' & Hrd' & Hn');
      [now rewrite Hn1|assumption|simpl in Hk; lia|].
    exists st'. simpl. unfold bind at 1. rewrite Hline.
    unfold bind at 1. rewrite Hlines. unfold ret.
    repeat split; [assumption..|congruence].
Qed.

End ReadLines.

(** C3.  Let the device send [frames], each of the fixed frame size, and
    let the bytes arrive cut into [chunks] in any way.  Then [_readline]
    returns the frames and nothing else: its first [k] calls return the
    first [k] frames, and what is left to read, buffer first, is the rest
    of the stream in its order; after the last frame a further call finds
    nothing and never returns.  Frame-sized reads give the very same
    lines. *)
Theorem frame_reassembly
    (st : _SerialHandler.t) (frames chunks : list (list byte)) :
  Wire.reading st = true ->
  (0 < _SerialHandler._num_bytes_to_read st)%nat ->
  Forall (fun f => length f = _SerialHandler._num_bytes_to_read st) frames ->
  _SerialHandler._buf st = [] ->
  Serial.rx (_SerialHandler._conn st) = chunks ->
  concat chunks = concat frames ->
  (forall k : nat, (k <= length frames)%nat ->
     exists st',
       run (_SerialHandler.read_lines k) st =
         Done (map Some (take k frames)) st' [] /\
       Wire.unread st' = concat (drop k frames)) /\
  (exists st',
     run (_SerialHandler.read_lines (length frames)) st =
       Done (map Some frames) st' [] /\
     _SerialHandler._buf st' = [] /\
     exists st'', run _SerialHandler._readline st' = Hang st'' []) /\
  (exists st',
     run (_SerialHandler.read_lines (length frames))
         (Wire.with_input [] frames st) =
       Done (map Some frames) st' []).
Proof.
  intros Hrd Hpos Hall Hbuf Hrx Hcat.
  assert (Hun : Wire.unread st = concat frames).
  { unfold Wire.unread. now rewrite Hbuf, Hrx. }
  split; [|split].
  - intros k Hk.
    destruct (read_lines_frames k frames st [] Hrd Hall Hun Hk)
      as (st' & Hrun & Hun' & _).
    now exists st'.
  - destruct (read_lines_frames (length frames) frames st [] Hrd Hall Hun)
      as (st' & Hrun & Hun' & Hrd' & Hn'); [lia|].
    rewrite firstn_all in Hrun. rewrite drop_all in Hun'.
    exists st'. split; [assumption|].
    unfold Wire.unread in Hun'. apply app_eq_nil in Hun' as [Hb Hw].
    split; [assumption|]. eexists. unfold run.
    apply readline_starved; [assumption|].
    unfold Wire.unread. rewrite Hb, Hw, Hn'. simpl. assumption.
  - destruct (read_lines_frames (length frames) frames
                (Wire.with_input [] frames st) [])
      as (st' & Hrun & _); [assumption..|reflexivity|lia|].
    rewrite firstn_all in Hrun. now exists st'.
Qed.

(** ** Bytes, words and single-precision numbers *)

Section Words.
Import Struct.




Lemma digits_bounds m :
  2 ^ (IEEE.digits m - 1) <= Zpos m < 2 ^ IEEE.digits m.
Proof.
  unfold IEEE.digits.
  induction m as [m IH|m IH|]; cbn [digits2_pos].
  - rewrite Pos2Z.inj_succ, Z.pow_succ_r by lia.
    replace (Z.succ (Zpos (digits2_pos m)) - 1)
      with (Z.succ (Zpos (digits2_pos m) - 1)) by lia.
    rewrite Z.pow_succ_r by lia. lia.
  - rewrite Pos2Z.inj_succ, Z.pow_succ_r by lia.
    replace (Z.succ (Zpos (digits2_pos m)) - 1)
      with (Z.succ (Zpos (digits2_pos m) - 1)) by lia.
    rewrite Z.pow_succ_r by lia. lia.
  - simpl. lia.
Qed.

(** The two shapes of a finite single-precision number. *)
Lemma valid_b32_shape s m e :
  valid_binary 24 128 (S754_finite s m e) = true ->
  (2 ^ 23 <= Zpos m < 2 ^ 24 /\ -149 <= e <= 104) \/
  (Zpos m < 2 ^ 23 /\ e = -149).
Proof.
  unfold valid_binary, bounded, canonical_mantissa, fexp, emin.
  intros [Hc He]%andb_prop. apply Z.eqb_eq in Hc. apply Z.leb_le in He.
  pose proof (digits_bounds m) as [Hlo Hhi]. unfold IEEE.digits in *.
  set (d := Zpos (digits2_pos m)) in *.
  assert (Hd : 0 < d) by (unfold d; lia).
  destruct (Z.le_gt_cases (2 ^ 23) (Zpos m)) as [Hn|Hs].
  - left.
    assert (23 < d).
    { destruct (Z.le_gt_cases d 23) as [Hle|]; [|assumption].
      pose proof (Z.pow_le_mono_r 2 d 23 ltac:(lia) Hle). lia. }
    assert (d = 24) by lia.
    replace d with 24 in Hhi by lia. lia.
  - right. split; [assumption|].
    assert (d - 1 < 23).
    { destruct (Z.le_gt_cases 23 (d - 1)) as [Hle|]; [|lia].
      pose proof (Z.pow_le_mono_r 2 23 (d - 1) ltac:(lia) Hle). lia. }
    lia.
Qed.





(** Widening changes the writing of a number, not the number: the
    mantissa gains [53 - digits m] binary zeros, the exponent loses as
    much. *)
Lemma widen_exact s m e :
  (IEEE.digits m <= 24) ->
  exists m' e',
    IEEE.widen (S754_finite s m e) = S754_finite s m' e' /\
    Zpos m' = Zpos m * 2 ^ (e - e') /\ e' <= e.
Proof.
  intros Hd. unfold IEEE.widen.
  set (d := 53 - IEEE.digits m). assert (0 <= d) by (unfold d; lia).
  eexists _, _. split; [reflexivity|].
  replace (e - (e - d)) with d by lia.
  rewrite Z.shiftl_mul_pow2 by assumption.
  assert (0 < 2 ^ d) by (apply Z.pow_pos_nonneg; lia).
  rewrite Z2Pos.id by lia. lia.
Qed.

Lemma digits_unique m k :
  2 ^ (k - 1) <= Zpos m < 2 ^ k -> IEEE.digits m = k.
Proof.
  intros [Hlo Hhi]. pose proof (digits_bounds m) as [Dlo Dhi].
  destruct (Z.lt_trichotomy (IEEE.digits m) k) as [Hlt|[Heq|Hgt]];
    [|assumption|].
  - pose proof (Z.pow_le_mono_r 2 (IEEE.digits m) (k - 1) ltac:(lia) ltac:(lia)).
    lia.
  - pose proof (Z.pow_le_mono_r 2 k (IEEE.digits m - 1) ltac:(lia) ltac:(lia)).
    lia.
Qed.

(** What Python receives is a double in its canonical writing. *)
Lemma widen_valid y :
  valid_binary 24 128 y = true -> valid_binary 53 1024 (IEEE.widen y) = true.
Proof.
  destruct y as [s|s| |s m e]; try reflexivity. intros Hv.
  pose proof (digits_bounds m) as [Dlo Dhi].
  assert (Hd : 1 <= IEEE.digits m) by (unfold IEEE.digits; lia).
  assert (Hshape : IEEE.digits m <= 24 /\ -149 <= e <= 104).
  { apply (valid_b32_shape s m e) in Hv.
    destruct (Z.le_gt_cases (IEEE.digits m) 24) as [Hle|Hgt].
    - destruct Hv as [[_ He]|[_ ->]]; lia.
    - pose proof (Z.pow_le_mono_r 2 24 (IEEE.digits m - 1) ltac:(lia) ltac:(lia)).
      destruct Hv as [[[_ Hm] _]|[Hm _]];
        [|pose proof (Z.pow_lt_mono_r 2 23 24 ltac:(lia) ltac:(lia) ltac:(lia))];
        lia. }
  destruct Hshape as [Hd24 He].
  unfold IEEE.widen. set (d := 53 - IEEE.digits m).
  assert (H2d : 0 < 2 ^ d) by (apply Z.pow_pos_nonneg; unfold d; lia).
  assert (Hm' : Zpos (Z.to_pos (Z.shiftl (Zpos m) d)) = Zpos m * 2 ^ d).
  { rewrite Z.shiftl_mul_pow2 by (unfold d; lia). rewrite Z2Pos.id; lia. }
  assert (Hdig : IEEE.digits (Z.to_pos (Z.shiftl (Zpos m) d)) = 53).
  { apply digits_unique. rewrite Hm'.
    assert (E1 : 2 ^ (53 - 1) = 2 ^ (IEEE.digits m - 1) * 2 ^ d).
    { rewrite <- Z.pow_add_r by (unfold d; lia). f_equal. unfold d. lia. }
    assert (E2 : 2 ^ 53 = 2 ^ IEEE.digits m * 2 ^ d).
    { rewrite <- Z.pow_add_r by (unfold d; lia). f_equal. unfold d. lia. }
    rewrite E1, E2. split.
    - apply Z.mul_le_mono_nonneg_r; lia.
    - apply Z.mul_lt_mono_pos_r; lia. }
  unfold valid_binary, bounded, canonical_mantissa, fexp, emin.
  unfold IEEE.digits in Hdig. rewrite Hdig.
  apply andb_true_intro. split; [apply Z.eqb_eq|apply Z.leb_le]; unfold d; lia.
Qed.

End Words.

(** ** One turn of the transport loop *)

Section Turn.
Import Struct _SerialHandler Wire.
Variable bo : byteorder.

Lemma send_request_run st log :
  reading st = true ->
  send_request bo st log = Done tt (requested bo st) log.
Proof.
  intros Hrd. destruct (reading_inv _ Hrd) as (Hrun & Hopen & Hfault).
  unfold send_request, requested, conn_write, bind, gets, modify, lift_result.
  destruct st as [run0 buf0 [op po rx0 tx0 fa] n sd sp]; simpl in *. subst.
  now destruct sp.
Qed.

Lemma requested_input st :
  reading (requested bo st) = reading st /\
  unread (requested bo st) = unread st /\
  _num_bytes_to_read (requested bo st) = _num_bytes_to_read st /\
  _sent_data (requested bo st) = _sent_data st.
Proof.
  unfold requested. now destruct (_send_params st).
Qed.

(** A turn on an open port, when a whole frame is still to be read: the
    request is written, the frame is taken off what is to be read, and the
    frame is dispatched. *)
Lemma exchange_frame st f rest :
  reading st = true ->
  length f = _num_bytes_to_read st ->
  unread st = f ++ rest ->
  exists st',
    run (exchange bo) st = dispatch bo (Some f) st' [] /\
    st' = with_input (_buf st') (Serial.rx (_conn st')) (requested bo st) /\
    unread st' = rest.
Proof.
  intros Hrd Hlen Hun.
  destruct (requested_input st) as (Hrd' & Hun' & Hn' & _).
  destruct (readline_frame (requested bo st) [] f rest) as (st' & Hline & Hrest & Hst');
    [congruence..|].
  exists st'. split; [|split; assumption].
  unfold run, exchange, bind. now rewrite send_request_run, Hline.
Qed.

Lemma run_iteration_open st :
  Serial.is_open (_conn st) = true ->
  run (run_iteration bo) st =
  match run (exchange bo) st with
  | Raised _ st' log => Done tt st' log
  | o => o
  end.
Proof.
  intros Hopen. unfold run, run_iteration, bind, gets, try_except.
  now rewrite Hopen.
Qed.

Lemma dispatch_other c payload st log :
  c <> x00 -> c <> x01 ->
  dispatch bo (Some (c :: payload)) st log = Done tt st log.
Proof.
  intros H0 H1. unfold dispatch.
  destruct (decide (c = x00)); [contradiction|].
  destruct (decide (c = x01)); [contradiction|]. reflexivity.
Qed.

Lemma dispatch_echo payload st log :
  dispatch bo (Some (x01 :: payload)) st log = _verify_params payload st log.
Proof. reflexivity. Qed.







End Turn.

Lemma frame_reassembly_witness :
  let frames := [Scenario.ecg_frame; Scenario.echo_frame; Scenario.other_frame] in
  let st := Scenario.transport (Scenario.cut 1 200 (concat frames)) in
  (forall k : nat, (k <= length frames)%nat ->
     exists st',
       run (_SerialHandler.read_lines k) st =
         Done (map Some (take k frames)) st' [] /\
       Wire.unread st' = concat (drop k frames)) /\
  (exists st',
     run (_SerialHandler.read_lines (length frames)) st =
       Done (map Some frames) st' [] /\
     _SerialHandler._buf st' = [] /\
     exists st'', run _SerialHandler._readline st' = Hang st'' []) /\
  (exists st',
     run (_SerialHandler.read_lines (length frames))
         (Wire.with_input [] frames st) =
       Done (map Some frames) st' []).
Proof.
  intros frames st.
  apply (frame_reassembly st frames (Scenario.cut 1 200 (concat frames))).
  - reflexivity.
  - vm_compute. lia.
  - repeat constructor.
  - reflexivity.
  - reflexivity.
  - vm_compute. reflexivity.
Defined.


(** Packing the Python floats 0.1, ..., 2.0 gives the payload that carries
    the single-precision numbers 0.1, ..., 2.0. *)
Lemma pack_tenths_payload (bo : Struct.byteorder) :
  Struct.pack bo "=20f" (Ecg.python_tenths 1 20) =
  Ok (Ecg.payload_of bo (Ecg.tenths 1 20)).
Proof. destruct bo; vm_compute; reflexivity. Qed.

(** What comes back is the single-precision number, held as a double: for
    0.5 that is the Python float 0.5, for 0.1 it is the double next to the
    single-precision 0.1, which is not the Python float 0.1. *)
Lemma received_single_precision :
  Ecg.received (IEEE.single 5 10) = PyFloat (IEEE.double 5 10) /\
  Ecg.received (IEEE.single 1 10) = PyFloat (S754_finite false 7205759511166976 (-56)) /\
  IEEE.double 1 10 = S754_finite false 7205759403792794 (-56).
Proof. repeat split; vm_compute; reflexivity. Qed.


(** C9.  When a frame with control byte 1 is handled while the last-sent
    bytes are still the empty byte string of [__init__], the transport
    emits a verification signal whose flag is false: the first 34 bytes of
    the 80-byte payload are not the empty string. *)
Theorem echo_before_any_write
    (bo : Struct.byteorder) (st : _SerialHandler.t) (payload rest : list byte) :
  Wire.reading st = true ->
  _SerialHandler._num_bytes_to_read st = (_SerialHandler._ECG_NUM_BYTES + 1)%nat ->
  length payload = _SerialHandler._ECG_NUM_BYTES ->
  Wire.unread st = (x01 :: payload) ++ rest ->
  _SerialHandler._sent_data st = [] ->
  exists st' msg,
    run (_SerialHandler.run_iteration bo) st =
      Done tt st' [params_received false msg] /\
    _SerialHandler._sent_data st' = [].
Proof.
  intros Hrd Hn Hlen Hun Hsent.
  destruct (exchange_frame bo st (x01 :: payload) rest Hrd) as (st' & Hrun & Hst' & _);
    [simpl; rewrite Hn, Hlen; lia|assumption|].
  assert (Hsent' : _SerialHandler._sent_data st' = []).
  { rewrite Hst'. simpl.
    destruct (requested_input bo st) as (_ & _ & _ & ->). assumption. }
  exists st'. eexists. split; [|assumption].
  rewrite run_iteration_open by now destruct (reading_inv _ Hrd) as (_ & ? & _).
  rewrite Hrun, dispatch_echo.
  pose proof (verify_params_run st' payload) as Hv. unfold run in Hv.
  rewrite Hv, Hsent'.
  destruct (decide ([] <> take 34 payload)) as [_|Heq]; [reflexivity|].
  apply dec_stable in Heq. apply (f_equal length) in Heq.
  rewrite length_take, Hlen in Heq. discriminate.
Qed.

Lemma echo_before_any_write_witness :
  exists st' msg,
    run (_SerialHandler.run_iteration Struct.LittleEndian)
        (Scenario.transport (Scenario.cut 40 40 Scenario.echo_frame)) =
      Done tt st' [params_received false msg] /\
    _SerialHandler._sent_data st' = [].
Proof.
  apply (echo_before_any_write Struct.LittleEndian
           (Scenario.transport (Scenario.cut 40 40 Scenario.echo_frame))
           Scenario.echo_payload []);
    [reflexivity|reflexivity|vm_compute; reflexivity|vm_compute; reflexivity
    |reflexivity].
Defined.

(** C10.  A frame whose control byte is neither 0 nor 1 is taken off the
    input and dropped: the dispatch emits nothing and leaves the transport
    as it is, so the turn of the loop ends normally with no signal, the
    state being the one after the request was written, less the bytes of
    the frame in what is still to be read. *)
Theorem unknown_control_byte_ignored
    (bo : Struct.byteorder) (st : _SerialHandler.t)
    (c : byte) (payload rest : list byte) :
  Wire.reading st = true ->
  length (c :: payload) = _SerialHandler._num_bytes_to_read st ->
  Wire.unread st = (c :: payload) ++ rest ->
  c <> x00 -> c <> x01 ->
  (forall s, run (_SerialHandler.dispatch bo (Some (c :: payload))) s = Done tt s []) /\
  exists st',
    run (_SerialHandler.run_iteration bo) st = Done tt st' [] /\
    st' = Wire.with_input (_SerialHandler._buf st')
            (Serial.rx (_SerialHandler._conn st')) (Wire.requested bo st) /\
    Wire.unread st' = rest.
Proof.
  intros Hrd Hlen Hun H0 H1. split.
  - intros s. now apply dispatch_other.
  - destruct (exchange_frame bo st (c :: payload) rest Hrd Hlen Hun)
      as (st' & Hrun & Hst' & Hrest).
    exists st'. split; [|split; assumption].
    rewrite run_iteration_open by now destruct (reading_inv _ Hrd) as (_ & ? & _).
    rewrite Hrun. now rewrite dispatch_other.
Qed.

Lemma unknown_control_byte_ignored_witness :
  exists st',
    run (_SerialHandler.run_iteration Struct.LittleEndian)
        (Scenario.transport (Scenario.cut 1 1 Scenario.other_frame)) =
      Done tt st' [] /\
    Wire.unread st' = [].
Proof.
  destruct (unknown_control_byte_ignored Struct.LittleEndian
              (Scenario.transport (Scenario.cut 1 1 Scenario.other_frame))
              x02 (repeat xff _SerialHandler._ECG_NUM_BYTES) [])
    as (_ & st' & Hrun & _ & Hrest);
    [reflexivity|reflexivity|vm_compute; reflexivity|discriminate|discriminate|].
  now exists st'.
Defined.

(** ** The connection state machine *)

Section Preservation.
Context {St : Type}.

Lemma keeps_ret {A B} (f : St -> B) (a : A) : keeps f (ret a).
Proof. now intros s log. Qed.

Lemma keeps_raise {A B} (f : St -> B) (e : exn) : keeps f (@raise St A e).
Proof. now intros s log. Qed.

Lemma keeps_gets {A B} (f : St -> B) (g : St -> A) : keeps f (gets g).
Proof. now intros s log. Qed.

Lemma keeps_lift_result {A B} (f : St -> B) (r : result A) :
  keeps f (@lift_result St A r).
Proof. destruct r; [apply keeps_ret|apply keeps_raise]. Qed.

Lemma keeps_emit {B} (f : St -> B) (e : effect) : keeps f (@emit St e).
Proof. now intros s log. Qed.

Lemma keeps_modify {B} (f : St -> B) (g : St -> St) :
  (forall s, f (g s) = f s) -> keeps f (modify g).
Proof. intros H s log. apply H. Qed.

Lemma keeps_bind {A C B} (f : St -> B) (m : M St A) (k : A -> M St C) :
  keeps f m -> (forall a, keeps f (k a)) -> keeps f (bind m k).
Proof.
  intros Hm Hk s log. unfold bind. specialize (Hm s log).
  destruct (m s log) as [a s' log'|e s' log'|s' log']; try exact Hm.
  rewrite Hk. exact Hm.
Qed.

End Preservation.

Section Ticks.
Import ConnectionHandler Wire Tick.
Context {lib : pyserial}.

Lemma keeps_on_serial {A B} (f : t -> B) (m : M _SerialHandler.t A) :
  (forall h s, f (set_serial h s) = f s) -> keeps f (on_serial m).
Proof.
  intros H s log. unfold on_serial, zoom.
  destruct (m (serial s) log); apply H.
Qed.

Lemma keeps_device_serial_number {B} (f : t -> B) : keeps f device_serial_number.
Proof.
  intros s log. unfold device_serial_number, bind, gets.
  now destruct (_device s).
Qed.

Lemma keeps_device_device {B} (f : t -> B) : keeps f device_device.
Proof.
  intros s log. unfold device_device, bind, gets.
  now destruct (_device s).
Qed.

Lemma keeps_any_removed {B} (f : t -> B) rem : keeps f (any_removed rem).
Proof.
  induction rem as [|r rem IH]; [apply keeps_ret|].
  apply keeps_bind; [apply keeps_device_serial_number|].
  intros sn. destruct (bool_decide _); [apply keeps_ret|apply IH].
Qed.

(** No branch of a tick touches [_current_state]. *)
Lemma keeps_current_handle_removed rem :
  keeps _current_state (_handle_removed_device lib rem).
Proof.
  apply keeps_bind; [apply keeps_any_removed|]. intros [|]; [|apply keeps_ret].
  apply keeps_bind; [now apply keeps_modify|]. intros _.
  apply keeps_bind; [destruct rem; [apply keeps_raise|apply keeps_ret]|].
  intros sn. apply keeps_bind; [apply keeps_emit|]. intros _.
  apply keeps_bind; [apply keeps_lift_result|]. intros empty.
  apply keeps_bind; [now apply keeps_modify|]. intros _.
  now apply keeps_on_serial.
Qed.

Lemma keeps_current_tick_step comports ch :
  keeps _current_state (branch lib comports ch).
Proof.
  unfold branch. destruct (_wanted_state ch).
  - unfold not_connected_step. destruct (added comports ch); [apply keeps_ret|].
    apply keeps_bind; [now apply keeps_modify|]. intros _.
    apply keeps_bind; [apply keeps_gets|]. intros first.
    destruct (bool_decide _).
    + apply keeps_bind; [apply keeps_device_serial_number|]. intros sn.
      apply keeps_bind; [|intros _]; now apply keeps_modify.
    + apply keeps_bind; [apply keeps_device_serial_number|]. intros sn.
      destruct (bool_decide _); now apply keeps_modify.
  - apply keeps_bind; [apply keeps_gets|]. intros prev.
    apply keeps_bind; [|intros _; apply keeps_current_handle_removed].
    destruct (bool_decide _); [|apply keeps_ret].
    apply keeps_bind; [apply keeps_device_serial_number|].
    intros sn. apply keeps_emit.
  - apply keeps_bind; [apply keeps_gets|]. intros prev.
    apply keeps_bind; [|intros _; apply keeps_current_handle_removed].
    destruct (_ || _); [|apply keeps_ret].
    apply keeps_bind; [apply keeps_device_device|]. intros port.
    apply keeps_bind; [now apply keeps_on_serial|]. intros _.
    apply keeps_bind; [apply keeps_device_serial_number|].
    intros sn. apply keeps_emit.
Qed.

(** A tick is: store the scan and adopt the wanted state, take the branch
    of that state, make this tick the previous one. *)
Lemma update_state_run comports ch log :
  _update_state lib comports ch log =
  match branch lib comports ch (scanned comports ch) log with
  | Done _ s log' => Done tt (settled s) log'
  | o => o
  end.
Proof.
  assert (Hgen : forall step,
    keeps _current_state step ->
    match step (scanned comports ch) log with
    | Done _ s' log' =>
        Done tt (set_prev_state (_current_state s') (set_old_devices (_devices s') s')) log'
    | Raised e s' log' => Raised e s' log'
    | Hang s' log' => Hang s' log'
    end =
    match step (scanned comports ch) log with
    | Done _ s log' => Done tt (settled s) log'
    | o => o
    end).
  { intros step _. now destruct (step (scanned comports ch) log). }
  rewrite <- (Hgen _ (keeps_current_tick_step comports ch)).
  unfold _update_state, branch, scanned, added, removed, bind, gets, modify, ret.
  destruct ch as [rn dv dvs old first cur prv wnt ser]; simpl.
  destruct cur, wnt; reflexivity.
Qed.

(** A tick is in the state that was wanted when it began. *)
Lemma update_state_adopts_wanted comports ch :
  _current_state (final (run (_update_state lib comports) ch)) = _wanted_state ch.
Proof.
  unfold run. rewrite update_state_run.
  pose proof (keeps_current_tick_step comports ch (scanned comports ch) []) as H.
  destruct (branch lib comports ch (scanned comports ch) []); simpl in *;
    rewrite H; reflexivity.
Qed.

End Ticks.

Section Branches.
Import ConnectionHandler Wire Tick.
Context {lib : pyserial}.

Lemma any_removed_run dev rem s log :
  _device s = Port dev ->
  any_removed rem s log = Done (carries_serial dev rem) s log.
Proof.
  intros Hdev. induction rem as [|r rem IH]; [reflexivity|].
  cbn [any_removed carries_serial existsb].
  unfold bind at 1. unfold device_serial_number, bind, gets. rewrite Hdev.
  unfold ret. destruct (bool_decide (serial_number dev = serial_number r)).
  - reflexivity.
  - exact IH.
Qed.

Lemma stop_serial_comm_run h log :
  _SerialHandler.stop_serial_comm h log = Done tt (unbound h) log.
Proof. now destruct h as [? ? [] ? ? ?]. Qed.

Lemma start_serial_comm_run port h log :
  Serial.is_open (_SerialHandler._conn h) = false ->
  _SerialHandler.start_serial_comm port h log = Done tt (bound port h) log.
Proof.
  destruct h as [? ? [op ? ? ? ?] ? ? ?]; simpl. intros ->. reflexivity.
Qed.

Lemma handle_removed_run dev rem s log :
  _device s = Port dev ->
  _handle_removed_device lib rem s log =
  match rem with
  | r :: _ =>
      if carries_serial dev rem
      then match lib with
           | upto_3_4 =>
               Done tt (dropped s)
                 (log ++ [connect_status_change NOT_CONNECTED (serial_number r)])
           | from_3_5 =>
               Raised TypeError (alarmed s)
                 (log ++ [connect_status_change NOT_CONNECTED (serial_number r)])
           end
      else Done tt s log
  | [] => Done tt s log
  end.
Proof.
  intros Hdev. unfold _handle_removed_device. unfold bind at 1.
  rewrite (any_removed_run dev) by assumption.
  destruct rem as [|r rem]; [reflexivity|].
  destruct (carries_serial dev (r :: rem)); [|reflexivity].
  destruct lib.
  - unfold bind, modify, emit, lift_result, ListPortInfo_new, ret, on_serial, zoom.
    rewrite stop_serial_comm_run. reflexivity.
  - reflexivity.
Qed.

Lemma handle_removed_kept dev rem s log :
  _device s = Port dev ->
  carries_serial dev rem = false ->
  _handle_removed_device lib rem s log = Done tt s log.
Proof.
  intros Hdev Hno. rewrite (handle_removed_run dev) by assumption.
  rewrite Hno. now destruct rem.
Qed.

(** When a removed device carries the serial number of the active one, the
    handler asks for NOT_CONNECTED and emits the signal; then it gives the
    device up and unbinds the port, or, where [ListPortInfo()] raises, stops
    there with [TypeError]. *)
Lemma handle_removed_dropped dev rem s log :
  _device s = Port dev ->
  carries_serial dev rem = true ->
  exists gone rest,
    rem = gone :: rest /\
    _handle_removed_device lib rem s log =
      match lib with
      | upto_3_4 =>
          Done tt (dropped s)
            (log ++ [connect_status_change NOT_CONNECTED (serial_number gone)])
      | from_3_5 =>
          Raised TypeError (alarmed s)
            (log ++ [connect_status_change NOT_CONNECTED (serial_number gone)])
      end.
Proof.
  intros Hdev Hyes. rewrite (handle_removed_run dev) by assumption.
  rewrite Hyes. destruct rem as [|gone rest]; [discriminate|].
  now exists gone, rest.
Qed.

Lemma registered_step_steady dev rem s log :
  _device s = Port dev ->
  _prev_state s = REGISTERED ->
  registered_step lib rem s log = _handle_removed_device lib rem s log.
Proof.
  intros Hdev Hprev. unfold registered_step, bind at 1 2, gets.
  rewrite Hprev. reflexivity.
Qed.

Lemma registered_step_entering dev rem s log :
  _device s = Port dev ->
  _prev_state s <> REGISTERED ->
  Serial.is_open (_SerialHandler._conn (serial s)) = false ->
  registered_step lib rem s log =
  _handle_removed_device lib rem
    (set_serial (bound (device dev) (serial s)) s)
    (log ++ [connect_status_change REGISTERED (serial_number dev)]).
Proof.
  intros Hdev Hprev Hclosed. unfold registered_step, bind at 1 2, gets.
  replace (bool_decide (_prev_state s = NOT_CONNECTED) ||
           bool_decide (_prev_state s = CONNECTED)) with true
    by now destruct (_prev_state s).
  unfold device_device, device_serial_number, on_serial, zoom, bind, gets, emit.
  rewrite Hdev. unfold ret at 1. cbv beta iota.
  rewrite start_serial_comm_run by assumption.
  cbn [_device set_serial]. now rewrite Hdev.
Qed.

Lemma not_connected_step_run dev others s log :
  not_connected_step (dev :: others) s log =
  Done tt
    (if bool_decide (_first_serial_num s = Some "")
     then set_wanted_state REGISTERED
            (set_first_serial_num (serial_number dev) (set_device (Port dev) s))
     else if bool_decide (_first_serial_num s = serial_number dev)
     then set_wanted_state REGISTERED (set_device (Port dev) s)
     else set_wanted_state CONNECTED (set_device (Port dev) s))
    log.
Proof.
  unfold not_connected_step, device_serial_number, bind, gets, modify, ret, raise.
  destruct s as [rn dv dvs old first cur prv wnt ser]. simpl.
  destruct (bool_decide (first = Some "")); [reflexivity|]. simpl.
  destruct (bool_decide (first = serial_number dev)); reflexivity.
Qed.

Lemma port_in_same_device d d' devices :
  device d = device d' -> port_in d devices = port_in d' devices.
Proof.
  intros Heq. unfold port_in, port_eqb. now rewrite Heq.
Qed.

(** A device of the previous scan that is no longer listed is among the
    removed ones. *)
Lemma carries_serial_absent dev new old :
  In dev old -> port_in dev new = false ->
  carries_serial dev (difference old new) = true.
Proof.
  intros Hin Habs. apply existsb_exists. exists dev. split.
  - apply filter_In. now rewrite Habs.
  - now apply bool_decide_eq_true.
Qed.

(** While the device is listed, and no other device of the previous scan
    has its serial number, none of the removed devices has it. *)
Lemma carries_serial_present dev new old :
  (forall d, In d old -> serial_number d = serial_number dev ->
             device d = device dev) ->
  port_in dev new = true ->
  carries_serial dev (difference old new) = false.
Proof.
  intros Hid Hpres. apply not_true_is_false. intros Hex.
  apply existsb_exists in Hex as (r & Hr & Hsn).
  apply filter_In in Hr as [Hold Hgone].
  apply bool_decide_eq_true in Hsn.
  rewrite (port_in_same_device r dev) in Hgone by (apply Hid; congruence).
  now rewrite Hpres in Hgone.
Qed.

Lemma register_device_run s :
  run register_device s =
  if bool_decide (_current_state s = CONNECTED)
  then Done tt (set_wanted_state REGISTERED s) []
  else match _device s with
       | PortList _ => Raised AttributeError s []
       | Port dev =>
           if truthy (serial_number dev)
           then Done tt s [show_alert "Already registered this pacemaker!"]
           else if (0 <? length (_devices s))%nat
           then Done tt s [show_alert
                  "Please unplug and replug the pacemaker you want to connect to!"]
           else Done tt s [show_alert "Please plug in a pacemaker!"]
       end.
Proof.
  unfold run, register_device, device_serial_number, _show_alert,
    bind, gets, modify, emit, raise, ret.
  destruct (bool_decide (_current_state s = CONNECTED)); [reflexivity|].
  destruct (_device s) as [ports|dev]; [reflexivity|].
  destruct (truthy (serial_number dev)); [reflexivity|].
  now destruct (0 <? length (_devices s))%nat.
Qed.

End Branches.

(** C4.  Take a tick that runs in state NOT_CONNECTED (the state a tick runs
    in is the one it adopts before it branches) and whose scan shows added
    eligible devices.  The tick makes the first of them the active device.
    With no serial number remembered yet it remembers this one and asks for
    REGISTERED; with this very serial number remembered it asks for
    REGISTERED; with another one remembered it asks for CONNECTED.  When
    REGISTERED is asked for, the next tick is in state REGISTERED, whatever
    it scans and without any call of [register_device]. *)
Theorem not_connected_adopts_first_added
    (lib : pyserial) (comports : list ListPortInfo) (ch : ConnectionHandler.t)
    (dev : ListPortInfo) (others : list ListPortInfo) :
  ConnectionHandler._current_state (Tick.scanned comports ch) = NOT_CONNECTED ->
  Tick.added comports ch = dev :: others ->
  exists ch',
    run (ConnectionHandler._update_state lib comports) ch = Done tt ch' [] /\
    ConnectionHandler._current_state ch' = NOT_CONNECTED /\
    ConnectionHandler._device ch' = ConnectionHandler.Port dev /\
    (ConnectionHandler._first_serial_num ch = Some "" ->
       ConnectionHandler._first_serial_num ch' = serial_number dev /\
       ConnectionHandler._wanted_state ch' = REGISTERED) /\
    (ConnectionHandler._first_serial_num ch <> Some "" ->
     ConnectionHandler._first_serial_num ch = serial_number dev ->
       ConnectionHandler._first_serial_num ch' = serial_number dev /\
       ConnectionHandler._wanted_state ch' = REGISTERED) /\
    (ConnectionHandler._first_serial_num ch <> Some "" ->
     ConnectionHandler._first_serial_num ch <> serial_number dev ->
       ConnectionHandler._first_serial_num ch' = ConnectionHandler._first_serial_num ch /\
       ConnectionHandler._wanted_state ch' = CONNECTED) /\
    (ConnectionHandler._wanted_state ch' = REGISTERED ->
     forall comports',
       ConnectionHandler._current_state
         (final (run (ConnectionHandler._update_state lib comports') ch')) = REGISTERED).
Proof.
  intros Hstate Hadded.
  change (ConnectionHandler._wanted_state ch = NOT_CONNECTED) in Hstate.
  assert (Hnext : forall ch1,
      ConnectionHandler._wanted_state ch1 = REGISTERED ->
      forall comports',
        ConnectionHandler._current_state
          (final (run (ConnectionHandler._update_state lib comports') ch1)) = REGISTERED).
  { intros ch1 Hw comports'. now rewrite update_state_adopts_wanted. }
  unfold run. rewrite update_state_run. unfold Tick.branch.
  rewrite Hstate, Hadded, not_connected_step_run.
  eexists. split; [reflexivity|].
  replace (ConnectionHandler._first_serial_num (Tick.scanned comports ch))
    with (ConnectionHandler._first_serial_num ch) by reflexivity.
  split; [|split; [|split; [|split; [|split]]]];
    [..|intros Hw comports'; apply Hnext; exact Hw];
    destruct ch as [rn dv dvs old first cur prv wnt ser];
    cbn in Hstate |- *; subst wnt;
    repeat case_bool_decide; cbn; try reflexivity;
    intros; first [congruence | split; congruence].
Qed.

Lemma not_connected_adopts_first_added_witness :
  exists ch',
    run (ConnectionHandler._update_state upto_3_4
           [Scenario.mouse; Scenario.pacemaker_1])
        Scenario.unplugged_handler = Done tt ch' [] /\
    ConnectionHandler._device ch' = ConnectionHandler.Port Scenario.pacemaker_1 /\
    ConnectionHandler._wanted_state ch' = REGISTERED /\
    forall comports',
      ConnectionHandler._current_state
        (final (run (ConnectionHandler._update_state upto_3_4 comports') ch')) =
      REGISTERED.
Proof.
  destruct (not_connected_adopts_first_added upto_3_4
              [Scenario.mouse; Scenario.pacemaker_1] Scenario.unplugged_handler
              Scenario.pacemaker_1 [])
    as (ch' & Hrun & _ & Hdev & _ & Hsame & _ & Hnext);
    [reflexivity|reflexivity|].
  destruct Hsame as [_ Hwanted]; [discriminate|reflexivity|].
  exists ch'. auto.
Defined.

(** C5.  Take a tick that runs in state REGISTERED with [dev] as the active
    device (a port is open only in that state, so it is closed when the
    state is just entered).  If [dev] is still listed, and no other device
    of the previous scan has its serial number, [dev] stays the active
    device and the state stays REGISTERED, whatever else the scan shows: a
    second pacemaker that appears is not looked at.  If [dev], seen by the
    previous scan, is not listed any more, the tick asks for NOT_CONNECTED
    and emits the NOT_CONNECTED signal with the serial number of a removed
    device.  What follows depends on [ListPortInfo()].  With a pySerial up
    to 3.4 the tick replaces the active device by the empty descriptor,
    unbinds and closes the port of the transport and returns, and the next
    tick is in state NOT_CONNECTED.  With a pySerial from 3.5 on the
    constructor raises [TypeError]: the tick ends there, [dev] is still the
    active device, and the port of the transport is as it was (bound to
    [dev] when the state was just entered): it is not unbound. *)
Theorem registered_device_held_until_unplugged
    (lib : pyserial) (comports : list ListPortInfo) (ch : ConnectionHandler.t)
    (dev : ListPortInfo) :
  ConnectionHandler._current_state (Tick.scanned comports ch) = REGISTERED ->
  ConnectionHandler._device ch = ConnectionHandler.Port dev ->
  (ConnectionHandler._prev_state ch <> REGISTERED ->
   Serial.is_open (_SerialHandler._conn (ConnectionHandler.serial ch)) = false) ->
  (port_in dev (ConnectionHandler._filter_devices comports) = true ->
   (forall d, In d (ConnectionHandler._old_devices ch) ->
      serial_number d = serial_number dev -> device d = device dev) ->
   exists ch' log,
     run (ConnectionHandler._update_state lib comports) ch = Done tt ch' log /\
     ConnectionHandler._device ch' = ConnectionHandler.Port dev /\
     ConnectionHandler._current_state ch' = REGISTERED /\
     ConnectionHandler._wanted_state ch' = REGISTERED /\
     (log = [] \/ log = [connect_status_change REGISTERED (serial_number dev)])) /\
  (In dev (ConnectionHandler._old_devices ch) ->
   port_in dev (ConnectionHandler._filter_devices comports) = false ->
   exists ch' log gone,
     In gone (Tick.removed comports ch) /\
     (log = [] \/ log = [connect_status_change REGISTERED (serial_number dev)]) /\
     ConnectionHandler._wanted_state ch' = NOT_CONNECTED /\
     match lib with
     | upto_3_4 =>
         run (ConnectionHandler._update_state lib comports) ch =
           Done tt ch'
             (log ++ [connect_status_change NOT_CONNECTED (serial_number gone)]) /\
         ConnectionHandler._device ch' = ConnectionHandler.Port no_port /\
         Serial.port (_SerialHandler._conn (ConnectionHandler.serial ch')) = None /\
         Serial.is_open (_SerialHandler._conn (ConnectionHandler.serial ch')) =
           false /\
         forall comports',
           ConnectionHandler._current_state
             (final (run (ConnectionHandler._update_state lib comports') ch')) =
           NOT_CONNECTED
     | from_3_5 =>
         run (ConnectionHandler._update_state lib comports) ch =
           Raised TypeError ch'
             (log ++ [connect_status_change NOT_CONNECTED (serial_number gone)]) /\
         ConnectionHandler._device ch' = ConnectionHandler.Port dev /\
         ConnectionHandler._current_state ch' = REGISTERED /\
         (ConnectionHandler._prev_state ch = REGISTERED ->
          ConnectionHandler.serial ch' = ConnectionHandler.serial ch) /\
         (ConnectionHandler._prev_state ch <> REGISTERED ->
          ConnectionHandler.serial ch' =
            Wire.bound (device dev) (ConnectionHandler.serial ch))
     end).
Proof.
  intros Hstate Hdev Hclosed.
  change (ConnectionHandler._wanted_state ch = REGISTERED) in Hstate.
  unfold run. rewrite update_state_run. unfold Tick.branch. rewrite Hstate.
  set (s := Tick.scanned comports ch).
  assert (Hsdev : ConnectionHandler._device s = ConnectionHandler.Port dev)
    by exact Hdev.
  assert (Hscur : ConnectionHandler._current_state s = REGISTERED)
    by exact Hstate.
  assert (Hstep : exists s1 log,
     ConnectionHandler._device s1 = ConnectionHandler.Port dev /\
     ConnectionHandler._current_state s1 = REGISTERED /\
     ConnectionHandler._wanted_state s1 = REGISTERED /\
     (log = [] \/ log = [connect_status_change REGISTERED (serial_number dev)]) /\
     (ConnectionHandler._prev_state ch = REGISTERED ->
      ConnectionHandler.serial s1 = ConnectionHandler.serial ch) /\
     (ConnectionHandler._prev_state ch <> REGISTERED ->
      ConnectionHandler.serial s1 =
        Wire.bound (device dev) (ConnectionHandler.serial ch)) /\
     ConnectionHandler.registered_step lib (Tick.removed comports ch) s [] =
     ConnectionHandler._handle_removed_device lib (Tick.removed comports ch) s1 log).
  { destruct (decide (ConnectionHandler._prev_state ch = REGISTERED)) as [Hprev|Hprev].
    - exists s, []. split; [assumption|]. split; [assumption|].
      split; [assumption|]. split; [now left|].
      split; [reflexivity|]. split; [contradiction|].
      now apply (registered_step_steady dev).
    - exists (ConnectionHandler.set_serial
                (Wire.bound (device dev) (ConnectionHandler.serial s)) s),
             ([] ++ [connect_status_change REGISTERED (serial_number dev)]).
      split; [assumption|]. split; [assumption|].
      split; [assumption|]. split; [now right|].
      split; [contradiction|]. split; [reflexivity|].
      apply (registered_step_entering dev); [assumption..|now apply Hclosed]. }
  destruct Hstep as (s1 & log & Hdev1 & Hcur1 & Hwant1 & Hlog & Hsteady & Hentered & ->).
  split.
  - intros Hpresent Hident.
    rewrite (handle_removed_kept dev) by
      (try assumption; now apply carries_serial_present).
    exists (Tick.settled s1), log. repeat split; assumption.
  - intros Hseen Habsent.
    destruct (handle_removed_dropped (lib:=lib) dev (Tick.removed comports ch)
                s1 log Hdev1)
      as (gone & rest & Hrem & ->); [now apply carries_serial_absent|].
    destruct lib.
    + exists (Tick.settled (Tick.dropped s1)), log, gone.
      split; [rewrite Hrem; now left|]. split; [assumption|].
      split; [reflexivity|]. do 4 (split; [reflexivity|]).
      intros comports'.
      exact (update_state_adopts_wanted comports'
               (Tick.settled (Tick.dropped s1))).
    + exists (Tick.alarmed s1), log, gone.
      split; [rewrite Hrem; now left|]. split; [assumption|].
      split; [reflexivity|]. split; [reflexivity|].
      split; [exact Hdev1|]. split; [exact Hcur1|].
      split; [exact Hsteady|exact Hentered].
Qed.

Lemma registered_device_held_until_unplugged_witness :
  (exists ch' log,
     run (ConnectionHandler._update_state from_3_5
            [Scenario.mouse; Scenario.pacemaker_2; Scenario.pacemaker_1])
         Scenario.registered_handler = Done tt ch' log /\
     ConnectionHandler._device ch' = ConnectionHandler.Port Scenario.pacemaker_1) /\
  (exists ch' log gone,
     run (ConnectionHandler._update_state upto_3_4
            [Scenario.mouse; Scenario.pacemaker_2])
         Scenario.registered_handler =
       Done tt ch'
         (log ++ [connect_status_change NOT_CONNECTED (serial_number gone)]) /\
     ConnectionHandler._wanted_state ch' = NOT_CONNECTED /\
     ConnectionHandler._device ch' = ConnectionHandler.Port no_port /\
     Serial.port (_SerialHandler._conn (ConnectionHandler.serial ch')) = None) /\
  (exists ch' log gone,
     run (ConnectionHandler._update_state from_3_5
            [Scenario.mouse; Scenario.pacemaker_2])
         Scenario.registered_handler =
       Raised TypeError ch'
         (log ++ [connect_status_change NOT_CONNECTED (serial_number gone)]) /\
     ConnectionHandler._wanted_state ch' = NOT_CONNECTED /\
     ConnectionHandler._device ch' = ConnectionHandler.Port Scenario.pacemaker_1 /\
     ConnectionHandler.serial ch' =
       ConnectionHandler.serial Scenario.registered_handler).
Proof.
  split; [|split].
  - destruct (registered_device_held_until_unplugged from_3_5
                [Scenario.mouse; Scenario.pacemaker_2; Scenario.pacemaker_1]
                Scenario.registered_handler Scenario.pacemaker_1)
      as [Hheld _]; [reflexivity|reflexivity|reflexivity|].
    destruct Hheld as (ch' & log & Hrun & Hdev & _); [reflexivity| |].
    + intros d [<-|[]] _. reflexivity.
    + now exists ch', log.
  - destruct (registered_device_held_until_unplugged upto_3_4
                [Scenario.mouse; Scenario.pacemaker_2]
                Scenario.registered_handler Scenario.pacemaker_1)
      as [_ Hgone]; [reflexivity|reflexivity|reflexivity|].
    destruct Hgone as (ch' & log & gone & _ & _ & Hw & Hrun & Hdev & Hport & _);
      [now left|reflexivity|].
    now exists ch', log, gone.
  - destruct (registered_device_held_until_unplugged from_3_5
                [Scenario.mouse; Scenario.pacemaker_2]
                Scenario.registered_handler Scenario.pacemaker_1)
      as [_ Hgone]; [reflexivity|reflexivity|reflexivity|].
    destruct Hgone as (ch' & log & gone & _ & _ & Hw & Hrun & Hdev & _ & Hsame & _);
      [now left|reflexivity|].
    exists ch', log, gone. repeat split; try assumption. now apply Hsame.
Defined.

(** ** Registration on request *)

Section Registration.
Import ConnectionHandler Wire Tick.
Context {lib : pyserial}.

(** Ticks that find no pacemaker leave a handler that never had one as it
    was: not connected, [_device] still bound to a list. *)
Lemma idle_tick comports ch ports :
  _filter_devices comports = [] ->
  _wanted_state ch = NOT_CONNECTED ->
  _device ch = PortList ports ->
  let ch' := final (run (_update_state lib comports) ch) in
  _wanted_state ch' = NOT_CONNECTED /\
  _current_state ch' = NOT_CONNECTED /\
  _device ch' = PortList ports.
Proof.
  intros Hnone Hw Hdev. unfold run. rewrite update_state_run.
  unfold branch, added. rewrite Hw, Hnone. cbn.
  repeat split; assumption.
Qed.

Lemma idle_ticks scans : forall ch ports,
  Forall (fun comports => _filter_devices comports = []) scans ->
  _wanted_state ch = NOT_CONNECTED ->
  _current_state ch = NOT_CONNECTED ->
  _device ch = PortList ports ->
  _current_state (ticks lib scans ch) = NOT_CONNECTED /\
  _device (ticks lib scans ch) = PortList ports.
Proof.
  induction scans as [|comports scans IH]; intros ch ports Hall Hw Hc Hdev.
  - now split.
  - inversion Hall as [|? ? Hnone Hall']; subst.
    destruct (idle_tick comports ch ports Hnone Hw Hdev) as (Hw' & Hc' & Hdev').
    now apply IH.
Qed.

End Registration.

(** C7, where the code departs from it.  As long as no pacemaker was ever
    attached, [_device] is the list that [__init__] bound it to, and a list
    has no [serial_number]: [register_device] raises [AttributeError] and
    shows no notice at all, where "Please plug in a pacemaker!" is due. *)
Theorem register_device_without_device_raises
    (lib : pyserial) (comports : list ListPortInfo) (h : _SerialHandler.t)
    (scans : list (list ListPortInfo)) :
  Forall (fun scan => ConnectionHandler._filter_devices scan = []) scans ->
  run ConnectionHandler.register_device
      (Tick.ticks lib scans (ConnectionHandler.init comports h)) =
  Raised AttributeError (Tick.ticks lib scans (ConnectionHandler.init comports h)) [].
Proof.
  intros Hall.
  destruct (idle_ticks (lib:=lib) scans (ConnectionHandler.init comports h)
              comports Hall)
    as [Hc Hdev]; try reflexivity.
  rewrite register_device_run, Hc, Hdev. reflexivity.
Qed.

Lemma register_device_without_device_raises_witness :
  run ConnectionHandler.register_device Scenario.fresh_handler =
    Raised AttributeError Scenario.fresh_handler [] /\
  run ConnectionHandler.register_device
      (Tick.ticks from_3_5 [[Scenario.mouse]; []] Scenario.fresh_handler) =
    Raised AttributeError
      (Tick.ticks from_3_5 [[Scenario.mouse]; []] Scenario.fresh_handler) [].
Proof.
  split.
  - apply (register_device_without_device_raises from_3_5 []
             (_SerialHandler.init [] false) []).
    constructor.
  - apply (register_device_without_device_raises from_3_5 []
             (_SerialHandler.init [] false) [[Scenario.mouse]; []]).
    repeat constructor.
Defined.

(** The rest of C7 holds once a device was adopted: in state CONNECTED the
    call asks for REGISTERED; otherwise a device with a serial number gets
    the notice that it is registered already; otherwise some pacemaker in
    the last scan gets the notice to replug, and none the notice to plug
    one in. *)
Lemma register_device_with_device (ch : ConnectionHandler.t) (dev : ListPortInfo) :
  ConnectionHandler._device ch = ConnectionHandler.Port dev ->
  run ConnectionHandler.register_device ch =
  if bool_decide (ConnectionHandler._current_state ch = CONNECTED)
  then Done tt (ConnectionHandler.set_wanted_state REGISTERED ch) []
  else if truthy (serial_number dev)
  then Done tt ch [show_alert "Already registered this pacemaker!"]
  else if (0 <? length (ConnectionHandler._devices ch))%nat
  then Done tt ch [show_alert
         "Please unplug and replug the pacemaker you want to connect to!"]
  else Done tt ch [show_alert "Please plug in a pacemaker!"].
Proof.
  intros Hdev. rewrite register_device_run, Hdev. reflexivity.
Qed.

(** * Further properties of the transport *)

Section TransportFacts.
Import Struct _SerialHandler Wire Loop.
Variable bo : byteorder.

(** Whatever [_readline] does, it only changes the buffer and the reads to
    come, and it logs nothing. *)
Lemma readline_loop_final wire : forall st log,
  exists b w,
    final (_readline_loop wire st log) = with_input b w st /\
    logged (_readline_loop wire st log) = log.
Proof.
  induction wire as [|data wire IH]; intros st log; simpl.
  - destruct (negb _); [exists (_buf st), []; now destruct st as [? ? [] ? ? ?]|].
    destruct (Serial.fault _); [exists (_buf st), []; now destruct st as [? ? [] ? ? ?]|].
    destruct (_ <=? _)%nat; eexists _, []; split; try reflexivity;
      try now destruct st as [? ? [] ? ? ?].
  - destruct (negb _);
      [exists (_buf st), (data :: wire); now destruct st as [? ? [] ? ? ?]|].
    destruct (Serial.fault _);
      [exists (_buf st), (data :: wire); now destruct st as [? ? [] ? ? ?]|].
    destruct (_ <=? _)%nat.
    + eexists _, wire; split; try reflexivity;
        try now destruct st as [? ? [] ? ? ?].
    + destruct (IH (set_buf (_buf st ++ data) st) log) as (b & w & Hf & Hl).
      exists b, w. split; [|assumption]. rewrite Hf.
      now destruct st as [? ? [] ? ? ?].
Qed.

Lemma readline_final st log :
  exists b w,
    final (_readline st log) = with_input b w st /\
    logged (_readline st log) = log.
Proof.
  unfold _readline. destruct (_ <=? _)%nat.
  - eexists _, (Serial.rx (_conn st)). split; [|reflexivity].
    now destruct st as [? ? [] ? ? ?].
  - apply readline_loop_final.
Qed.

(** The dispatch leaves the transport alone and adds at most one effect,
    the same whatever was logged before. *)
Lemma dispatch_outcome line st :
  exists evs,
    (length evs <= 1)%nat /\
    ((forall log, dispatch bo line st log = Done tt st (log ++ evs)) \/
     exists e, forall log, dispatch bo line st log = Raised e st (log ++ evs)).
Proof.
  assert (Hraise : forall e,
    exists evs, (length evs <= 1)%nat /\
      ((forall log, @raise t unit e st log = Done tt st (log ++ evs)) \/
       exists e', forall log, @raise t unit e st log = Raised e' st (log ++ evs))).
  { intros e. exists []. split; [simpl; lia|]. right. exists e. intros log.
    unfold raise. now rewrite app_nil_r. }
  unfold dispatch. destruct line as [[|c payload]|]; try apply Hraise.
  destruct (decide (c = x00)).
  - unfold bind, lift_result.
    destruct (unpack_from bo _ECG_DATA_STR payload 0) as [a|e1]; [|apply Hraise].
    unfold ret at 1.
    destruct (unpack_from bo _ECG_DATA_STR payload _ECG_DATA) as [v|e2];
      [|apply Hraise].
    eexists [_]. split; [simpl; lia|]. left. reflexivity.
  - destruct (decide (c = x01)).
    + unfold _verify_params, bind, gets, emit.
      destruct (decide _); eexists [_]; (split; [simpl; lia|]); left; reflexivity.
    + exists []. split; [simpl; lia|]. left. intros log. unfold ret.
      now rewrite app_nil_r.
Qed.

Lemma dispatch_logged line st log :
  final (dispatch bo line st log) = st /\
  logged (dispatch bo line st log) = log ++ logged (run (dispatch bo line) st) /\
  (length (logged (run (dispatch bo line) st)) <= 1)%nat /\
  (forall s l, dispatch bo line st log <> Hang s l).
Proof.
  unfold run.
  destruct (dispatch_outcome line st) as (evs & Hlen & [H|[e H]]);
    rewrite (H log), (H []); simpl; repeat split; try assumption; discriminate.
Qed.

End TransportFacts.

Section TurnFacts.
Import Struct _SerialHandler Wire Loop.
Variable bo : byteorder.

Lemma send_request_outcome st log :
  send_request bo st log =
  if Serial.is_open (_conn st) && negb (Serial.fault (_conn st))
  then Done tt (requested bo st) log
  else Raised SerialException (set_send_params false st) log.
Proof.
  unfold send_request, requested, conn_write, bind, gets, modify, lift_result.
  destruct st as [run0 buf0 [op po rx0 tx0 fa] n sd sp]; simpl.
  destruct sp, op, fa; reflexivity.
Qed.

(** One turn, case by case. *)
Lemma run_iteration_closed st log :
  Serial.is_open (_conn st) = false ->
  run_iteration bo st log =
  match Serial.port (_conn st) with
  | Some (String _ _) =>
      if Serial.fault (_conn st) then Done tt st log
      else Done tt (set_conn (Serial.set_is_open true (_conn st)) st) log
  | _ => Done tt st log
  end.
Proof.
  intros Hclosed.
  destruct st as [run0 buf0 [op po rx0 tx0 fa] n sd sp]; simpl in *; subst op.
  unfold run_iteration, _try_to_open_port, bind, gets, modify, ret, Serial.open; simpl.
  destruct po as [[|a p]|]; try reflexivity.
  simpl. now destruct fa.
Qed.

Lemma run_iteration_fault st log :
  Serial.is_open (_conn st) = true ->
  Serial.fault (_conn st) = true ->
  run_iteration bo st log = Done tt (set_send_params false st) log.
Proof.
  intros Hopen Hfault.
  unfold run_iteration, bind at 1, gets, try_except. cbv beta.
  rewrite Hopen. unfold exchange, bind at 1.
  rewrite send_request_outcome, Hopen, Hfault. reflexivity.
Qed.

Lemma run_iteration_exchange st log :
  Serial.is_open (_conn st) = true ->
  Serial.fault (_conn st) = false ->
  run_iteration bo st log =
  match _readline (requested bo st) log with
  | Done line st' log' =>
      Done tt st' (log' ++ logged (run (dispatch bo line) st'))
  | Raised _ st' log' => Done tt st' log'
  | Hang st' log' => Hang st' log'
  end.
Proof.
  intros Hopen Hfault.
  unfold run_iteration, bind at 1, gets, try_except. cbv beta.
  rewrite Hopen. unfold exchange, bind at 1.
  rewrite send_request_outcome, Hopen, Hfault. simpl andb. cbv iota.
  unfold bind. destruct (_readline (requested bo st) log) as [line st' log'| |];
    try reflexivity.
  unfold run.
  destruct (dispatch_outcome bo line st') as (evs & _ & [H|[e H]]);
    rewrite (H log'), (H []); reflexivity.
Qed.

End TurnFacts.

Section Conservation.
Import Struct _SerialHandler Wire Loop.

(** Whatever way the loop ends, what is buffered and still to be read stays
    the same sequence of bytes, short of the line returned. *)
Lemma readline_loop_conserves wire : forall st log,
  match _readline_loop wire st log with
  | Done (Some r) st' _ =>
      length r = _num_bytes_to_read st /\ r ++ unread st' = _buf st ++ concat wire
  | Done None st' _ =>
      _running st && Serial.is_open (_conn st) = false /\
      st' = set_conn (Serial.set_rx wire (_conn st)) st
  | Raised _ st' _ => unread st' = _buf st ++ concat wire
  | Hang st' _ =>
      unread st' = _buf st ++ concat wire /\
      (length (_buf st ++ concat wire) < _num_bytes_to_read st)%nat
  end.
Proof.
  induction wire as [|data wire IH]; intros st log; simpl.
  - destruct (_running st && Serial.is_open (_conn st)) eqn:Hgo; simpl; [|auto].
    destruct (Serial.fault (_conn st)); [reflexivity|].
    destruct (Nat.leb_spec (_num_bytes_to_read st) (length (_buf st))) as [Hle|Hlt].
    + unfold unread; simpl. rewrite length_take_le by lia.
      now rewrite !app_nil_r, take_drop.
    + unfold unread; simpl. now rewrite !app_nil_r.
  - destruct (_running st && Serial.is_open (_conn st)) eqn:Hgo; simpl; [|auto].
    destruct (Serial.fault (_conn st)) eqn:Hfault; [reflexivity|].
    destruct (Nat.leb_spec (_num_bytes_to_read st) (length (_buf st))) as [Hle|Hlt].
    + unfold unread; simpl. rewrite length_take_le by lia.
      now rewrite !app_assoc, take_drop.
    + specialize (IH (set_buf (_buf st ++ data) st) log). simpl in IH.
      rewrite <- !app_assoc in IH.
      destruct (_readline_loop wire (set_buf (_buf st ++ data) st) log)
        as [[r|] st' log'|e st' log'|st' log']; try assumption.
      destruct IH as [Hstop _]. congruence.
Qed.

End Conservation.

(** X1.  [_readline] never loses or reorders a byte, however it ends.  A
    line it returns is exactly one frame long and is the head of what was
    buffered and still to be read; it returns no line only on a transport
    that is stopped or whose port is closed, and then touches nothing; when
    it raises or waits for ever, everything unread is still there, and it
    waits only if less than a frame is left.  It logs nothing and changes
    nothing but the buffer and the reads to come. *)
Theorem readline_conserves_input (st : _SerialHandler.t) (log : list effect) :
  (match _SerialHandler._readline st log with
   | Done (Some r) st' _ =>
       length r = _SerialHandler._num_bytes_to_read st /\
       r ++ Wire.unread st' = Wire.unread st
   | Done None st' _ =>
       _SerialHandler._running st &&
         Serial.is_open (_SerialHandler._conn st) = false /\
       st' = st
   | Raised _ st' _ => Wire.unread st' = Wire.unread st
   | Hang st' _ =>
       Wire.unread st' = Wire.unread st /\
       (length (Wire.unread st) < _SerialHandler._num_bytes_to_read st)%nat
   end) /\
  (exists b w,
     final (_SerialHandler._readline st log) = Wire.with_input b w st) /\
  Loop.logged (_SerialHandler._readline st log) = log.
Proof.
  split.
  - unfold _SerialHandler._readline.
    destruct (Nat.leb_spec (_SerialHandler._num_bytes_to_read st)
                (length (_SerialHandler._buf st))) as [Hle|Hlt].
    + unfold Wire.unread; simpl. rewrite length_take_le by lia.
      now rewrite app_assoc, take_drop.
    + pose proof (readline_loop_conserves
                    (Serial.rx (_SerialHandler._conn st)) st log) as H.
      destruct (_SerialHandler._readline_loop _ st log)
        as [[r|] st' log'|e st' log'|st' log']; try exact H.
      destruct H as [Hstop ->]. split; [exact Hstop|].
      now destruct st as [? ? [] ? ? ?].
  - destruct (readline_final st log) as (b & w & Hfin & Hlog). eauto.
Qed.

Section TurnOutcome.
Import Struct _SerialHandler Wire Loop.
Variable bo : byteorder.

(** A turn returns or waits for ever, logs at most one effect, and ends in
    one of four states. *)
Lemma run_iteration_outcome st log :
  exists st' evs,
    (length evs <= 1)%nat /\
    (run_iteration bo st log = Done tt st' (log ++ evs) \/
     run_iteration bo st log = Hang st' (log ++ evs)) /\
    (st' = st \/
     st' = set_conn (Serial.set_is_open true (_conn st)) st \/
     st' = set_send_params false st \/
     exists b w, st' = with_input b w (requested bo st)).
Proof.
  destruct (Serial.is_open (_conn st)) eqn:Hopen.
  - destruct (Serial.fault (_conn st)) eqn:Hfault.
    + exists (set_send_params false st), []. rewrite app_nil_r.
      rewrite run_iteration_fault by assumption. simpl. auto 6.
    + rewrite run_iteration_exchange by assumption.
      destruct (readline_final (requested bo st) log) as (b & w & Hfin & Hlog).
      destruct (_readline (requested bo st) log) as [line st' log'|e st' log'|st' log'];
        simpl in Hfin, Hlog; subst st' log'.
      * destruct (dispatch_logged bo line (with_input b w (requested bo st)) [])
          as (_ & _ & Hone & _).
        exists (with_input b w (requested bo st)),
          (logged (run (dispatch bo line) (with_input b w (requested bo st)))).
        split; [exact Hone|]. split; [now left|]. do 3 right. now exists b, w.
      * exists (with_input b w (requested bo st)), []. rewrite app_nil_r. simpl.
        split; [lia|]. split; [now left|]. do 3 right. now exists b, w.
      * exists (with_input b w (requested bo st)), []. rewrite app_nil_r. simpl.
        split; [lia|]. split; [now right|]. do 3 right. now exists b, w.
  - rewrite run_iteration_closed by assumption.
    destruct (Serial.port (_conn st)) as [[|a p]|];
      try (exists st, []; rewrite app_nil_r; simpl; now auto).
    destruct (Serial.fault (_conn st));
      eexists _, []; rewrite app_nil_r; simpl; auto 6.
Qed.

Lemma serial_turns_unfold k st log :
  serial_turns bo (S k) st log =
  if _running st then
    match run_iteration bo st log with
    | Done _ st' log' => serial_turns bo k st' log'
    | Raised e st' log' => Raised e st' log'
    | Hang st' log' => Hang st' log'
    end
  else Done tt st log.
Proof.
  simpl. unfold bind at 1, gets. cbv beta.
  destruct (_running st); [|reflexivity]. reflexivity.
Qed.

End TurnOutcome.

(** X2.  The loop of [_SerialHandler.run] never ends in an exception,
    whatever the device sends and whatever state the transport is in: after
    any number of turns it has returned or is waiting for bytes, and it has
    emitted at most one signal per turn. *)
Theorem serial_turns_never_raise (bo : Struct.byteorder) (k : nat) :
  forall (st : _SerialHandler.t) (log : list effect),
  exists st' evs,
    (length evs <= k)%nat /\
    (Loop.serial_turns bo k st log = Done tt st' (log ++ evs) \/
     Loop.serial_turns bo k st log = Hang st' (log ++ evs)).
Proof.
  induction k as [|k IH]; intros st log.
  - exists st, []. rewrite app_nil_r. simpl. auto.
  - rewrite serial_turns_unfold.
    destruct (_SerialHandler._running st).
    + destruct (run_iteration_outcome bo st log)
        as (st1 & evs1 & Hone & [Hrun|Hrun] & _); rewrite Hrun.
      * destruct (IH st1 (log ++ evs1)) as (st2 & evs2 & Hk & Hturns).
        exists st2, (evs1 ++ evs2). rewrite length_app, app_assoc.
        split; [lia|exact Hturns].
      * exists st1, evs1. split; [lia|now right].
    + exists st, []. rewrite app_nil_r. simpl. split; [lia|now left].
Qed.

Section FrameSized.
Import Struct _SerialHandler Wire Loop Invariant.
Variable bo : byteorder.

Lemma frame_sized_same st st' :
  Serial.tx (_conn st') = Serial.tx (_conn st) ->
  _sent_data st' = _sent_data st ->
  _send_params st' = _send_params st ->
  frame_sized st -> frame_sized st'.
Proof. unfold frame_sized. now intros -> -> ->. Qed.

Lemma frame_sized_requested st : frame_sized st -> frame_sized (requested bo st).
Proof.
  unfold frame_sized, requested. rewrite params_num_bytes. intros [Htx Hsent].
  destruct (_send_params st) eqn:Hflag; simpl.
  - split; [|discriminate]. apply Forall_app. split; [exact Htx|].
    constructor; [now apply Hsent|constructor].
  - rewrite Hflag. split; [|discriminate]. apply Forall_app. split; [exact Htx|].
    constructor; [|constructor]. now rewrite request_ecg_bytes.
Qed.

Lemma frame_sized_turn st log :
  frame_sized st -> frame_sized (final (run_iteration bo st log)).
Proof.
  intros Hinv.
  destruct (run_iteration_outcome bo st log)
    as (st' & evs & _ & Hrun & Hst').
  assert (Hfin : final (run_iteration bo st log) = st')
    by (destruct Hrun as [-> | ->]; reflexivity).
  rewrite Hfin.
  destruct Hst' as [->|[->|[->|(b & w & ->)]]].
  - exact Hinv.
  - now apply (frame_sized_same st).
  - destruct Hinv as [Htx _]. split; [exact Htx|discriminate].
  - apply (frame_sized_same (requested bo st)); try reflexivity.
    now apply frame_sized_requested.
Qed.

Lemma frame_sized_perform c st :
  frame_sized st -> frame_sized (final (run (serial_perform bo c) st)).
Proof.
  intros Hinv. destruct c as [| | |params|port| |]; simpl serial_perform.
  - now apply (frame_sized_same st).
  - now apply frame_sized_turn.
  - apply (frame_sized_same st); try exact Hinv;
      destruct st as [? ? [op po ? ? fa] ? ? ?];
      unfold run, _try_to_open_port, bind, gets, Serial.open; simpl;
      destruct op, po, fa; reflexivity.
  - rewrite send_params_to_pacemaker_run.
    destruct (encode_params bo params) as [data|e] eqn:Henc; simpl; [|exact Hinv].
    destruct Hinv as [Htx _]. split; [exact Htx|].
    intros _. simpl. rewrite params_num_bytes.
    exact (encode_params_length bo params data Henc).
  - apply (frame_sized_same st); try exact Hinv;
      destruct st as [? ? [op po ? ? fa] ? ? ?];
      unfold run, start_serial_comm, conn_set_port, bind, gets, modify,
        lift_result, Serial.set_port, Serial.open; simpl;
      destruct op, port, fa; reflexivity.
  - apply (frame_sized_same st); try exact Hinv;
      destruct st as [? ? [op po ? ? fa] ? ? ?]; reflexivity.
  - apply (frame_sized_same st); try exact Hinv;
      destruct st as [? ? [op po ? ? fa] ? ? ?]; reflexivity.
Qed.

Lemma frame_sized_session calls : forall st,
  frame_sized st -> frame_sized (serial_session bo calls st).
Proof.
  induction calls as [|c calls IH]; intros st Hinv; [exact Hinv|].
  simpl. apply IH. now apply frame_sized_perform.
Qed.

End FrameSized.

(** X3.  Every write the transport ever makes is 34 bytes long: a parameter
    block or a request for ECG data, never a part of one and never anything
    else.  This holds from [__init__] on, through every run of events: the
    start of [run], turns of its loop (which open the port, write, read and
    dispatch), and calls of the other methods in between, in whatever
    order, with whatever parameter sets, and whatever the device sends. *)
Theorem every_write_is_34_bytes (bo : Struct.byteorder)
    (calls : list Loop.serial_call) (wire : list (list byte)) (faulty : bool) :
  Forall (fun w => length w = 34%nat)
    (Serial.tx (_SerialHandler._conn
       (Loop.serial_session bo calls (_SerialHandler.init wire faulty)))).
Proof.
  assert (Hinit : Invariant.frame_sized (_SerialHandler.init wire faulty))
    by (split; [constructor|discriminate]).
  destruct (frame_sized_session bo calls _ Hinit) as [Htx _].
  now rewrite params_num_bytes in Htx.
Qed.

(** A session of the kind the theorem covers: the loop starts, the port is
    bound and opened, a block is queued, and two turns write the block and
    a request while they read and handle two frames. *)
Lemma every_write_is_34_bytes_witness :
  let st :=
    Loop.serial_session Struct.LittleEndian
      [Loop.Start; Loop.StartComm (Some "COM3"); Loop.Turn;
       Loop.SendParams ParameterSet.sample; Loop.Turn; Loop.Turn]
      (_SerialHandler.init [Scenario.echo_frame ++ Scenario.ecg_frame] false) in
  Serial.tx (_SerialHandler._conn st) =
    [Scenario.sample_block; _SerialHandler._REQUEST_ECG Struct.LittleEndian] /\
  Wire.unread st = [] /\
  Forall (fun w => length w = 34%nat) (Serial.tx (_SerialHandler._conn st)).
Proof.
  split; [vm_compute; reflexivity|]. split; [vm_compute; reflexivity|].
  apply (every_write_is_34_bytes Struct.LittleEndian
           [Loop.Start; Loop.StartComm (Some "COM3"); Loop.Turn;
            Loop.SendParams ParameterSet.sample; Loop.Turn; Loop.Turn]
           [Scenario.echo_frame ++ Scenario.ecg_frame] false).
Defined.

Section Frames.
Import Struct _SerialHandler Wire Loop.
Variable bo : byteorder.

(** What a line makes the transport emit depends on the transport through
    the block last queued only. *)
Lemma frame_effects_sent_data st st' frame :
  _sent_data st' = _sent_data st ->
  frame_effects bo st' frame = frame_effects bo st frame.
Proof.
  intros Hsent. unfold frame_effects, run, dispatch.
  destruct frame as [|c payload]; [reflexivity|].
  destruct (decide (c = x00)).
  - unfold bind, lift_result.
    destruct (unpack_from bo _ECG_DATA_STR payload 0); [|reflexivity].
    simpl. destruct (unpack_from bo _ECG_DATA_STR payload _ECG_DATA); reflexivity.
  - destruct (decide (c = x01)); [|reflexivity].
    unfold _verify_params, bind, gets. rewrite Hsent.
    now destruct (decide (_sent_data st <> take _PARAMS_NUM_BYTES payload)).
Qed.

Lemma with_input_requested b w st :
  reading (with_input b w (requested bo st)) = reading st /\
  _num_bytes_to_read (with_input b w (requested bo st)) = _num_bytes_to_read st /\
  _sent_data (with_input b w (requested bo st)) = _sent_data st /\
  _send_params (with_input b w (requested bo st)) = false /\
  Serial.tx (_conn (with_input b w (requested bo st))) =
    Serial.tx (_conn st) ++
      [if _send_params st then _sent_data st else _REQUEST_ECG bo].
Proof.
  unfold requested. destruct (_send_params st) eqn:Hflag; simpl; auto.
Qed.

(** A turn on a transport that can read, when a whole frame is still to
    come: one write, the frame off the input, its effects logged. *)
Lemma turn_frame st log f rest :
  reading st = true ->
  length f = _num_bytes_to_read st ->
  unread st = f ++ rest ->
  exists b w,
    run_iteration bo st log =
      Done tt (with_input b w (requested bo st)) (log ++ frame_effects bo st f) /\
    b ++ concat w = rest.
Proof.
  intros Hrd Hlen Hun.
  destruct (reading_inv _ Hrd) as (_ & Hopen & Hfault).
  destruct (requested_input bo st) as (Hrd' & Hun' & Hn' & Hsent).
  destruct (readline_frame (requested bo st) log f rest)
    as (st' & Hline & Hrest & Hst'); [congruence..|].
  rewrite run_iteration_exchange, Hline by assumption.
  exists (_buf st'), (Serial.rx (_conn st')). rewrite <- Hst'.
  split; [|exact Hrest].
  change (logged (run (dispatch bo (Some f)) st')) with (frame_effects bo st' f).
  rewrite (frame_effects_sent_data st st'); [reflexivity|].
  rewrite Hst'. apply with_input_requested.
Qed.

(** As many turns as frames are still to come. *)
Lemma turns_frames frames : forall st log rest,
  reading st = true ->
  Forall (fun f => length f = _num_bytes_to_read st) frames ->
  unread st = concat frames ++ rest ->
  exists st',
    serial_turns bo (length frames) st log =
      Done tt st' (log ++ flat_map (frame_effects bo st) frames) /\
    unread st' = rest /\
    reading st' = true /\
    _sent_data st' = _sent_data st /\
    _num_bytes_to_read st' = _num_bytes_to_read st /\
    length (Serial.tx (_conn st')) =
      (length (Serial.tx (_conn st)) + length frames)%nat /\
    (frames <> [] -> _send_params st' = false).
Proof.
  induction frames as [|f frames IH]; intros st log rest Hrd Hall Hun.
  - exists st. simpl. rewrite app_nil_r. repeat split; auto. now intros [].
  - apply Forall_cons in Hall as [Hlen Hall].
    simpl concat in Hun. rewrite <- app_assoc in Hun.
    destruct (turn_frame st log f _ Hrd Hlen Hun) as (b & w & Hturn & Hrest).
    destruct (with_input_requested b w st) as (Hrd1 & Hn1 & Hsent1 & Hflag1 & Htx1).
    simpl length. rewrite serial_turns_unfold.
    destruct (reading_inv _ Hrd) as (-> & _ & _). rewrite Hturn.
    destruct (IH (with_input b w (requested bo st)) (log ++ frame_effects bo st f) rest)
      as (st' & Hturns & Hun' & Hrd' & Hsent' & Hn' & Htx' & Hflag');
      [congruence| now rewrite Hn1 | exact Hrest |].
    exists st'. rewrite Hturns. simpl flat_map. rewrite <- app_assoc.
    rewrite (flat_map_ext (frame_effects bo (with_input b w (requested bo st)))
               (frame_effects bo st))
      by (intros x; now apply frame_effects_sent_data).
    repeat split; try congruence.
    + rewrite Htx', Htx1, length_app. simpl. lia.
    + intros _. destruct frames as [|f' frames']; [|now apply Hflag'].
      simpl in Hturns. injection Hturns as <- _. exact Hflag1.
Qed.

End Frames.

(** X4.  The loop of [run] keeps pace with the device: while the transport
    can read and [frames] whole frames are still to come, however the reads
    cut them, that many turns handle the frames one by one and in order,
    emitting for each what its control byte asks for, write once per frame,
    and leave unread exactly what followed the frames. *)
Theorem turns_handle_frames_in_order (bo : Struct.byteorder)
    (frames : list (list byte)) (rest : list byte) (st : _SerialHandler.t)
    (Hreading : Wire.reading st = true)
    (Hframes : Forall (fun f => length f = _SerialHandler._num_bytes_to_read st)
                      frames)
    (Hunread : Wire.unread st = concat frames ++ rest) :
  exists st',
    run (Loop.serial_turns bo (length frames)) st =
      Done tt st' (flat_map (Loop.frame_effects bo st) frames) /\
    Wire.unread st' = rest /\
    length (Serial.tx (_SerialHandler._conn st')) =
      (length (Serial.tx (_SerialHandler._conn st)) + length frames)%nat.
Proof.
  destruct (turns_frames bo frames st [] rest Hreading Hframes Hunread)
    as (st' & Hturns & Hun & _ & _ & _ & Htx & _).
  exists st'. auto.
Qed.

Lemma turns_handle_frames_in_order_witness :
  exists st',
    run (Loop.serial_turns Struct.LittleEndian 3)
        (Scenario.transport
           (Scenario.cut 100 7
              (Scenario.ecg_frame ++ Scenario.echo_frame ++ Scenario.other_frame))) =
      Done tt st'
        (flat_map
           (Loop.frame_effects Struct.LittleEndian
              (Scenario.transport
                 (Scenario.cut 100 7
                    (Scenario.ecg_frame ++ Scenario.echo_frame ++
                     Scenario.other_frame))))
           [Scenario.ecg_frame; Scenario.echo_frame; Scenario.other_frame]) /\
    Wire.unread st' = [] /\
    length (Serial.tx (_SerialHandler._conn st')) = 3%nat.
Proof.
  apply (turns_handle_frames_in_order Struct.LittleEndian
           [Scenario.ecg_frame; Scenario.echo_frame; Scenario.other_frame] []
           (Scenario.transport
              (Scenario.cut 100 7
                 (Scenario.ecg_frame ++ Scenario.echo_frame ++ Scenario.other_frame)))).
  - reflexivity.
  - repeat constructor.
  - vm_compute. reflexivity.
Defined.

Section Queue.
Import Struct _SerialHandler Wire Loop ParameterSet.
Variable bo : byteorder.

Lemma enqueue_then {A} (k : M t A) params data st :
  encode_params bo params = Ok data ->
  run (send_params_to_pacemaker bo params ;; k)%exec st =
  run k (set_send_params true (set_sent_data data st)).
Proof.
  intros Henc. unfold run, bind.
  pose proof (send_params_to_pacemaker_run bo params st) as H.
  unfold run in H. now rewrite H, Henc.
Qed.

Lemma turns_on_fault k : forall st log,
  _running st = true ->
  Serial.is_open (_conn st) = true ->
  Serial.fault (_conn st) = true ->
  serial_turns bo (S k) st log = Done tt (set_send_params false st) log.
Proof.
  induction k as [|k IH]; intros st log Hrun Hopen Hfault;
    rewrite serial_turns_unfold, Hrun, run_iteration_fault by assumption.
  - reflexivity.
  - now rewrite IH.
Qed.

End Queue.

(** X5.  A parameter block that is queued while the port fails is lost
    without a trace: the next turn clears the pending flag before the write
    raises, the exception is swallowed, nothing is written, no
    [params_received] is emitted, and no later turn tries again. *)
Theorem queued_block_lost_when_write_fails (bo : Struct.byteorder)
    (params : gmap string pyval) (k : nat) (st : _SerialHandler.t)
    (Hconforms : ParameterSet.conforms params = true)
    (Hrunning : _SerialHandler._running st = true)
    (Hopen : Serial.is_open (_SerialHandler._conn st) = true)
    (Hfault : Serial.fault (_SerialHandler._conn st) = true) :
  exists data,
    _SerialHandler.encode_params bo params = Ok data /\
    run (_SerialHandler.send_params_to_pacemaker bo params ;;
         Loop.serial_turns bo (S k))%exec st =
      Done tt (_SerialHandler.set_send_params false
                 (_SerialHandler.set_sent_data data st)) [].
Proof.
  destruct (conforms_encodes bo params Hconforms) as (data & Henc & _).
  exists data. split; [exact Henc|].
  rewrite (enqueue_then bo _ params data st Henc).
  unfold run. now rewrite turns_on_fault.
Qed.

Lemma queued_block_lost_when_write_fails_witness :
  exists data,
    _SerialHandler.encode_params Struct.LittleEndian ParameterSet.sample = Ok data /\
    run (_SerialHandler.send_params_to_pacemaker Struct.LittleEndian
           ParameterSet.sample ;;
         Loop.serial_turns Struct.LittleEndian 3)%exec Bench.broken_transport =
      Done tt (_SerialHandler.set_send_params false
                 (_SerialHandler.set_sent_data data Bench.broken_transport)) [].
Proof.
  apply (queued_block_lost_when_write_fails Struct.LittleEndian
           ParameterSet.sample 2 Bench.broken_transport);
    vm_compute; reflexivity.
Defined.

(** X6.  A queued parameter block is written by the next turn, once: the
    turn after that writes the request for ECG data again, and the block
    stays as the one an echo is compared with. *)
Theorem queued_block_written_once (bo : Struct.byteorder)
    (params : gmap string pyval) (f1 f2 rest : list byte)
    (st : _SerialHandler.t)
    (Hconforms : ParameterSet.conforms params = true)
    (Hreading : Wire.reading st = true)
    (Hf1 : length f1 = _SerialHandler._num_bytes_to_read st)
    (Hf2 : length f2 = _SerialHandler._num_bytes_to_read st)
    (Hunread : Wire.unread st = f1 ++ f2 ++ rest) :
  exists data st' log,
    _SerialHandler.encode_params bo params = Ok data /\
    run (_SerialHandler.send_params_to_pacemaker bo params ;;
         Loop.serial_turns bo 2)%exec st = Done tt st' log /\
    Serial.tx (_SerialHandler._conn st') =
      Serial.tx (_SerialHandler._conn st) ++ [data; _SerialHandler._REQUEST_ECG bo] /\
    _SerialHandler._send_params st' = false /\
    _SerialHandler._sent_data st' = data.
Proof.
  destruct (conforms_encodes bo params Hconforms) as (data & Henc & _).
  set (st0 := _SerialHandler.set_send_params true
                (_SerialHandler.set_sent_data data st)).
  destruct (turn_frame bo st0 [] f1 (f2 ++ rest) Hreading Hf1 Hunread)
    as (b1 & w1 & Hturn1 & Hrest1).
  destruct (with_input_requested bo b1 w1 st0) as (Hrd1 & Hn1 & Hsent1 & Hflag1 & Htx1).
  set (st1 := Wire.with_input b1 w1 (Wire.requested bo st0)) in *.
  destruct (turn_frame bo st1 (Loop.frame_effects bo st0 f1) f2 rest)
    as (b2 & w2 & Hturn2 & Hrest2);
    [rewrite Hrd1; exact Hreading|rewrite Hn1; exact Hf2|exact Hrest1|].
  destruct (with_input_requested bo b2 w2 st1) as (Hrd2 & Hn2 & Hsent2 & Hflag2 & Htx2).
  destruct (reading_inv _ Hreading) as (Hrun & _ & _).
  destruct (reading_inv st1) as (Hrun1 & _ & _);
    [rewrite Hrd1; exact Hreading|].
  eexists data, _, _. split; [exact Henc|].
  rewrite (enqueue_then bo _ params data st Henc). fold st0.
  unfold run. rewrite serial_turns_unfold.
  replace (_SerialHandler._running st0) with true by (symmetry; exact Hrun).
  simpl app in Hturn1. rewrite Hturn1. fold st1.
  rewrite serial_turns_unfold, Hrun1, Hturn2. simpl Loop.serial_turns.
  split; [reflexivity|].
  rewrite Htx2, Hflag1, Htx1, Hflag2, Hsent2, Hsent1. subst st0. simpl.
  rewrite <- app_assoc. auto.
Qed.

Lemma queued_block_written_once_witness :
  exists data st' log,
    _SerialHandler.encode_params Struct.LittleEndian ParameterSet.sample = Ok data /\
    run (_SerialHandler.send_params_to_pacemaker Struct.LittleEndian
           ParameterSet.sample ;;
         Loop.serial_turns Struct.LittleEndian 2)%exec
        (Scenario.transport [Scenario.echo_frame ++ Scenario.ecg_frame]) =
      Done tt st' log /\
    Serial.tx (_SerialHandler._conn st') =
      [] ++ [data; _SerialHandler._REQUEST_ECG Struct.LittleEndian] /\
    _SerialHandler._send_params st' = false /\
    _SerialHandler._sent_data st' = data.
Proof.
  apply (queued_block_written_once Struct.LittleEndian ParameterSet.sample
           Scenario.echo_frame Scenario.ecg_frame []
           (Scenario.transport [Scenario.echo_frame ++ Scenario.ecg_frame]));
    vm_compute; reflexivity.
Defined.

(** X7.  Round trip of a parameter block.  Once a parameter set is queued,
    the turn that writes the block and reads a frame with control byte 1
    reports success exactly when the first 34 bytes after the control byte
    are the block just written, and failure for any other echo. *)
Theorem echo_of_queued_block (bo : Struct.byteorder)
    (params : gmap string pyval) (payload rest : list byte)
    (st : _SerialHandler.t)
    (Hconforms : ParameterSet.conforms params = true)
    (Hreading : Wire.reading st = true)
    (Hframe : length (x01 :: payload) = _SerialHandler._num_bytes_to_read st)
    (Hunread : Wire.unread st = (x01 :: payload) ++ rest) :
  exists data st' ok msg,
    _SerialHandler.encode_params bo params = Ok data /\
    run (_SerialHandler.send_params_to_pacemaker bo params ;;
         _SerialHandler.run_iteration bo)%exec st =
      Done tt st' [params_received ok msg] /\
    (ok = true <-> take 34 payload = data) /\
    (ok = true -> msg = "Successfully sent parameters!") /\
    last (Serial.tx (_SerialHandler._conn st')) = Some data /\
    Wire.unread st' = rest.
Proof.
  destruct (conforms_encodes bo params Hconforms) as (data & Henc & _).
  set (st0 := _SerialHandler.set_send_params true
                (_SerialHandler.set_sent_data data st)).
  destruct (turn_frame bo st0 [] (x01 :: payload) rest Hreading Hframe Hunread)
    as (b & w & Hturn & Hrest).
  destruct (with_input_requested bo b w st0) as (_ & _ & _ & _ & Htx).
  pose proof (verify_params_run st0 payload) as Hecho.
  assert (Heff : Loop.frame_effects bo st0 (x01 :: payload) =
                 Loop.logged (run (_SerialHandler._verify_params payload) st0))
    by reflexivity.
  rewrite Hecho in Heff. simpl Loop.logged in Heff. simpl app in Hturn.
  rewrite Heff in Hturn.
  change (_SerialHandler._sent_data st0) with data in Hturn.
  exists data, (Wire.with_input b w (Wire.requested bo st0)).
  destruct (decide (data <> take 34 payload)) as [Hne|Heq].
  - eexists false, _. split; [exact Henc|].
    rewrite (enqueue_then bo _ params data st Henc). fold st0.
    split; [exact Hturn|]. split; [split; [discriminate|congruence]|].
    split; [discriminate|]. split; [|exact Hrest].
    rewrite Htx. apply last_snoc.
  - eexists true, _. split; [exact Henc|].
    rewrite (enqueue_then bo _ params data st Henc). fold st0.
    split; [exact Hturn|].
    split; [split; [intros _; symmetry; now apply dec_stable|reflexivity]|].
    split; [reflexivity|]. split; [|exact Hrest].
    rewrite Htx. apply last_snoc.
Qed.

Lemma echo_of_queued_block_witness :
  exists data st' ok msg,
    _SerialHandler.encode_params Struct.LittleEndian ParameterSet.sample = Ok data /\
    run (_SerialHandler.send_params_to_pacemaker Struct.LittleEndian
           ParameterSet.sample ;;
         _SerialHandler.run_iteration Struct.LittleEndian)%exec
        (Scenario.transport [Scenario.echo_frame]) =
      Done tt st' [params_received ok msg] /\
    (ok = true <-> take 34 Scenario.echo_payload = data) /\
    (ok = true -> msg = "Successfully sent parameters!") /\
    last (Serial.tx (_SerialHandler._conn st')) = Some data /\
    Wire.unread st' = [].
Proof.
  apply (echo_of_queued_block Struct.LittleEndian ParameterSet.sample
           Scenario.echo_payload [] (Scenario.transport [Scenario.echo_frame]));
    vm_compute; reflexivity.
Defined.

Section Unbound.
Import Struct _SerialHandler Wire Loop.
Variable bo : byteorder.

Lemma turns_unbound k : forall st log,
  Serial.is_open (_conn st) = false ->
  Serial.port (_conn st) = None ->
  serial_turns bo k st log = Done tt st log.
Proof.
  induction k as [|k IH]; intros st log Hclosed Hport; [reflexivity|].
  rewrite serial_turns_unfold, run_iteration_closed, Hport by assumption.
  destruct (_running st); [now apply IH|reflexivity].
Qed.

End Unbound.

(** X8.  A transport whose port was unbound is inert.  [stop_serial_comm]
    never raises, and after it the loop of [run] writes nothing, reads
    nothing, emits nothing and does not even try to open the port, for as
    many turns as one likes; what was queued or buffered stays. *)
Theorem unbound_transport_is_inert (bo : Struct.byteorder) (k : nat)
    (st : _SerialHandler.t) :
  run (_SerialHandler.stop_serial_comm ;; Loop.serial_turns bo k)%exec st =
  Done tt (Wire.unbound st) [].
Proof.
  unfold run, bind at 1. rewrite stop_serial_comm_run.
  now apply turns_unbound.
Qed.

(** X9.  [start_serial_comm] forgets what the buffer held.  On a running
    transport with a closed, working port, binding the port empties the
    buffer; the first turn then opens the port without writing, and the
    second handles the first frame the device sends, however many stale
    bytes the buffer held before. *)
Theorem start_serial_comm_drops_stale_bytes (bo : Struct.byteorder)
    (a : ascii) (name : string) (f rest : list byte) (st : _SerialHandler.t)
    (Hrunning : _SerialHandler._running st = true)
    (Hclosed : Serial.is_open (_SerialHandler._conn st) = false)
    (Hworking : Serial.fault (_SerialHandler._conn st) = false)
    (Hframe : length f = _SerialHandler._num_bytes_to_read st)
    (Hwire : concat (Serial.rx (_SerialHandler._conn st)) = f ++ rest) :
  exists st1 st2,
    run (_SerialHandler.start_serial_comm (Some (String a name)) ;;
         _SerialHandler.run_iteration bo)%exec st = Done tt st1 [] /\
    Serial.is_open (_SerialHandler._conn st1) = true /\
    Serial.port (_SerialHandler._conn st1) = Some (String a name) /\
    Serial.tx (_SerialHandler._conn st1) = Serial.tx (_SerialHandler._conn st) /\
    run (_SerialHandler.run_iteration bo) st1 =
      Done tt st2 (Loop.frame_effects bo st f) /\
    Wire.unread st2 = rest.
Proof.
  set (st1 := _SerialHandler.set_conn
                (Serial.set_is_open true
                   (_SerialHandler._conn (Wire.bound (Some (String a name)) st)))
                (Wire.bound (Some (String a name)) st)).
  assert (Hrd : Wire.reading st1 = true).
  { unfold Wire.reading, st1. simpl. now rewrite Hrunning, Hworking. }
  destruct (turn_frame bo st1 [] f rest Hrd Hframe) as (b & w & Hturn & Hrest).
  { unfold Wire.unread, st1. simpl. exact Hwire. }
  exists st1, (Wire.with_input b w (Wire.requested bo st1)).
  split.
  - unfold run, bind. rewrite start_serial_comm_run by assumption.
    rewrite run_iteration_closed by exact Hclosed.
    simpl Serial.port. simpl Serial.fault. now rewrite Hworking.
  - repeat split; try reflexivity.
    + unfold run. rewrite Hturn. simpl app.
      now rewrite (frame_effects_sent_data bo st st1).
    + rewrite unread_with_input. exact Hrest.
Qed.

Lemma start_serial_comm_drops_stale_bytes_witness :
  exists st1 st2,
    run (_SerialHandler.start_serial_comm (Some "COM3") ;;
         _SerialHandler.run_iteration Struct.LittleEndian)%exec
        (Bench.stale_transport [Scenario.ecg_frame]) = Done tt st1 [] /\
    Serial.is_open (_SerialHandler._conn st1) = true /\
    Serial.port (_SerialHandler._conn st1) = Some "COM3" /\
    Serial.tx (_SerialHandler._conn st1) = [] /\
    run (_SerialHandler.run_iteration Struct.LittleEndian) st1 =
      Done tt st2
        (Loop.frame_effects Struct.LittleEndian
           (Bench.stale_transport [Scenario.ecg_frame]) Scenario.ecg_frame) /\
    Wire.unread st2 = [].
Proof.
  apply (start_serial_comm_drops_stale_bytes Struct.LittleEndian
           "C"%char "OM3" Scenario.ecg_frame []
           (Bench.stale_transport [Scenario.ecg_frame]));
    vm_compute; reflexivity.
Defined.

Section Rejection.
Import Struct _SerialHandler ParameterSet.
Variable bo : byteorder.

Lemma lookup_all_raise params keys : forall e,
  lookup_all params keys = Raise e ->
  exists key, e = KeyError key /\ In key keys /\ params !! key = None.
Proof.
  induction keys as [|k keys IH]; intros e; simpl; [discriminate|].
  destruct (params !! k) as [v|] eqn:Hk.
  - destruct (lookup_all params keys) as [vs|e'] eqn:Hvs; simpl; [discriminate|].
    intros [= <-]. destruct (IH e' eq_refl) as (key & -> & Hin & Hnone).
    exists key. auto.
  - intros [= <-]. exists k. auto.
Qed.

Lemma lookup_all_missing params before key after :
  Forall (fun k => is_Some (params !! k)) before ->
  params !! key = None ->
  lookup_all params (before ++ key :: after) = Raise (KeyError key).
Proof.
  intros Hbefore Hnone.
  induction Hbefore as [|k before [v Hv] _ IH]; simpl.
  - now rewrite Hnone.
  - now rewrite Hv, IH.
Qed.

Lemma pack_value_raise c v e :
  pack_value bo c v = Raise e -> e = StructError \/ e = OverflowError.
Proof.
  destruct c; simpl; unfold pack_uint, as_double, pack_float.
  - destruct v; [destruct (_ && _)|]; intros [= <-]; auto.
  - destruct v; [destruct (_ && _)|]; intros [= <-]; auto.
  - destruct v as [z|x]; simpl.
    + destruct (IEEE.is_inf (IEEE.of_int z)); simpl; [intros [= <-]; auto|].
      destruct (_ && _); simpl; intros [= <-]; auto.
    + destruct (_ && _); intros [= <-]; auto.
  - discriminate.
Qed.

Lemma pack_codes_raise cs : forall args e,
  pack_codes bo cs args = Raise e -> e = StructError \/ e = OverflowError.
Proof.
  induction cs as [|c cs IH]; intros args e; simpl.
  - destruct args; [discriminate|]. intros [= <-]. auto.
  - assert (Hstep : forall v args',
              (b <-? pack_value bo c v;
               bs <-? pack_codes bo cs args'; Ok (b ++ bs))%result = Raise e ->
              e = StructError \/ e = OverflowError).
    { intros v args'. destruct (pack_value bo c v) as [b|e1] eqn:Hb; simpl.
      - destruct (pack_codes bo cs args') as [bs|e2] eqn:Hbs; simpl; [discriminate|].
        intros [= <-]. eapply IH, Hbs.
      - intros [= <-]. eapply pack_value_raise, Hb. }
    destruct c.
    + destruct args as [|v args']; [intros [= <-]; auto|apply Hstep].
    + destruct args as [|v args']; [intros [= <-]; auto|apply Hstep].
    + destruct args as [|v args']; [intros [= <-]; auto|apply Hstep].
    + destruct (pack_codes bo cs args) as [bs|e2] eqn:Hbs; simpl; [discriminate|].
      intros [= <-]. eapply IH, Hbs.
Qed.

Lemma encode_params_raise params e :
  encode_params bo params = Raise e ->
  e = StructError \/ e = OverflowError \/
  exists key, e = KeyError key /\ In key _PARAMS_ORDER /\ params !! key = None.
Proof.
  unfold encode_params.
  destruct (lookup_all params _PARAMS_ORDER) as [args|e1] eqn:Hargs;
    cbv beta iota delta [rbind].
  - unfold pack. rewrite parse_params_format. cbv beta iota delta [rbind].
    intros H. destruct (pack_codes_raise _ _ _ H); auto.
  - intros [= <-]. right. right. exact (lookup_all_raise params _ e1 Hargs).
Qed.

Lemma pack_value_fits c v b :
  c <> Fmtx -> pack_value bo c v = Ok b -> fits c v = true.
Proof.
  intros Hc. destruct c; simpl; unfold pack_uint.
  - destruct v as [z|x]; [|discriminate].
    change (256 ^ Z.of_nat 1) with 256. now destruct (_ && _).
  - destruct v as [z|x]; [|discriminate].
    change (256 ^ Z.of_nat 2) with 65536. now destruct (_ && _).
  - intros H%int_overflow_ok. revert H.
    destruct (as_double v) as [x|e]; simpl; [|discriminate].
    unfold pack_float. now destruct (_ && _).
  - now elim Hc.
Qed.

Lemma pack_fields_fits params (layout : list (string * code)) :
  Forall (fun kc => snd kc <> Fmtx) layout ->
  forall bs, pack_fields bo params layout = Ok bs ->
  forallb (fun '(key, c) =>
             match params !! key with
             | Some v => fits c v
             | None => false
             end) layout = true.
Proof.
  induction 1 as [|[key c] layout Hc _ IH]; intros bs; simpl; [reflexivity|].
  destruct (params !! key) as [v|]; [|discriminate].
  destruct (pack_value bo c v) as [b|e] eqn:Hb; simpl; [|discriminate].
  destruct (pack_fields bo params layout) as [bs'|e] eqn:Hbs; simpl; [|discriminate].
  intros _. rewrite (pack_value_fits c v b Hc Hb). simpl. now apply (IH bs').
Qed.

Lemma lookup_all_has_fields params (layout : list (string * code)) :
  forall args, lookup_all params (map fst layout) = Ok args ->
  Forall (fun kc : string * code => is_Some (params !! fst kc)) layout.
Proof.
  induction layout as [|[key c] layout IH]; intros args; simpl; [constructor|].
  destruct (params !! key) as [v|] eqn:Hkey; [|discriminate].
  destruct (lookup_all params (map fst layout)) as [vs|e]; simpl; [|discriminate].
  intros _. apply Forall_cons. split; [exists v; exact Hkey|now apply (IH vs)].
Qed.

Lemma encodes_conforms params data :
  encode_params bo params = Ok data -> conforms params = true.
Proof.
  intros Henc.
  assert (Hall : Forall (fun kc : string * code => is_Some (params !! fst kc))
                   declared_layout).
  { unfold encode_params in Henc. rewrite params_order_declared in Henc.
    destruct (lookup_all params (map fst declared_layout)) as [args|e] eqn:Hargs;
      [|discriminate].
    eapply lookup_all_has_fields, Hargs. }
  rewrite (encode_params_fields bo params Hall) in Henc.
  exact (pack_fields_fits params _ declared_layout_no_pad data Henc).
Qed.

End Rejection.

(** X10.  The encoder accepts exactly the parameter sets that have all 18
    fields with values in the range of their slots (one byte, two bytes,
    single precision), and says why it rejects the others: [KeyError] for a
    field that is missing, [struct.error] or [OverflowError] for a value out
    of range.  Extra keys are ignored. *)
Theorem encode_params_accepts_conforming_only (bo : Struct.byteorder)
    (params : gmap string pyval) :
  ((exists data, _SerialHandler.encode_params bo params = Ok data) <->
   ParameterSet.conforms params = true) /\
  (forall e, _SerialHandler.encode_params bo params = Raise e ->
     e = StructError \/ e = OverflowError \/
     exists key, e = KeyError key /\ In key _SerialHandler._PARAMS_ORDER /\
                 params !! key = None).
Proof.
  split; [split|].
  - intros [data Henc]. exact (encodes_conforms bo params data Henc).
  - intros Hok. destruct (conforms_encodes bo params Hok) as (data & Henc & _).
    now exists data.
  - intros e. apply encode_params_raise.
Qed.

(** X11.  [send_params_to_pacemaker] looks every field up before it packs
    any: when a field is missing it raises [KeyError] for the first missing
    one in the declared order, even if a field before it holds a value that
    could not be packed, and it leaves the block queued before, and the
    pending flag, as they were. *)
Theorem missing_field_raises_key_error (bo : Struct.byteorder)
    (params : gmap string pyval) (before after : list string) (key : string)
    (st : _SerialHandler.t)
    (Horder : _SerialHandler._PARAMS_ORDER = before ++ key :: after)
    (Hbefore : Forall (fun k => is_Some (params !! k)) before)
    (Hmissing : params !! key = None) :
  run (_SerialHandler.send_params_to_pacemaker bo params) st =
  Raised (KeyError key) st [].
Proof.
  rewrite send_params_to_pacemaker_run. unfold _SerialHandler.encode_params.
  rewrite Horder, (lookup_all_missing params before key after Hbefore Hmissing).
  reflexivity.
Qed.

Lemma missing_field_raises_key_error_witness :
  run (_SerialHandler.send_params_to_pacemaker Struct.LittleEndian
         (<["Pacing Mode" := PyInt 300]> (delete "VRP" ParameterSet.sample)))
      Scenario.transport_sent =
  Raised (KeyError "VRP") Scenario.transport_sent [].
Proof.
  apply (missing_field_raises_key_error Struct.LittleEndian
           (<["Pacing Mode" := PyInt 300]> (delete "VRP" ParameterSet.sample))
           (take 9 _SerialHandler._PARAMS_ORDER)
           (drop 10 _SerialHandler._PARAMS_ORDER) "VRP" Scenario.transport_sent).
  - reflexivity.
  - repeat constructor; vm_compute; eexists; reflexivity.
  - vm_compute. reflexivity.
Defined.

(** * Further properties of the connection state machine *)

Section TickCases.
Import ConnectionHandler Wire Tick Invariant Ending.
Context {lib : pyserial}.

Lemma connected_step_run dev rem s log :
  _device s = Port dev ->
  connected_step lib rem s log =
  _handle_removed_device lib rem s
    (if bool_decide (_prev_state s = NOT_CONNECTED)
     then log ++ [connect_status_change CONNECTED
                    (Some (fstr (serial_number dev) +:+
                           ", press New Patient to register"))]
     else log).
Proof.
  intros Hdev. unfold connected_step, bind at 1 2, gets.
  destruct (bool_decide (_prev_state s = NOT_CONNECTED)); [|reflexivity].
  unfold device_serial_number, bind, gets, emit. now rewrite Hdev.
Qed.

(** What a tick does, branch by branch. *)
Lemma tick_not_connected comports ch log :
  _wanted_state ch = NOT_CONNECTED ->
  _update_state lib comports ch log =
  Done tt
    (settled
       (match added comports ch with
        | [] => scanned comports ch
        | dev :: _ =>
            let s := scanned comports ch in
            if bool_decide (_first_serial_num s = Some "")
            then set_wanted_state REGISTERED
                   (set_first_serial_num (serial_number dev) (set_device (Port dev) s))
            else if bool_decide (_first_serial_num s = serial_number dev)
            then set_wanted_state REGISTERED (set_device (Port dev) s)
            else set_wanted_state CONNECTED (set_device (Port dev) s)
        end))
    log.
Proof.
  intros Hw. rewrite update_state_run. unfold branch. rewrite Hw.
  destruct (added comports ch) as [|dev others]; [reflexivity|].
  now rewrite not_connected_step_run.
Qed.

Lemma tick_removal dev rem s log :
  _device s = Port dev ->
  match _handle_removed_device lib rem s log with
  | Done _ s' log' => Done tt (settled s') log'
  | o => o
  end =
  closing lib dev rem s log.
Proof.
  intros Hdev. rewrite (handle_removed_run dev) by assumption.
  unfold closing. destruct rem as [|r rem]; [reflexivity|].
  destruct (carries_serial dev (r :: rem)); [|reflexivity].
  now destruct lib.
Qed.

Lemma tick_connected comports ch dev log :
  _wanted_state ch = CONNECTED ->
  _device ch = Port dev ->
  _update_state lib comports ch log =
  let s := scanned comports ch in
  let log1 :=
    if bool_decide (_prev_state ch = NOT_CONNECTED)
    then log ++ [connect_status_change CONNECTED
                   (Some (fstr (serial_number dev) +:+
                          ", press New Patient to register"))]
    else log in
  closing lib dev (removed comports ch) s log1.
Proof.
  intros Hw Hdev. rewrite update_state_run. unfold branch. rewrite Hw.
  rewrite (connected_step_run dev) by exact Hdev.
  now rewrite (tick_removal dev) by exact Hdev.
Qed.

Lemma tick_registered_steady comports ch dev log :
  _wanted_state ch = REGISTERED ->
  _prev_state ch = REGISTERED ->
  _device ch = Port dev ->
  _update_state lib comports ch log =
  let s := scanned comports ch in
  closing lib dev (removed comports ch) s log.
Proof.
  intros Hw Hprev Hdev. rewrite update_state_run. unfold branch. rewrite Hw.
  rewrite (registered_step_steady dev) by assumption.
  now rewrite (tick_removal dev) by exact Hdev.
Qed.

Lemma tick_registered_entering comports ch dev log :
  _wanted_state ch = REGISTERED ->
  _prev_state ch <> REGISTERED ->
  _device ch = Port dev ->
  Serial.is_open (_SerialHandler._conn (serial ch)) = false ->
  _update_state lib comports ch log =
  let s := set_serial (bound (device dev) (serial ch)) (scanned comports ch) in
  let log1 := log ++ [connect_status_change REGISTERED (serial_number dev)] in
  closing lib dev (removed comports ch) s log1.
Proof.
  intros Hw Hprev Hdev Hclosed. rewrite update_state_run. unfold branch. rewrite Hw.
  rewrite (registered_step_entering dev) by assumption.
  now rewrite (tick_removal dev) by exact Hdev.
Qed.

End TickCases.


Section HandlerInvariants.
Import ConnectionHandler Wire Tick Loop Invariant Ending.
Context {lib : pyserial}.

Lemma filter_eligible comports : Forall eligible (_filter_devices comports).
Proof.
  apply List.Forall_forall. intros dev [_ Hdev]%filter_In.
  apply andb_prop in Hdev as [Hv Hp].
  split; [exact (bool_decide_eq_true_1 _ Hv)|exact (bool_decide_eq_true_1 _ Hp)].
Qed.

Lemma added_eligible comports ch dev others :
  added comports ch = dev :: others -> eligible dev.
Proof.
  intros Hadd.
  assert (Hin : In dev (added comports ch)) by (rewrite Hadd; now left).
  apply filter_In in Hin as [Hin _].
  exact (proj1 (List.Forall_forall _ _) (filter_eligible comports) dev Hin).
Qed.

Lemma idle_unbound h : idle (unbound h).
Proof. now split. Qed.

Lemma set_serial_id ch : set_serial (serial ch) ch = ch.
Proof. now destruct ch. Qed.

(** [start_serial_comm] returns, or raises [SerialException] when the port
    was open and does not open again. *)
Lemma start_serial_comm_any port h log :
  exists h',
    _SerialHandler.start_serial_comm port h log = Done tt h' log \/
    _SerialHandler.start_serial_comm port h log = Raised SerialException h' log.
Proof.
  destruct h as [? ? [op po ? ? fa] ? ? ?].
  unfold _SerialHandler.start_serial_comm, _SerialHandler.conn_set_port,
    bind, gets, modify, lift_result, Serial.set_port, Serial.open; simpl.
  destruct op, port, fa; simpl; eauto.
Qed.

(** A tick that enters REGISTERED, whatever the port of the transport is
    like: binding the port raises, or the tick goes on as usual. *)
Lemma registered_step_entering_any dev rem s log :
  _device s = Port dev ->
  _prev_state s <> REGISTERED ->
  exists h',
    registered_step lib rem s log = Raised SerialException (set_serial h' s) log \/
    registered_step lib rem s log =
      _handle_removed_device lib rem (set_serial h' s)
        (log ++ [connect_status_change REGISTERED (serial_number dev)]).
Proof.
  intros Hdev Hprev.
  destruct (start_serial_comm_any (device dev) (serial s) log) as [h' Hstart].
  exists h'.
  assert (Hstep : registered_step lib rem s log =
    match _SerialHandler.start_serial_comm (device dev) (serial s) log with
    | Done _ h log' =>
        _handle_removed_device lib rem (set_serial h s)
          (log' ++ [connect_status_change REGISTERED (serial_number dev)])
    | Raised e h log' => Raised e (set_serial h s) log'
    | Hang h log' => Hang (set_serial h s) log'
    end).
  { unfold registered_step, bind at 1 2, gets.
    replace (bool_decide (_prev_state s = NOT_CONNECTED) ||
             bool_decide (_prev_state s = CONNECTED)) with true
      by now destruct (_prev_state s).
    unfold device_device, device_serial_number, on_serial, zoom, bind, gets, emit.
    rewrite Hdev. unfold ret at 1. cbv beta iota.
    destruct (_SerialHandler.start_serial_comm (device dev) (serial s) log);
      try reflexivity.
    cbn [_device set_serial]. now rewrite Hdev. }
  rewrite Hstep. destruct Hstart as [-> | ->]; [now right|now left].
Qed.

Lemma tick_registered_entering_any comports ch dev log :
  _wanted_state ch = REGISTERED ->
  _prev_state ch <> REGISTERED ->
  _device ch = Port dev ->
  exists h',
    _update_state lib comports ch log =
      Raised SerialException (set_serial h' (scanned comports ch)) log \/
    _update_state lib comports ch log =
      closing lib dev (removed comports ch) (set_serial h' (scanned comports ch))
        (log ++ [connect_status_change REGISTERED (serial_number dev)]).
Proof.
  intros Hw Hprev Hdev.
  destruct (registered_step_entering_any dev (removed comports ch)
              (scanned comports ch) log Hdev Hprev) as [h' Hstep].
  exists h'. rewrite update_state_run. unfold branch. rewrite Hw.
  destruct Hstep as [-> | ->].
  - now left.
  - right. now rewrite (tick_removal dev).
Qed.

Lemma closing_final dev rem s log :
  final (closing lib dev rem s log) = settled s \/
  final (closing lib dev rem s log) = settled (dropped s) \/
  final (closing lib dev rem s log) = alarmed s.
Proof.
  unfold closing. destruct rem as [|r rem]; [now left|].
  destruct (carries_serial dev (r :: rem)); [|now left].
  destruct lib; simpl; auto.
Qed.

(** However a tick ends after its scan, the handler is left described and
    with pacemakers only. *)
Lemma kept_scanned comports ch dev h ch' :
  _device ch = Port dev ->
  pacemakers_only ch ->
  let s := set_serial h (scanned comports ch) in
  ch' = s \/ ch' = settled s \/ ch' = settled (dropped s) \/ ch' = alarmed s ->
  kept ch ch'.
Proof.
  intros Hdev (Hdevs & Hold & Hact) s Hch'.
  pose proof (filter_eligible comports) as Hscan.
  destruct Hch' as [-> | [-> | [-> | ->]]].
  - split; [|split; [|reflexivity]].
    + intros _. now exists dev.
    + split; [exact Hscan|]. split; [exact Hold|exact Hact].
  - split; [|split; [|reflexivity]].
    + intros _. now exists dev.
    + split; [exact Hscan|]. split; [exact Hscan|exact Hact].
  - split; [|split; [|reflexivity]].
    + intros _. now exists no_port.
    + split; [exact Hscan|]. split; [exact Hscan|].
      simpl. intros d [= <-]. now left.
  - split; [|split; [|reflexivity]].
    + intros _. now exists dev.
    + split; [exact Hscan|]. split; [exact Hold|exact Hact].
Qed.

Lemma kept_closing comports ch dev h log :
  _device ch = Port dev ->
  pacemakers_only ch ->
  kept ch (final (closing lib dev (removed comports ch)
                    (set_serial h (scanned comports ch)) log)).
Proof.
  intros Hdev Hp. apply (kept_scanned comports ch dev h); [assumption..|].
  destruct (closing_final dev (removed comports ch)
              (set_serial h (scanned comports ch)) log) as [-> | [-> | ->]]; auto.
Qed.

Lemma tick_kept comports ch log :
  described ch -> pacemakers_only ch ->
  kept ch (final (_update_state lib comports ch log)).
Proof.
  intros Hdesc Hp.
  pose proof (filter_eligible comports) as Hscan.
  destruct (_wanted_state ch) eqn:Hw.
  - (* NOT_CONNECTED *)
    destruct Hp as (Hdevs & Hold & Hact).
    rewrite (tick_not_connected comports ch log Hw). cbn [final].
    destruct (added comports ch) as [|dev others] eqn:Hadd.
    + split; [|split; [|reflexivity]].
      * unfold described. simpl. rewrite Hw. intros [H|H]; now elim H.
      * split; [exact Hscan|]. split; [exact Hscan|exact Hact].
    + pose proof (added_eligible _ _ _ _ Hadd) as Hel.
      cbv zeta. change (_first_serial_num (scanned comports ch))
        with (_first_serial_num ch).
      assert (Hpm : forall s',
                _devices s' = _filter_devices comports ->
                _old_devices s' = _filter_devices comports ->
                _device s' = Port dev ->
                described s' /\ pacemakers_only s').
      { intros s' Hd Ho Ha. split.
        - intros _. now exists dev.
        - unfold pacemakers_only. rewrite Hd, Ho, Ha.
          split; [exact Hscan|]. split; [exact Hscan|].
          intros d [= <-]. now right. }
      destruct (bool_decide_reflect (_first_serial_num ch = Some "")) as [Hfirst|Hfirst];
        [|destruct (bool_decide (_first_serial_num ch = serial_number dev))].
      * destruct (Hpm (settled
                    (set_wanted_state REGISTERED
                       (set_first_serial_num (serial_number dev)
                          (set_device (Port dev) (scanned comports ch))))))
          as [Hd' Hp']; [reflexivity..|].
        split; [exact Hd'|]. split; [exact Hp'|]. intros H. now elim H.
      * destruct (Hpm (settled
                    (set_wanted_state REGISTERED
                       (set_device (Port dev) (scanned comports ch)))))
          as [Hd' Hp']; [reflexivity..|].
        split; [exact Hd'|]. split; [exact Hp'|reflexivity].
      * destruct (Hpm (settled
                    (set_wanted_state CONNECTED
                       (set_device (Port dev) (scanned comports ch)))))
          as [Hd' Hp']; [reflexivity..|].
        split; [exact Hd'|]. split; [exact Hp'|reflexivity].
  - (* CONNECTED *)
    destruct Hdesc as [dev Hport]; [left; congruence|].
    rewrite (tick_connected comports ch dev log Hw Hport). cbv zeta.
    rewrite <- (set_serial_id (scanned comports ch)).
    now apply kept_closing.
  - (* REGISTERED *)
    destruct Hdesc as [dev Hport]; [left; congruence|].
    destruct (decide (_prev_state ch = REGISTERED)) as [Hprev|Hprev].
    + rewrite (tick_registered_steady comports ch dev log Hw Hprev Hport). cbv zeta.
      rewrite <- (set_serial_id (scanned comports ch)).
      now apply kept_closing.
    + destruct (tick_registered_entering_any comports ch dev log Hw Hprev Hport)
        as [h' [-> | ->]].
      * apply (kept_scanned comports ch dev h'); [assumption..|now left].
      * now apply kept_closing.
Qed.

(** A tick of a handler whose loop is alive returns and leaves it sound, or,
    where [ListPortInfo()] raises, stops with [TypeError] once it has found
    the active device removed and emitted NOT_CONNECTED; the active device
    and the transport are then as before the removal was noticed. *)
Lemma tick_sound comports ch log :
  sound ch ->
  (exists ch' log',
     _update_state lib comports ch log = Done tt ch' log' /\ sound ch') \/
  (lib = from_3_5 /\
   exists dev gone rest ch' log',
     _device ch = Port dev /\
     removed comports ch = gone :: rest /\
     carries_serial dev (removed comports ch) = true /\
     _update_state lib comports ch log =
       Raised TypeError ch'
         (log' ++ [connect_status_change NOT_CONNECTED (serial_number gone)]) /\
     _device ch' = Port dev /\
     _wanted_state ch' = NOT_CONNECTED /\
     (serial ch' = serial ch \/ serial ch' = bound (device dev) (serial ch))).
Proof.
  intros [Hdesc Hidle].
  destruct (_wanted_state ch) eqn:Hw.
  - (* NOT_CONNECTED *)
    left. rewrite (tick_not_connected comports ch log Hw).
    eexists _, _. split; [reflexivity|].
    assert (Hidle' : idle (serial ch)) by (apply Hidle; right; congruence).
    destruct (added comports ch) as [|dev others].
    + split.
      * unfold described. simpl. rewrite Hw. intros [H|H]; now elim H.
      * intros _. exact Hidle'.
    + cbv zeta. change (_first_serial_num (scanned comports ch))
        with (_first_serial_num ch).
      destruct (bool_decide (_first_serial_num ch = Some ""));
        [|destruct (bool_decide (_first_serial_num ch = serial_number dev))];
        (split; [intros _; now exists dev|intros _; exact Hidle']).
  - (* CONNECTED *)
    destruct Hdesc as [dev Hport]; [left; congruence|].
    assert (Hidle' : idle (serial ch)) by (apply Hidle; right; congruence).
    rewrite (tick_connected comports ch dev log Hw Hport). cbv zeta.
    unfold closing.
    destruct (removed comports ch) as [|gone rest] eqn:Hrem.
    { left. eexists _, _. split; [reflexivity|].
      split; [intros _; now exists dev|intros _; exact Hidle']. }
    destruct (carries_serial dev (gone :: rest)) eqn:Hhit.
    2:{ left. eexists _, _. split; [reflexivity|].
        split; [intros _; now exists dev|intros _; exact Hidle']. }
    destruct lib.
    + left. eexists _, _. split; [reflexivity|].
      split; [intros _; now exists no_port|intros _; apply idle_unbound].
    + right. split; [reflexivity|].
      exists dev, gone, rest. eexists _, _.
      split; [exact Hport|]. split; [reflexivity|]. split; [exact Hhit|].
      split; [reflexivity|]. split; [exact Hport|]. split; [reflexivity|].
      now left.
  - (* REGISTERED *)
    destruct Hdesc as [dev Hport]; [left; congruence|].
    destruct (decide (_prev_state ch = REGISTERED)) as [Hprev|Hprev].
    + rewrite (tick_registered_steady comports ch dev log Hw Hprev Hport). cbv zeta.
      unfold closing.
      destruct (removed comports ch) as [|gone rest] eqn:Hrem.
      { left. eexists _, _. split; [reflexivity|].
        split; [intros _; now exists dev|].
        simpl. rewrite Hw. intros [H|H]; now elim H. }
      destruct (carries_serial dev (gone :: rest)) eqn:Hhit.
      2:{ left. eexists _, _. split; [reflexivity|].
          split; [intros _; now exists dev|].
          simpl. rewrite Hw. intros [H|H]; now elim H. }
      destruct lib.
      * left. eexists _, _. split; [reflexivity|].
        split; [intros _; now exists no_port|intros _; apply idle_unbound].
      * right. split; [reflexivity|].
        exists dev, gone, rest. eexists _, _.
        split; [exact Hport|]. split; [reflexivity|]. split; [exact Hhit|].
        split; [reflexivity|]. split; [exact Hport|]. split; [reflexivity|].
        now left.
    + assert (Hidle' : idle (serial ch)) by (apply Hidle; now left).
      destruct Hidle' as [_ Hclosed].
      rewrite (tick_registered_entering comports ch dev log Hw Hprev Hport Hclosed).
      cbv zeta. unfold closing.
      destruct (removed comports ch) as [|gone rest] eqn:Hrem.
      { left. eexists _, _. split; [reflexivity|].
        split; [intros _; now exists dev|].
        simpl. rewrite Hw. intros [H|H]; now elim H. }
      destruct (carries_serial dev (gone :: rest)) eqn:Hhit.
      2:{ left. eexists _, _. split; [reflexivity|].
          split; [intros _; now exists dev|].
          simpl. rewrite Hw. intros [H|H]; now elim H. }
      destruct lib.
      * left. eexists _, _. split; [reflexivity|].
        split; [intros _; now exists no_port|intros _; apply idle_unbound].
      * right. split; [reflexivity|].
        exists dev, gone, rest. eexists _, _.
        split; [exact Hport|]. split; [reflexivity|]. split; [exact Hhit|].
        split; [reflexivity|]. split; [exact Hport|]. split; [reflexivity|].
        now right.
Qed.

End HandlerInvariants.

Section HandlerSessions.
Import ConnectionHandler Wire Tick Loop Invariant.
Context {lib : pyserial}.
Variable bo : Struct.byteorder.

Lemma kept_refl ch : described ch -> pacemakers_only ch -> kept ch ch.
Proof. intros Hd Hp. split; [exact Hd|]. split; [exact Hp|reflexivity]. Qed.

Lemma kept_serial ch h :
  described ch -> pacemakers_only ch -> kept ch (set_serial h ch).
Proof. intros Hd Hp. split; [exact Hd|]. split; [exact Hp|reflexivity]. Qed.

Lemma on_serial_final {A} (m : M _SerialHandler.t A) ch log :
  final (on_serial m ch log) = set_serial (final (m (serial ch) log)) ch.
Proof.
  unfold on_serial, zoom. now destruct (m (serial ch) log).
Qed.

(** What a press of the register button leaves. *)
Lemma register_device_final ch :
  final (run register_device ch) =
  if bool_decide (_current_state ch = CONNECTED)
  then set_wanted_state REGISTERED ch else ch.
Proof.
  rewrite register_device_run.
  destruct (bool_decide (_current_state ch = CONNECTED)); [reflexivity|].
  destruct (_device ch) as [ports|dev]; [reflexivity|].
  destruct (truthy (serial_number dev)); [reflexivity|].
  now destruct (0 <? length (_devices ch))%nat.
Qed.

Lemma send_data_final params ch :
  exists h,
    final (run (send_data_to_pacemaker bo params) ch) = set_serial h ch /\
    (Invariant.idle (serial ch) -> Invariant.idle h).
Proof.
  rewrite send_data_to_pacemaker_run.
  destruct (_SerialHandler.encode_params bo params) as [data|e].
  - eexists. split; [reflexivity|]. auto.
  - exists (serial ch). split; [now destruct ch|auto].
Qed.

Lemma turn_idle h log :
  idle h -> final (_SerialHandler.run_iteration bo h log) = h.
Proof.
  intros [Hport Hclosed]. rewrite run_iteration_closed by exact Hclosed.
  now rewrite Hport.
Qed.

(** Every call, however it ends, keeps the handler described and with
    pacemakers only. *)
Lemma perform_kept c ch :
  described ch -> pacemakers_only ch ->
  kept ch (final (run (handler_perform lib bo c) ch)).
Proof.
  intros Hd Hp. destruct c as [comports| |params|]; simpl handler_perform.
  - now apply tick_kept.
  - rewrite register_device_final.
    destruct (bool_decide_reflect (_current_state ch = CONNECTED)) as [Hc|Hc];
      [|now apply kept_refl].
    split; [|split; [exact Hp|reflexivity]].
    intros _. apply Hd. right. congruence.
  - destruct (send_data_final params ch) as (h & -> & _). now apply kept_serial.
  - unfold run. rewrite on_serial_final. now apply kept_serial.
Qed.

Lemma session_kept calls : forall ch,
  described ch -> pacemakers_only ch ->
  kept ch (handler_session lib bo calls ch).
Proof.
  induction calls as [|c calls IH]; intros ch Hd Hp; [now apply kept_refl|].
  simpl. destruct (perform_kept c ch Hd Hp) as (Hd1 & Hp1 & Hfirst1).
  destruct (IH _ Hd1 Hp1) as (Hd2 & Hp2 & Hfirst2).
  split; [exact Hd2|]. split; [exact Hp2|].
  intros Hset. specialize (Hfirst1 Hset).
  rewrite Hfirst2; [exact Hfirst1|]. now rewrite Hfirst1.
Qed.

Lemma session_app calls1 : forall calls2 ch,
  handler_session lib bo (calls1 ++ calls2) ch =
  handler_session lib bo calls2 (handler_session lib bo calls1 ch).
Proof.
  induction calls1 as [|c calls1 IH]; intros calls2 ch; [reflexivity|].
  simpl. apply IH.
Qed.

Lemma init_sound comports wire faulty :
  sound (init comports (_SerialHandler.init wire faulty)).
Proof.
  split.
  - intros [H|H]; now elim H.
  - intros _. now split.
Qed.

Lemma init_kept comports wire faulty :
  described (init comports (_SerialHandler.init wire faulty)) /\
  pacemakers_only (init comports (_SerialHandler.init wire faulty)).
Proof.
  split; [apply init_sound|].
  split; [constructor|]. split; [constructor|discriminate].
Qed.

(** The calls that are not ticks keep the invariant of a live handler. *)
Lemma register_sound ch : sound ch -> sound (final (run register_device ch)).
Proof.
  intros [Hd Hidle]. rewrite register_device_final.
  destruct (bool_decide_reflect (_current_state ch = CONNECTED)) as [Hc|Hc];
    [|now split].
  split.
  - intros _. apply Hd. right. congruence.
  - simpl. intros [H|H]; [apply Hidle; now left|now elim H].
Qed.

Lemma serial_sound ch h :
  (idle (serial ch) -> idle h) -> sound ch -> sound (set_serial h ch).
Proof.
  intros Hh [Hd Hidle]. split; [exact Hd|].
  simpl. intros H. apply Hh, Hidle, H.
Qed.

Lemma session_sound calls : forall ch,
  sound ch ->
  ticks_returned lib bo calls ch = true ->
  sound (handler_session lib bo calls ch).
Proof.
  induction calls as [|c calls IH]; intros ch Hs Hlive; [exact Hs|].
  destruct c as [comports| |params|]; simpl in Hlive |- *.
  - destruct (tick_sound (lib:=lib) comports ch [] Hs)
      as [(ch' & log' & Hrun & Hs')|(_ & dev & gone & rest & ch' & log' & _ & _ & _ & Hrun & _)];
      unfold run in Hlive |- *; rewrite Hrun in Hlive |- *; [|discriminate].
    now apply IH.
  - apply IH; [now apply register_sound|].
    now destruct (run register_device ch).
  - apply IH.
    + destruct (send_data_final params ch) as (h & -> & Hh). now apply serial_sound.
    + now destruct (run (send_data_to_pacemaker bo params) ch).
  - apply IH.
    + unfold run. rewrite on_serial_final. apply serial_sound; [|exact Hs].
      intros Hidle. now rewrite turn_idle.
    + now destruct (run (on_serial (_SerialHandler.run_iteration bo)) ch).
Qed.

(** Where [ListPortInfo()] builds the empty descriptor, every tick of a
    sound handler returns. *)
Lemma ticks_always_return calls :
  lib = upto_3_4 ->
  forall ch, sound ch -> ticks_returned lib bo calls ch = true.
Proof.
  intros Hlib. induction calls as [|c calls IH]; intros ch Hs; [reflexivity|].
  destruct c as [comports| |params|]; simpl.
  - destruct (tick_sound (lib:=lib) comports ch [] Hs)
      as [(ch' & log' & Hrun & Hs')|(Hlib' & _)]; [|congruence].
    unfold run. rewrite Hrun. now apply IH.
  - destruct (run register_device ch) eqn:Hrun;
      (apply IH; pose proof (register_sound ch Hs) as H; now rewrite Hrun in H).
  - destruct (send_data_final params ch) as (h & Hfin & Hh).
    destruct (run (send_data_to_pacemaker bo params) ch) eqn:Hrun;
      (apply IH; simpl in Hfin; rewrite Hfin; now apply serial_sound).
  - assert (Hs' : sound (final (run (on_serial (_SerialHandler.run_iteration bo)) ch))).
    { unfold run. rewrite on_serial_final. apply serial_sound; [|exact Hs].
      intros Hidle. now rewrite turn_idle. }
    destruct (run (on_serial (_SerialHandler.run_iteration bo)) ch);
      now apply IH.
Qed.

End HandlerSessions.

(** X12.  A tick of a handler whose loop is alive returns, or stops with
    [TypeError] at [ListPortInfo()]; it raises nothing else.  Take any run
    of ticks, presses of the register button, parameter sets and turns of
    the transport since [__init__] in which every tick returned.  Then
    [_device] is a port descriptor (not the list of [__init__]) wherever
    the next tick reads its attributes, [removed[0]] is taken of a list
    that is not empty, and the port is closed when the tick binds it: the
    tick returns, unless a removed device carries the serial number of the
    active one and the installed pySerial is from 3.5 on.  In that case it
    asks for NOT_CONNECTED, emits the NOT_CONNECTED signal and raises
    [TypeError]: the active device stays, and the port of the transport is
    not unbound.  With a pySerial up to 3.4 every tick of every such run
    returns. *)
Theorem update_state_returns_or_type_error (lib : pyserial)
    (bo : Struct.byteorder) (calls : list Loop.handler_call)
    (comports0 comports : list ListPortInfo)
    (wire : list (list byte)) (faulty : bool) :
  let ch0 := ConnectionHandler.init comports0 (_SerialHandler.init wire faulty) in
  let ch := Loop.handler_session lib bo calls ch0 in
  (lib = upto_3_4 -> Loop.ticks_returned lib bo calls ch0 = true) /\
  (Loop.ticks_returned lib bo calls ch0 = true ->
   (exists ch' log,
      run (ConnectionHandler._update_state lib comports) ch = Done tt ch' log) \/
   (lib = from_3_5 /\
    exists dev gone rest ch' log,
      ConnectionHandler._device ch = ConnectionHandler.Port dev /\
      Tick.removed comports ch = gone :: rest /\
      Tick.carries_serial dev (Tick.removed comports ch) = true /\
      run (ConnectionHandler._update_state lib comports) ch =
        Raised TypeError ch'
          (log ++ [connect_status_change NOT_CONNECTED (serial_number gone)]) /\
      ConnectionHandler._device ch' = ConnectionHandler.Port dev /\
      ConnectionHandler._wanted_state ch' = NOT_CONNECTED /\
      (ConnectionHandler.serial ch' = ConnectionHandler.serial ch \/
       ConnectionHandler.serial ch' =
         Wire.bound (device dev) (ConnectionHandler.serial ch)))).
Proof.
  intros ch0 ch.
  pose proof (init_sound comports0 wire faulty) as Hs0. fold ch0 in Hs0.
  split.
  - intros Hlib. now apply ticks_always_return.
  - intros Hlive.
    pose proof (session_sound bo calls ch0 Hs0 Hlive) as Hs. fold ch in Hs.
    destruct (tick_sound (lib:=lib) comports ch [] Hs)
      as [(ch' & log' & Hrun & _)|Hbad].
    + left. now exists ch', log'.
    + right. exact Hbad.
Qed.

Lemma update_state_returns_or_type_error_witness :
  let ch :=
    Loop.handler_session from_3_5 Struct.LittleEndian
      [Loop.Tick [Scenario.pacemaker_1]; Loop.Tick [Scenario.pacemaker_1];
       Loop.TransportTurn]
      (ConnectionHandler.init [] (_SerialHandler.init [] false)) in
  (exists ch' log,
     run (ConnectionHandler._update_state from_3_5 [Scenario.mouse]) ch =
       Raised TypeError ch' log /\
     Serial.port (_SerialHandler._conn (ConnectionHandler.serial ch')) =
       Some "COM3" /\
     Serial.is_open (_SerialHandler._conn (ConnectionHandler.serial ch')) = true) /\
  ((exists ch' log,
      run (ConnectionHandler._update_state from_3_5 [Scenario.mouse]) ch =
        Done tt ch' log) \/
   (from_3_5 = from_3_5 /\
    exists dev gone rest ch' log,
      ConnectionHandler._device ch = ConnectionHandler.Port dev /\
      Tick.removed [Scenario.mouse] ch = gone :: rest /\
      Tick.carries_serial dev (Tick.removed [Scenario.mouse] ch) = true /\
      run (ConnectionHandler._update_state from_3_5 [Scenario.mouse]) ch =
        Raised TypeError ch'
          (log ++ [connect_status_change NOT_CONNECTED (serial_number gone)]) /\
      ConnectionHandler._device ch' = ConnectionHandler.Port dev /\
      ConnectionHandler._wanted_state ch' = NOT_CONNECTED /\
      (ConnectionHandler.serial ch' = ConnectionHandler.serial ch \/
       ConnectionHandler.serial ch' =
         Wire.bound (device dev) (ConnectionHandler.serial ch)))).
Proof.
  split.
  - vm_compute. eexists _, _. split; [reflexivity|]. split; reflexivity.
  - apply (update_state_returns_or_type_error from_3_5 Struct.LittleEndian
             [Loop.Tick [Scenario.pacemaker_1]; Loop.Tick [Scenario.pacemaker_1];
              Loop.TransportTurn]
             [] [Scenario.mouse] [] false).
    vm_compute. reflexivity.
Defined.

(** X13.  The handler never takes up a device that is not a pacemaker.
    From [__init__] on, whatever is called, however the calls end and
    whatever the scans report, the devices it keeps from the last two scans
    all carry the vendor and product identifiers of the pacemaker, and its
    active device is such a device or the empty descriptor. *)
Theorem only_pacemakers_are_adopted (lib : pyserial) (bo : Struct.byteorder)
    (calls : list Loop.handler_call) (comports0 : list ListPortInfo)
    (wire : list (list byte)) (faulty : bool) :
  let ch := Loop.handler_session lib bo calls
              (ConnectionHandler.init comports0 (_SerialHandler.init wire faulty)) in
  Forall Invariant.eligible (ConnectionHandler._devices ch) /\
  Forall Invariant.eligible (ConnectionHandler._old_devices ch) /\
  (forall dev, ConnectionHandler._device ch = ConnectionHandler.Port dev ->
     dev = no_port \/ Invariant.eligible dev).
Proof.
  destruct (init_kept comports0 wire faulty) as [Hd Hp].
  destruct (session_kept (lib:=lib) bo calls _ Hd Hp) as (_ & Hp' & _).
  exact Hp'.
Qed.

(** X14.  The serial number the handler remembers is set once.  As soon as
    [_first_serial_num] is no longer the empty string, nothing that is
    called afterwards changes it, whatever devices come and go. *)
Theorem first_serial_number_is_set_once (lib : pyserial) (bo : Struct.byteorder)
    (before after : list Loop.handler_call) (comports0 : list ListPortInfo)
    (wire : list (list byte)) (faulty : bool)
    (Hset : ConnectionHandler._first_serial_num
              (Loop.handler_session lib bo before
                 (ConnectionHandler.init comports0
                    (_SerialHandler.init wire faulty))) <> Some "") :
  ConnectionHandler._first_serial_num
    (Loop.handler_session lib bo (before ++ after)
       (ConnectionHandler.init comports0 (_SerialHandler.init wire faulty))) =
  ConnectionHandler._first_serial_num
    (Loop.handler_session lib bo before
       (ConnectionHandler.init comports0 (_SerialHandler.init wire faulty))).
Proof.
  destruct (init_kept comports0 wire faulty) as [Hd Hp].
  destruct (session_kept (lib:=lib) bo before _ Hd Hp) as (Hd' & Hp' & _).
  destruct (session_kept (lib:=lib) bo after _ Hd' Hp') as (_ & _ & Hfirst).
  rewrite session_app. now apply Hfirst.
Qed.

Lemma first_serial_number_is_set_once_witness :
  ConnectionHandler._first_serial_num
    (Loop.handler_session upto_3_4 Struct.LittleEndian
       ([Loop.Tick [Scenario.pacemaker_1]] ++
        [Loop.Tick []; Loop.Tick [Scenario.pacemaker_2]; Loop.Register;
         Loop.Tick [Scenario.pacemaker_2]; Loop.Tick [Scenario.pacemaker_2]])
       (ConnectionHandler.init [] (_SerialHandler.init [] false))) =
  ConnectionHandler._first_serial_num
    (Loop.handler_session upto_3_4 Struct.LittleEndian
       [Loop.Tick [Scenario.pacemaker_1]]
       (ConnectionHandler.init [] (_SerialHandler.init [] false))).
Proof.
  apply (first_serial_number_is_set_once upto_3_4 Struct.LittleEndian
           [Loop.Tick [Scenario.pacemaker_1]]
           [Loop.Tick []; Loop.Tick [Scenario.pacemaker_2]; Loop.Register;
            Loop.Tick [Scenario.pacemaker_2]; Loop.Tick [Scenario.pacemaker_2]]
           [] [] false).
  vm_compute. discriminate.
Defined.

Section Scans.
Import ConnectionHandler Wire Tick.

Lemma port_in_self dev devices : In dev devices -> port_in dev devices = true.
Proof.
  intros Hin. apply existsb_exists. exists dev. split; [exact Hin|].
  now apply bool_decide_eq_true.
Qed.

Lemma difference_self devices : difference devices devices = [].
Proof.
  unfold difference.
  assert (H : forall l, (forall d, In d l -> port_in d devices = true) ->
                        List.filter (fun dev => negb (port_in dev devices)) l = []).
  { induction l as [|d l IH]; intros Hl; [reflexivity|]. simpl.
    rewrite (Hl d) by now left. simpl. apply IH. intros d' Hd'. apply Hl. now right. }
  apply H. intros d. apply port_in_self.
Qed.

Lemma carries_serial_same dev d devices :
  In d devices -> serial_number d = serial_number dev ->
  carries_serial dev devices = true.
Proof.
  intros Hin Hsn. apply existsb_exists. exists d. split; [exact Hin|].
  now apply bool_decide_eq_true.
Qed.

Lemma register_device_connected s log :
  _current_state s = CONNECTED ->
  register_device s log = Done tt (set_wanted_state REGISTERED s) log.
Proof.
  intros Hc. unfold register_device, bind, gets, modify. now rewrite Hc.
Qed.

End Scans.

(** X15.  A tick that finds the devices of the previous scan, no more and
    no less, in a handler that is in the state it wants and was in it on
    the previous tick, is silent: it emits nothing, leaves the state, the
    active device, the remembered serial number and the transport as they
    are, and only stores the new scan. *)
Theorem quiet_tick (lib : pyserial) (comports : list ListPortInfo)
    (ch : ConnectionHandler.t)
    (Hcurrent : ConnectionHandler._current_state ch = ConnectionHandler._wanted_state ch)
    (Hprev : ConnectionHandler._prev_state ch = ConnectionHandler._wanted_state ch)
    (Hadded : Tick.added comports ch = [])
    (Hremoved : Tick.removed comports ch = []) :
  run (ConnectionHandler._update_state lib comports) ch =
  Done tt
    (ConnectionHandler.set_old_devices (ConnectionHandler._filter_devices comports)
       (ConnectionHandler.set_devices (ConnectionHandler._filter_devices comports) ch))
    [].
Proof.
  unfold run. rewrite update_state_run. unfold Tick.branch.
  rewrite Hadded, Hremoved.
  destruct ch as [rn dv dvs old first cur prv wnt ser]. simpl in Hcurrent, Hprev.
  subst cur prv. now destruct wnt.
Qed.

Lemma quiet_tick_witness :
  run (ConnectionHandler._update_state from_3_5
         [Scenario.pacemaker_1; Scenario.mouse]) Scenario.registered_handler =
  Done tt
    (ConnectionHandler.set_old_devices
       (ConnectionHandler._filter_devices [Scenario.pacemaker_1; Scenario.mouse])
       (ConnectionHandler.set_devices
          (ConnectionHandler._filter_devices [Scenario.pacemaker_1; Scenario.mouse])
          Scenario.registered_handler))
    [].
Proof.
  apply (quiet_tick from_3_5 [Scenario.pacemaker_1; Scenario.mouse]
           Scenario.registered_handler); reflexivity.
Defined.

(** X16.  The way to REGISTERED through CONNECTED.  A handler that already
    remembers a serial number and finds a pacemaker with another one makes
    it the active device and, on the next tick, emits CONNECTED with the
    text that asks for the register button; the button then asks for
    REGISTERED, and the tick after it binds the port of the transport to the
    device, empties the buffer of the transport and emits REGISTERED with
    the serial number.  The remembered serial number stays the old one. *)
Theorem register_through_connected (lib : pyserial)
    (comports : list ListPortInfo)
    (ch : ConnectionHandler.t) (dev : ListPortInfo) (others : list ListPortInfo)
    (Hwanted : ConnectionHandler._wanted_state ch = NOT_CONNECTED)
    (Hremembered : ConnectionHandler._first_serial_num ch <> Some "")
    (Hother : ConnectionHandler._first_serial_num ch <> serial_number dev)
    (Hadded : Tick.added comports ch = dev :: others)
    (Hclosed : Serial.is_open
                 (_SerialHandler._conn (ConnectionHandler.serial ch)) = false) :
  exists ch',
    run (ConnectionHandler._update_state lib comports ;;
         ConnectionHandler._update_state lib comports ;;
         ConnectionHandler.register_device ;;
         ConnectionHandler._update_state lib comports)%exec ch =
    Done tt ch'
      [connect_status_change CONNECTED
         (Some (fstr (serial_number dev) +:+ ", press New Patient to register"));
       connect_status_change REGISTERED (serial_number dev)] /\
    ConnectionHandler._current_state ch' = REGISTERED /\
    ConnectionHandler._device ch' = ConnectionHandler.Port dev /\
    ConnectionHandler.serial ch' =
      Wire.bound (device dev) (ConnectionHandler.serial ch) /\
    ConnectionHandler._first_serial_num ch' = ConnectionHandler._first_serial_num ch.
Proof.
  unfold run, bind.
  rewrite (tick_not_connected comports ch [] Hwanted), Hadded. cbv zeta.
  change (ConnectionHandler._first_serial_num (Tick.scanned comports ch))
    with (ConnectionHandler._first_serial_num ch).
  rewrite (bool_decide_eq_false_2 _ Hremembered), (bool_decide_eq_false_2 _ Hother).
  set (s1 := Tick.settled _).
  rewrite (tick_connected comports s1 dev []) by reflexivity. cbv zeta.
  replace (Tick.removed comports s1) with (@nil ListPortInfo)
    by (symmetry; apply difference_self).
  unfold Ending.closing.
  replace (ConnectionHandler._prev_state s1) with NOT_CONNECTED
    by (symmetry; exact Hwanted).
  simpl bool_decide. cbv iota. simpl app.
  set (s2 := Tick.settled _).
  rewrite (register_device_connected s2) by reflexivity.
  set (s3 := ConnectionHandler.set_wanted_state REGISTERED s2).
  rewrite (tick_registered_entering comports s3 dev);
    [|reflexivity|discriminate|reflexivity|exact Hclosed].
  cbv zeta.
  replace (Tick.removed comports s3) with (@nil ListPortInfo)
    by (symmetry; apply difference_self).
  unfold Ending.closing.
  eexists. split; [reflexivity|]. repeat split.
Qed.

Lemma register_through_connected_witness :
  exists ch',
    run (ConnectionHandler._update_state upto_3_4 [Scenario.pacemaker_2] ;;
         ConnectionHandler._update_state upto_3_4 [Scenario.pacemaker_2] ;;
         ConnectionHandler.register_device ;;
         ConnectionHandler._update_state upto_3_4 [Scenario.pacemaker_2])%exec
        Scenario.unplugged_handler =
    Done tt ch'
      [connect_status_change CONNECTED
         (Some (fstr (serial_number Scenario.pacemaker_2) +:+
                ", press New Patient to register"));
       connect_status_change REGISTERED (serial_number Scenario.pacemaker_2)] /\
    ConnectionHandler._current_state ch' = REGISTERED /\
    ConnectionHandler._device ch' = ConnectionHandler.Port Scenario.pacemaker_2 /\
    ConnectionHandler.serial ch' =
      Wire.bound (device Scenario.pacemaker_2)
        (ConnectionHandler.serial Scenario.unplugged_handler) /\
    ConnectionHandler._first_serial_num ch' =
      ConnectionHandler._first_serial_num Scenario.unplugged_handler.
Proof.
  apply (register_through_connected upto_3_4 [Scenario.pacemaker_2]
           Scenario.unplugged_handler Scenario.pacemaker_2 []);
    try reflexivity; vm_compute; discriminate.
Defined.

(** X17.  State CONNECTED.  The first tick in it emits CONNECTED with the
    serial number of the active device and the text that asks for the
    register button; later ticks in it do not repeat the signal.  While
    the device is listed, and no other device of the previous scan has its
    serial number, the tick changes nothing else: the port of the transport
    is not bound in this state.  When the device, seen by the previous
    scan, is not listed any more, the tick asks for NOT_CONNECTED and emits
    NOT_CONNECTED with the serial number of the first removed device.  With
    a pySerial up to 3.4 it then replaces the active device by the empty
    descriptor, unbinds the port and returns; with a pySerial from 3.5 on
    [ListPortInfo()] raises [TypeError] and the tick ends there, the active
    device and the transport untouched and this tick not made the previous
    one. *)
Theorem connected_device_watched (lib : pyserial) (comports : list ListPortInfo)
    (ch : ConnectionHandler.t) (dev : ListPortInfo)
    (Hwanted : ConnectionHandler._wanted_state ch = CONNECTED)
    (Hdevice : ConnectionHandler._device ch = ConnectionHandler.Port dev) :
  let announce :=
    if bool_decide (ConnectionHandler._prev_state ch = NOT_CONNECTED)
    then [connect_status_change CONNECTED
            (Some (fstr (serial_number dev) +:+ ", press New Patient to register"))]
    else [] in
  (port_in dev (ConnectionHandler._filter_devices comports) = true ->
   (forall d, In d (ConnectionHandler._old_devices ch) ->
      serial_number d = serial_number dev -> device d = device dev) ->
   run (ConnectionHandler._update_state lib comports) ch =
     Done tt (Tick.settled (Tick.scanned comports ch)) announce) /\
  (In dev (ConnectionHandler._old_devices ch) ->
   port_in dev (ConnectionHandler._filter_devices comports) = false ->
   exists gone rest,
     Tick.removed comports ch = gone :: rest /\
     run (ConnectionHandler._update_state lib comports) ch =
       match lib with
       | upto_3_4 =>
           Done tt (Tick.settled (Tick.dropped (Tick.scanned comports ch)))
             (announce ++
              [connect_status_change NOT_CONNECTED (serial_number gone)])
       | from_3_5 =>
           Raised TypeError (Tick.alarmed (Tick.scanned comports ch))
             (announce ++
              [connect_status_change NOT_CONNECTED (serial_number gone)])
       end).
Proof.
  intros announce. unfold run.
  rewrite (tick_connected comports ch dev [] Hwanted Hdevice). cbv zeta.
  assert (Hlog : (if bool_decide (ConnectionHandler._prev_state ch = NOT_CONNECTED)
                  then [] ++ [connect_status_change CONNECTED
                          (Some (fstr (serial_number dev) +:+
                                 ", press New Patient to register"))]
                  else []) = announce) by reflexivity.
  rewrite Hlog. unfold Ending.closing. split.
  - intros Hpresent Hident.
    pose proof (carries_serial_present dev _ _ Hident Hpresent) as Hno.
    fold (Tick.removed comports ch) in Hno. rewrite Hno.
    now destruct (Tick.removed comports ch).
  - intros Hseen Habsent.
    pose proof (carries_serial_absent dev _ _ Hseen Habsent) as Hyes.
    fold (Tick.removed comports ch) in Hyes. rewrite Hyes.
    destruct (Tick.removed comports ch) as [|gone rest]; [discriminate|].
    exists gone, rest. split; [reflexivity|]. now destruct lib.
Qed.

Lemma connected_device_watched_witness :
  run (ConnectionHandler._update_state upto_3_4
         [Scenario.pacemaker_2; Scenario.pacemaker_1])
      Bench.connected_handler =
    Done tt
      (Tick.settled
         (Tick.scanned [Scenario.pacemaker_2; Scenario.pacemaker_1]
            Bench.connected_handler)) [] /\
  (exists gone rest,
     Tick.removed [Scenario.mouse] Bench.connected_handler = gone :: rest /\
     run (ConnectionHandler._update_state upto_3_4 [Scenario.mouse])
         Bench.connected_handler =
       Done tt
         (Tick.settled
            (Tick.dropped (Tick.scanned [Scenario.mouse] Bench.connected_handler)))
         ([] ++ [connect_status_change NOT_CONNECTED (serial_number gone)])) /\
  (exists gone rest,
     Tick.removed [Scenario.mouse] Bench.connected_handler = gone :: rest /\
     run (ConnectionHandler._update_state from_3_5 [Scenario.mouse])
         Bench.connected_handler =
       Raised TypeError
         (Tick.alarmed (Tick.scanned [Scenario.mouse] Bench.connected_handler))
         ([] ++ [connect_status_change NOT_CONNECTED (serial_number gone)])).
Proof.
  split; [|split].
  - apply (connected_device_watched upto_3_4
             [Scenario.pacemaker_2; Scenario.pacemaker_1]
             Bench.connected_handler Scenario.pacemaker_2);
      [reflexivity|reflexivity|reflexivity|].
    intros d [<-|[]] _. reflexivity.
  - apply (connected_device_watched upto_3_4 [Scenario.mouse]
             Bench.connected_handler Scenario.pacemaker_2);
      [reflexivity|reflexivity|now left|reflexivity].
  - apply (connected_device_watched from_3_5 [Scenario.mouse]
             Bench.connected_handler Scenario.pacemaker_2);
      [reflexivity|reflexivity|now left|reflexivity].
Defined.

(** X18.  The active device is told from the removed ones by its serial
    number alone.  In state CONNECTED or in a settled state REGISTERED, when
    a device that carries the serial number of the active device goes away,
    the handler treats the active device as removed although it is still
    plugged in: it asks for NOT_CONNECTED and emits NOT_CONNECTED.  With a
    pySerial up to 3.4 it then gives the active device up and unbinds the
    port; with a pySerial from 3.5 on the tick raises [TypeError] there,
    and the active device and the transport stay as they were. *)
Theorem same_serial_number_removed (lib : pyserial)
    (comports : list ListPortInfo)
    (ch : ConnectionHandler.t) (dev other : ListPortInfo)
    (Hstate : ConnectionHandler._wanted_state ch = CONNECTED \/
              (ConnectionHandler._wanted_state ch = REGISTERED /\
               ConnectionHandler._prev_state ch = REGISTERED))
    (Hdevice : ConnectionHandler._device ch = ConnectionHandler.Port dev)
    (Hplugged : port_in dev (ConnectionHandler._filter_devices comports) = true)
    (Hremoved : In other (Tick.removed comports ch))
    (Hserial : serial_number other = serial_number dev) :
  exists ch' log gone,
    last log = Some (connect_status_change NOT_CONNECTED (serial_number gone)) /\
    ConnectionHandler._wanted_state ch' = NOT_CONNECTED /\
    match lib with
    | upto_3_4 =>
        run (ConnectionHandler._update_state lib comports) ch = Done tt ch' log /\
        ConnectionHandler._device ch' = ConnectionHandler.Port no_port /\
        Serial.port (_SerialHandler._conn (ConnectionHandler.serial ch')) = None /\
        Serial.is_open (_SerialHandler._conn (ConnectionHandler.serial ch')) =
          false
    | from_3_5 =>
        run (ConnectionHandler._update_state lib comports) ch =
          Raised TypeError ch' log /\
        ConnectionHandler._device ch' = ConnectionHandler.Port dev /\
        ConnectionHandler.serial ch' = ConnectionHandler.serial ch
    end.
Proof.
  pose proof (carries_serial_same dev other _ Hremoved Hserial) as Hyes.
  unfold run. destruct Hstate as [Hw|[Hw Hprev]].
  - rewrite (tick_connected comports ch dev [] Hw Hdevice). cbv zeta.
    unfold Ending.closing. rewrite Hyes.
    destruct (Tick.removed comports ch) as [|gone rest]; [discriminate|].
    destruct lib.
    + exists (Tick.settled (Tick.dropped (Tick.scanned comports ch))).
      eexists. exists gone. split; [apply last_snoc|].
      split; [reflexivity|]. split; [reflexivity|]. repeat split.
    + exists (Tick.alarmed (Tick.scanned comports ch)).
      eexists. exists gone. split; [apply last_snoc|].
      split; [reflexivity|]. split; [reflexivity|].
      split; [exact Hdevice|reflexivity].
  - rewrite (tick_registered_steady comports ch dev [] Hw Hprev Hdevice). cbv zeta.
    unfold Ending.closing. rewrite Hyes.
    destruct (Tick.removed comports ch) as [|gone rest]; [discriminate|].
    destruct lib.
    + exists (Tick.settled (Tick.dropped (Tick.scanned comports ch))).
      eexists. exists gone. split; [apply last_snoc|].
      split; [reflexivity|]. split; [reflexivity|]. repeat split.
    + exists (Tick.alarmed (Tick.scanned comports ch)).
      eexists. exists gone. split; [apply last_snoc|].
      split; [reflexivity|]. split; [reflexivity|].
      split; [exact Hdevice|reflexivity].
Qed.

Lemma same_serial_number_removed_witness :
  (exists ch' log gone,
     last log = Some (connect_status_change NOT_CONNECTED (serial_number gone)) /\
     ConnectionHandler._wanted_state ch' = NOT_CONNECTED /\
     run (ConnectionHandler._update_state upto_3_4 [Scenario.pacemaker_1])
         Bench.twin_handler = Done tt ch' log /\
     ConnectionHandler._device ch' = ConnectionHandler.Port no_port /\
     Serial.port (_SerialHandler._conn (ConnectionHandler.serial ch')) = None /\
     Serial.is_open (_SerialHandler._conn (ConnectionHandler.serial ch')) = false) /\
  (exists ch' log gone,
     last log = Some (connect_status_change NOT_CONNECTED (serial_number gone)) /\
     ConnectionHandler._wanted_state ch' = NOT_CONNECTED /\
     run (ConnectionHandler._update_state from_3_5 [Scenario.pacemaker_1])
         Bench.twin_handler = Raised TypeError ch' log /\
     ConnectionHandler._device ch' = ConnectionHandler.Port Scenario.pacemaker_1 /\
     ConnectionHandler.serial ch' = ConnectionHandler.serial Bench.twin_handler).
Proof.
  split.
  - apply (same_serial_number_removed upto_3_4 [Scenario.pacemaker_1]
             Bench.twin_handler Scenario.pacemaker_1 Bench.twin);
      [right; split; reflexivity|reflexivity|reflexivity|now left|reflexivity].
  - apply (same_serial_number_removed from_3_5 [Scenario.pacemaker_1]
             Bench.twin_handler Scenario.pacemaker_1 Bench.twin);
      [right; split; reflexivity|reflexivity|reflexivity|now left|reflexivity].
Defined.

(** X19.  The register button pressed right after the device went away.
    Take a handler settled in state CONNECTED whose device, seen by the
    previous scan, is gone, and let a tick, a press of the button and
    another tick follow one another.  With a pySerial up to 3.4 the tick
    that finds the device gone asks for NOT_CONNECTED, but the state it is
    in is still CONNECTED; the press of the button before the next tick
    therefore asks for REGISTERED again, and the next tick enters
    REGISTERED with the empty descriptor: it binds the port of the
    transport to no port and emits REGISTERED with no serial number.  From
    then on the handler stays REGISTERED without a device, silently, on
    every tick that does not see a device without serial number go away.
    With a pySerial from 3.5 on the first tick raises [TypeError] once it
    has emitted NOT_CONNECTED, and nothing of the rest happens. *)
Theorem register_after_removal (lib : pyserial) (comports : list ListPortInfo)
    (ch : ConnectionHandler.t) (dev : ListPortInfo)
    (Hwanted : ConnectionHandler._wanted_state ch = CONNECTED)
    (Hprev : ConnectionHandler._prev_state ch = CONNECTED)
    (Hdevice : ConnectionHandler._device ch = ConnectionHandler.Port dev)
    (Hseen : In dev (ConnectionHandler._old_devices ch))
    (Hgone : port_in dev (ConnectionHandler._filter_devices comports) = false) :
  exists gone ch',
    match lib with
    | upto_3_4 =>
        run (ConnectionHandler._update_state lib comports ;;
             ConnectionHandler.register_device ;;
             ConnectionHandler._update_state lib comports)%exec ch =
          Done tt ch'
            [connect_status_change NOT_CONNECTED (serial_number gone);
             connect_status_change REGISTERED None] /\
        ConnectionHandler._current_state ch' = REGISTERED /\
        ConnectionHandler._wanted_state ch' = REGISTERED /\
        ConnectionHandler._device ch' = ConnectionHandler.Port no_port /\
        Serial.port (_SerialHandler._conn (ConnectionHandler.serial ch')) = None /\
        Serial.is_open (_SerialHandler._conn (ConnectionHandler.serial ch')) =
          false /\
        forall comports',
          Tick.carries_serial no_port (Tick.removed comports' ch') = false ->
          run (ConnectionHandler._update_state lib comports') ch' =
            Done tt (Tick.settled (Tick.scanned comports' ch')) []
    | from_3_5 =>
        run (ConnectionHandler._update_state lib comports ;;
             ConnectionHandler.register_device ;;
             ConnectionHandler._update_state lib comports)%exec ch =
          Raised TypeError ch'
            [connect_status_change NOT_CONNECTED (serial_number gone)] /\
        ch' = Tick.alarmed (Tick.scanned comports ch)
    end.
Proof.
  pose proof (carries_serial_absent dev _ _ Hseen Hgone) as Hyes.
  fold (Tick.removed comports ch) in Hyes.
  destruct (Tick.removed comports ch) as [|gone rest] eqn:Hrem; [discriminate|].
  exists gone. destruct lib.
  - unfold run, bind.
    rewrite (tick_connected comports ch dev [] Hwanted Hdevice). cbv zeta.
    unfold Ending.closing. rewrite Hrem, Hyes, Hprev. simpl bool_decide. cbv iota.
    set (s1 := Tick.settled _).
    rewrite (register_device_connected s1) by exact Hwanted.
    set (s2 := ConnectionHandler.set_wanted_state REGISTERED s1).
    rewrite (tick_registered_entering comports s2 no_port);
      [|reflexivity|subst s2 s1; simpl; rewrite Hwanted; discriminate
       |reflexivity|reflexivity].
    cbv zeta.
    replace (Tick.removed comports s2) with (@nil ListPortInfo)
      by (symmetry; apply difference_self).
    eexists. split; [reflexivity|].
    do 5 (split; [reflexivity|]).
    intros comports' Hno.
    rewrite tick_registered_steady with (dev := no_port) by reflexivity.
    cbv zeta. unfold Ending.closing. rewrite Hno.
    now destruct (Tick.removed comports' _).
  - unfold run, bind.
    rewrite (tick_connected comports ch dev [] Hwanted Hdevice). cbv zeta.
    unfold Ending.closing. rewrite Hrem, Hyes, Hprev. simpl bool_decide. cbv iota.
    eexists. split; reflexivity.
Qed.

Lemma register_after_removal_witness :
  (exists gone ch',
     run (ConnectionHandler._update_state upto_3_4 [Scenario.mouse] ;;
          ConnectionHandler.register_device ;;
          ConnectionHandler._update_state upto_3_4 [Scenario.mouse])%exec
         Bench.connected_handler =
       Done tt ch'
         [connect_status_change NOT_CONNECTED (serial_number gone);
          connect_status_change REGISTERED None] /\
     ConnectionHandler._current_state ch' = REGISTERED /\
     ConnectionHandler._wanted_state ch' = REGISTERED /\
     ConnectionHandler._device ch' = ConnectionHandler.Port no_port /\
     Serial.port (_SerialHandler._conn (ConnectionHandler.serial ch')) = None /\
     Serial.is_open (_SerialHandler._conn (ConnectionHandler.serial ch')) =
       false /\
     forall comports',
       Tick.carries_serial no_port (Tick.removed comports' ch') = false ->
       run (ConnectionHandler._update_state upto_3_4 comports') ch' =
         Done tt (Tick.settled (Tick.scanned comports' ch')) []) /\
  (exists gone ch',
     run (ConnectionHandler._update_state from_3_5 [Scenario.mouse] ;;
          ConnectionHandler.register_device ;;
          ConnectionHandler._update_state from_3_5 [Scenario.mouse])%exec
         Bench.connected_handler =
       Raised TypeError ch'
         [connect_status_change NOT_CONNECTED (serial_number gone)] /\
     ch' = Tick.alarmed (Tick.scanned [Scenario.mouse] Bench.connected_handler)).
Proof.
  split.
  - apply (register_after_removal upto_3_4 [Scenario.mouse]
             Bench.connected_handler Scenario.pacemaker_2);
      [reflexivity|reflexivity|reflexivity|now left|reflexivity].
  - apply (register_after_removal from_3_5 [Scenario.mouse]
             Bench.connected_handler Scenario.pacemaker_2);
      [reflexivity|reflexivity|reflexivity|now left|reflexivity].
Defined.

Section HandlerRun.
Import ConnectionHandler Wire Tick Loop.
Context {lib : pyserial}.

Lemma difference_nil devices : difference devices [] = devices.
Proof.
  unfold difference. induction devices as [|d l IH]; [reflexivity|].
  simpl in *. congruence.
Qed.

Lemma handler_ticks_unfold comports scans ch log :
  handler_ticks lib (comports :: scans) ch log =
  if _running ch then
    match _update_state lib comports ch log with
    | Done _ ch' log' => handler_ticks lib scans ch' log'
    | Raised e ch' log' => Raised e ch' log'
    | Hang ch' log' => Hang ch' log'
    end
  else Done tt ch log.
Proof.
  simpl. unfold bind at 1, gets. cbv beta.
  destruct (_running ch); reflexivity.
Qed.

Lemma handler_ticks_stopped scans ch log :
  _running ch = false -> handler_ticks lib scans ch log = Done tt ch log.
Proof.
  intros Hstop. destruct scans as [|comports scans]; [reflexivity|].
  now rewrite handler_ticks_unfold, Hstop.
Qed.

End HandlerRun.

(** X20.  The first pacemaker ever seen is registered without the button.
    [run] on a handler fresh from [__init__] emits NOT_CONNECTED with an
    empty text; the first tick that finds a pacemaker makes the first one
    of the scan the active device and remembers its serial number; the next
    tick binds the port of the transport to the device and emits REGISTERED
    with the serial number. *)
Theorem first_pacemaker_is_auto_registered (lib : pyserial)
    (comports0 comports : list ListPortInfo) (wire : list (list byte))
    (faulty : bool) (dev : ListPortInfo) (others : list ListPortInfo)
    (Hfound : ConnectionHandler._filter_devices comports = dev :: others) :
  exists ch',
    run (Loop.handler_run lib [comports; comports])
        (ConnectionHandler.init comports0 (_SerialHandler.init wire faulty)) =
      Done tt ch'
        [connect_status_change NOT_CONNECTED (Some "");
         connect_status_change REGISTERED (serial_number dev)] /\
    ConnectionHandler._current_state ch' = REGISTERED /\
    ConnectionHandler._device ch' = ConnectionHandler.Port dev /\
    ConnectionHandler._first_serial_num ch' = serial_number dev /\
    Serial.port (_SerialHandler._conn (ConnectionHandler.serial ch')) = device dev /\
    _SerialHandler._running (ConnectionHandler.serial ch') = true.
Proof.
  unfold run, Loop.handler_run, bind at 1 2, modify, emit. simpl app.
  set (ch0 := ConnectionHandler.set_running true _).
  rewrite handler_ticks_unfold. change (ConnectionHandler._running ch0) with true.
  cbv iota.
  rewrite (tick_not_connected comports ch0) by reflexivity.
  replace (Tick.added comports ch0) with (dev :: others)
    by (unfold Tick.added; simpl; now rewrite difference_nil, Hfound).
  cbv zeta. simpl bool_decide. cbv iota.
  set (s1 := Tick.settled _).
  rewrite handler_ticks_unfold. change (ConnectionHandler._running s1) with true.
  cbv iota.
  rewrite (tick_registered_entering comports s1 dev);
    [|reflexivity|discriminate|reflexivity|reflexivity].
  cbv zeta.
  replace (Tick.removed comports s1) with (@nil ListPortInfo)
    by (symmetry; apply difference_self).
  unfold Ending.closing.
  eexists. split; [reflexivity|]. repeat split.
Qed.

Lemma first_pacemaker_is_auto_registered_witness :
  exists ch',
    run (Loop.handler_run from_3_5
           [[Scenario.mouse; Scenario.pacemaker_2; Scenario.pacemaker_1];
            [Scenario.mouse; Scenario.pacemaker_2; Scenario.pacemaker_1]])
        (ConnectionHandler.init [Scenario.mouse] (_SerialHandler.init [] false)) =
      Done tt ch'
        [connect_status_change NOT_CONNECTED (Some "");
         connect_status_change REGISTERED (serial_number Scenario.pacemaker_2)] /\
    ConnectionHandler._current_state ch' = REGISTERED /\
    ConnectionHandler._device ch' = ConnectionHandler.Port Scenario.pacemaker_2 /\
    ConnectionHandler._first_serial_num ch' = serial_number Scenario.pacemaker_2 /\
    Serial.port (_SerialHandler._conn (ConnectionHandler.serial ch')) =
      device Scenario.pacemaker_2 /\
    _SerialHandler._running (ConnectionHandler.serial ch') = true.
Proof.
  apply (first_pacemaker_is_auto_registered from_3_5 [Scenario.mouse]
           [Scenario.mouse; Scenario.pacemaker_2; Scenario.pacemaker_1] [] false
           Scenario.pacemaker_2 [Scenario.pacemaker_1]).
  reflexivity.
Defined.

(** X21.  [stop] ends both loops.  It never raises; after it the loop of
    the handler takes no further tick and the loop of the transport no
    further turn, whatever the scans would show and whatever the device
    sends; the port is closed but stays bound, and a block still queued
    stays queued. *)
Theorem stop_ends_both_loops (lib : pyserial) (bo : Struct.byteorder)
    (scans : list (list ListPortInfo)) (k : nat) (ch : ConnectionHandler.t) :
  let h := _SerialHandler.set_conn
             (Serial.close (_SerialHandler._conn (ConnectionHandler.serial ch)))
             (_SerialHandler.set_running false (ConnectionHandler.serial ch)) in
  let ch' := ConnectionHandler.set_serial h
               (ConnectionHandler.set_running false ch) in
  run (ConnectionHandler.stop ;; Loop.handler_ticks lib scans)%exec ch =
    Done tt ch' [] /\
  run (Loop.serial_turns bo k) h = Done tt h [].
Proof.
  split.
  - unfold run, bind at 1.
    assert (Hstop : ConnectionHandler.stop ch [] =
      Done tt
        (ConnectionHandler.set_serial
           (_SerialHandler.set_conn
              (Serial.close (_SerialHandler._conn (ConnectionHandler.serial ch)))
              (_SerialHandler.set_running false (ConnectionHandler.serial ch)))
           (ConnectionHandler.set_running false ch)) [])
      by reflexivity.
    rewrite Hstop. now apply handler_ticks_stopped.
  - destruct k as [|k]; [reflexivity|].
    unfold run. now rewrite serial_turns_unfold.
Qed.

(** * Properties of the scrolling traces *)

Section Scrolling.
Import Numpy GraphsHandler.

Lemma asarray_length data : forall src,
  asarray data = Some src -> length src = length data.
Proof.
  induction data as [|v data IH]; intros src; simpl.
  - now intros [= <-].
  - destruct v as [z|x]; destruct (asarray data) as [xs|]; try discriminate.
    + destruct (IEEE.is_inf (IEEE.of_int z)); [discriminate|].
      intros [= <-]. simpl. now rewrite (IH xs).
    + intros [= <-]. simpl. now rewrite (IH xs).
Qed.

Lemma asarray_app d1 : forall d2 s1 s2,
  asarray d1 = Some s1 -> asarray d2 = Some s2 ->
  asarray (d1 ++ d2) = Some (s1 ++ s2).
Proof.
  induction d1 as [|v d1 IH]; intros d2 s1 s2; simpl.
  - now intros [= <-].
  - destruct v as [z|x]; destruct (asarray d1) as [xs|] eqn:Hxs; try discriminate.
    + destruct (IEEE.is_inf (IEEE.of_int z)); [discriminate|].
      intros [= <-] H2. now rewrite (IH d2 xs s2 eq_refl H2).
    + intros [= <-] H2. now rewrite (IH d2 xs s2 eq_refl H2).
Qed.

Lemma bound_back (n m : nat) :
  (0 < m)%nat -> bound n (- Z.of_nat m) = (n - m)%nat.
Proof.
  intros Hm. unfold bound.
  destruct (Z.ltb_spec (- Z.of_nat m) 0); lia.
Qed.

Lemma bound_front (n m : nat) : bound n (Z.of_nat m) = Nat.min m n.
Proof.
  unfold bound. destruct (Z.ltb_spec (Z.of_nat m) 0); [lia|].
  now rewrite Nat2Z.id.
Qed.

Lemma set_slice_fit a start stop src :
  length src = (stop - start)%nat ->
  set_slice a start stop src =
  Some (take start a ++ src ++ drop (start + (stop - start)) a).
Proof.
  intros Hlen. unfold set_slice.
  destruct (decide (length src = (stop - start)%nat)); [reflexivity|contradiction].
Qed.

Lemma set_slice_misfit a start stop src :
  length src <> (stop - start)%nat -> length src <> 1%nat ->
  set_slice a start stop src = None.
Proof.
  intros Hlen Hone. unfold set_slice.
  destruct (decide (length src = (stop - start)%nat)); [contradiction|].
  destruct src as [|x [|y src]]; try reflexivity. now elim Hone.
Qed.

Lemma set_slice_length a start stop src a' :
  (start <= stop <= length a)%nat ->
  set_slice a start stop src = Some a' -> length a' = length a.
Proof.
  intros Hb. unfold set_slice.
  destruct (decide (length src = (stop - start)%nat)) as [Hlen|Hlen].
  - intros [= <-]. rewrite !length_app, length_take, length_drop. lia.
  - destruct src as [|x [|y src]]; try discriminate.
    intros [= <-]. rewrite !length_app, length_take, repeat_length, length_drop. lia.
Qed.

Lemma bound_le n i : (bound n i <= n)%nat.
Proof.
  unfold bound. destruct (Z.ltb_spec i 0); lia.
Qed.

(** A batch that fits the window pushes the oldest samples out. *)
Lemma scroll_window a data src :
  (0 < length data <= length a)%nat ->
  asarray data = Some src ->
  scroll a data = (drop (length data) a ++ src, None).
Proof.
  intros Hm Hsrc. pose proof (asarray_length _ _ Hsrc) as Hlen.
  unfold scroll. rewrite bound_back, bound_front by lia.
  rewrite Nat.min_l by lia. unfold slice.
  rewrite set_slice_fit by (rewrite length_take, length_drop; lia).
  rewrite Hsrc.
  rewrite set_slice_fit by lia.
  f_equal. rewrite take_0. simpl app. rewrite Nat.sub_0_r.
  rewrite (take_ge (drop (length data) a)) by (rewrite length_drop; lia).
  rewrite take_app_length' by (rewrite length_drop; lia).
  rewrite (drop_ge (_ ++ _)) by (rewrite length_app, !length_drop; lia).
  now rewrite app_nil_r.
Qed.

(** A batch that does not fit is refused, and the window stays. *)
Lemma scroll_misfit a data src :
  asarray data = Some src ->
  ~ (0 < length data <= length a)%nat ->
  ~ (length a = 0 /\ length data <= 1)%nat ->
  scroll a data = (a, Some ValueError).
Proof.
  intros Hsrc Hfit Htiny. pose proof (asarray_length _ _ Hsrc) as Hlen.
  unfold scroll. destruct (Nat.eq_dec (length data) 0%nat) as [Hz|Hnz].
  - (* an empty batch *)
    rewrite Hz. change (- Z.of_nat 0) with 0. change (Z.of_nat 0) with 0.
    change (bound (length a) 0) with (Nat.min 0 (length a)). simpl Nat.min.
    unfold slice. rewrite drop_0.
    destruct (Nat.eq_dec (length a) 1%nat) as [Hone|Hmany].
    + destruct a as [|x [|y a]]; try discriminate. simpl.
      rewrite Hsrc. destruct src; [reflexivity|simpl in Hlen; lia].
    + rewrite set_slice_misfit; [reflexivity| |];
        rewrite length_take; lia.
  - (* a batch longer than the window *)
    rewrite bound_back, bound_front by lia.
    replace (length a - length data)%nat with 0%nat by lia.
    rewrite Nat.min_r by lia. unfold slice.
    rewrite set_slice_fit by (rewrite length_take, length_drop; lia).
    rewrite Hsrc. simpl take. rewrite drop_all. simpl app.
    rewrite set_slice_misfit by lia. now rewrite take_nil, drop_0.
Qed.

Lemma scroll_length a data : length (fst (scroll a data)) = length a.
Proof.
  unfold scroll.
  destruct (set_slice a 0 _ _) as [a1|] eqn:H1; [|reflexivity].
  assert (Hlen1 : length a1 = length a).
  { apply (set_slice_length _ _ _ _ _ (conj (Nat.le_0_l _) (bound_le _ _)) H1). }
  destruct (asarray data) as [src|]; [|exact Hlen1].
  destruct (set_slice a1 _ _ src) as [a2|] eqn:H2; [|exact Hlen1].
  simpl. rewrite <- Hlen1.
  apply (set_slice_length _ _ _ _ _
           (conj (bound_le _ _) (Nat.eq_le_incl _ _ (eq_sym Hlen1))) H2).
Qed.

Lemma update_data_window atri_data vent_data xs ys g :
  (0 < length atri_data <= length (_atri_data g))%nat ->
  (0 < length vent_data <= length (_vent_data g))%nat ->
  asarray atri_data = Some xs ->
  asarray vent_data = Some ys ->
  update_data atri_data vent_data g =
  Returned
    (_plot_data
       (mk (drop (length atri_data) (_atri_data g) ++ xs)
           (drop (length vent_data) (_vent_data g) ++ ys)
           (_atri_plot g) (_vent_plot g))).
Proof.
  intros Hatri Hvent Hxs Hys. unfold update_data.
  rewrite (scroll_window _ _ xs Hatri Hxs). cbn [_vent_data].
  now rewrite (scroll_window _ _ ys Hvent Hys).
Qed.

Lemma update_data_lengths atri_data vent_data g :
  length (_atri_data (state (update_data atri_data vent_data g))) =
    length (_atri_data g) /\
  length (_vent_data (state (update_data atri_data vent_data g))) =
    length (_vent_data g).
Proof.
  unfold update_data.
  pose proof (scroll_length (_atri_data g) atri_data) as Ha.
  destruct (scroll (_atri_data g) atri_data) as [a [e|]]; simpl in Ha;
    [now split|].
  cbn [_vent_data].
  pose proof (scroll_length (_vent_data g) vent_data) as Hv.
  destruct (scroll (_vent_data g) vent_data) as [v [e|]]; simpl in Hv;
    now split.
Qed.

End Scrolling.

(** X22.  [update_data] scrolls both traces.  For batches that are not
    empty and not longer than their window, each trace loses as many of its
    oldest samples as the batch holds, keeps the others in order, and ends
    with the batch; both curves are then drawn from the new traces, and
    whether a curve is shown does not change. *)
Theorem update_data_scrolls (atri_data vent_data : list pyval)
    (xs ys : Numpy.ndarray) (g : GraphsHandler.t)
    (Hatri : (0 < length atri_data <= length (GraphsHandler._atri_data g))%nat)
    (Hvent : (0 < length vent_data <= length (GraphsHandler._vent_data g))%nat)
    (Hxs : Numpy.asarray atri_data = Some xs)
    (Hys : Numpy.asarray vent_data = Some ys) :
  GraphsHandler.update_data atri_data vent_data g =
  GraphsHandler.Returned
    (GraphsHandler._plot_data
       (GraphsHandler.mk
          (drop (length atri_data) (GraphsHandler._atri_data g) ++ xs)
          (drop (length vent_data) (GraphsHandler._vent_data g) ++ ys)
          (GraphsHandler._atri_plot g) (GraphsHandler._vent_plot g))).
Proof.
  unfold GraphsHandler.update_data.
  rewrite (scroll_window _ atri_data xs Hatri Hxs).
  cbn [GraphsHandler._vent_data].
  rewrite (scroll_window _ vent_data ys Hvent Hys).
  reflexivity.
Qed.

Lemma update_data_scrolls_witness :
  GraphsHandler.update_data [PyInt 7; PyInt 8] [PyInt 9] Bench.window =
  GraphsHandler.Returned
    (GraphsHandler._plot_data
       (GraphsHandler.mk
          (drop 2 (GraphsHandler._atri_data Bench.window) ++
           map IEEE.of_int [7; 8])
          (drop 1 (GraphsHandler._vent_data Bench.window) ++ map IEEE.of_int [9])
          (GraphsHandler._atri_plot Bench.window)
          (GraphsHandler._vent_plot Bench.window))).
Proof.
  apply (update_data_scrolls [PyInt 7; PyInt 8] [PyInt 9]
           (map IEEE.of_int [7; 8]) (map IEEE.of_int [9]) Bench.window).
  - simpl. lia.
  - simpl. lia.
  - reflexivity.
  - reflexivity.
Defined.

(** X23.  Two updates in a row are one update with the batches joined, as
    long as the joined batches still fit their windows: the traces depend
    on the samples received and not on how they were cut into frames. *)
Theorem update_data_twice (a1 v1 a2 v2 : list pyval)
    (xs1 ys1 xs2 ys2 : Numpy.ndarray) (g : GraphsHandler.t)
    (Ha1 : (0 < length a1)%nat) (Ha2 : (0 < length a2)%nat)
    (Hv1 : (0 < length v1)%nat) (Hv2 : (0 < length v2)%nat)
    (Hatri : (length a1 + length a2 <= length (GraphsHandler._atri_data g))%nat)
    (Hvent : (length v1 + length v2 <= length (GraphsHandler._vent_data g))%nat)
    (Hxs1 : Numpy.asarray a1 = Some xs1) (Hxs2 : Numpy.asarray a2 = Some xs2)
    (Hys1 : Numpy.asarray v1 = Some ys1) (Hys2 : Numpy.asarray v2 = Some ys2) :
  GraphsHandler.update_data a2 v2
    (GraphsHandler.state (GraphsHandler.update_data a1 v1 g)) =
  GraphsHandler.update_data (a1 ++ a2) (v1 ++ v2) g.
Proof.
  pose proof (asarray_length _ _ Hxs1) as Lx1.
  pose proof (asarray_length _ _ Hys1) as Ly1.
  rewrite (update_data_window a1 v1 xs1 ys1 g) by (try assumption; lia).
  cbn [GraphsHandler.state].
  rewrite (update_data_window a2 v2 xs2 ys2);
    [|cbn; rewrite length_app, length_drop; lia
     |cbn; rewrite length_app, length_drop; lia|assumption|assumption].
  rewrite (update_data_window (a1 ++ a2) (v1 ++ v2) (xs1 ++ xs2) (ys1 ++ ys2) g);
    [|rewrite length_app; lia|rewrite length_app; lia
     |now apply asarray_app|now apply asarray_app].
  cbn [GraphsHandler._plot_data GraphsHandler._atri_data GraphsHandler._vent_data
       GraphsHandler._atri_plot GraphsHandler._vent_plot].
  rewrite !drop_app_le by (rewrite length_drop; lia).
  rewrite !drop_drop, !length_app, <- !app_assoc.
  reflexivity.
Qed.

Lemma update_data_twice_witness :
  GraphsHandler.update_data [PyInt 8] [PyInt 9; PyInt 10]
    (GraphsHandler.state
       (GraphsHandler.update_data [PyInt 6; PyInt 7] [PyInt 8] Bench.window)) =
  GraphsHandler.update_data ([PyInt 6; PyInt 7] ++ [PyInt 8])
    ([PyInt 8] ++ [PyInt 9; PyInt 10]) Bench.window.
Proof.
  apply (update_data_twice [PyInt 6; PyInt 7] [PyInt 8] [PyInt 8]
           [PyInt 9; PyInt 10]
           (map IEEE.of_int [6; 7]) (map IEEE.of_int [8])
           (map IEEE.of_int [8]) (map IEEE.of_int [9; 10]) Bench.window);
    try reflexivity; simpl; lia.
Defined.

(** X24.  The windows never grow or shrink.  Whatever batches
    [update_data] is given, of whatever sizes, and whether it returns or
    raises, both traces have afterwards the number of samples they had
    before; so do the traces of a handler after any run of updates since
    [__init__], which have [data_size] samples each. *)
Theorem update_data_keeps_window_size
    (batches : list (list pyval * list pyval)) (data_size : nat) :
  let g := fold_left
             (fun g b => GraphsHandler.state
                           (GraphsHandler.update_data (fst b) (snd b) g))
             batches (GraphsHandler.init data_size) in
  length (GraphsHandler._atri_data g) = data_size /\
  length (GraphsHandler._vent_data g) = data_size.
Proof.
  cbv zeta.
  assert (Hgen : forall g,
    length (GraphsHandler._atri_data g) = data_size /\
    length (GraphsHandler._vent_data g) = data_size ->
    length (GraphsHandler._atri_data
              (fold_left
                 (fun g b => GraphsHandler.state
                               (GraphsHandler.update_data (fst b) (snd b) g))
                 batches g)) = data_size /\
    length (GraphsHandler._vent_data
              (fold_left
                 (fun g b => GraphsHandler.state
                               (GraphsHandler.update_data (fst b) (snd b) g))
                 batches g)) = data_size).
  { induction batches as [|[a v] batches IH]; intros g Hg; [exact Hg|].
    simpl fold_left. apply IH.
    destruct (update_data_lengths a v g) as [Ha Hv].
    destruct Hg as [Hga Hgv]. split; congruence. }
  apply Hgen. split; apply repeat_length.
Qed.

(** X25.  A batch that does not fit is refused.  When the atrial batch is
    empty or longer than the window, [update_data] raises [ValueError] and
    leaves the handler as it was.  When the atrial batch fits and the
    ventricular batch does not, it raises [ValueError] after the atrial
    trace has been scrolled: the two traces are then one batch out of
    step. *)
Theorem update_data_refuses_misfit (atri_data vent_data : list pyval)
    (xs ys : Numpy.ndarray) (g : GraphsHandler.t)
    (Hxs : Numpy.asarray atri_data = Some xs)
    (Hys : Numpy.asarray vent_data = Some ys)
    (Hwindow : (2 <= length (GraphsHandler._atri_data g))%nat /\
               (2 <= length (GraphsHandler._vent_data g))%nat) :
  (~ (0 < length atri_data <= length (GraphsHandler._atri_data g))%nat ->
   GraphsHandler.update_data atri_data vent_data g =
     GraphsHandler.Failed GraphsHandler.ValueError g) /\
  ((0 < length atri_data <= length (GraphsHandler._atri_data g))%nat ->
   ~ (0 < length vent_data <= length (GraphsHandler._vent_data g))%nat ->
   exists g',
     GraphsHandler.update_data atri_data vent_data g =
       GraphsHandler.Failed GraphsHandler.ValueError g' /\
     GraphsHandler._atri_data g' =
       drop (length atri_data) (GraphsHandler._atri_data g) ++ xs /\
     GraphsHandler._vent_data g' = GraphsHandler._vent_data g).
Proof.
  destruct Hwindow as [Hwa Hwv]. split.
  - intros Hbad. unfold GraphsHandler.update_data.
    rewrite (scroll_misfit _ _ xs Hxs Hbad) by lia. now destruct g.
  - intros Hfit Hbad. unfold GraphsHandler.update_data.
    rewrite (scroll_window _ _ xs Hfit Hxs). cbn [GraphsHandler._vent_data].
    rewrite (scroll_misfit _ _ ys Hys Hbad) by lia.
    eexists. split; [reflexivity|]. split; reflexivity.
Qed.

Lemma update_data_refuses_misfit_witness :
  GraphsHandler.update_data [] [PyInt 9] Bench.window =
    GraphsHandler.Failed GraphsHandler.ValueError Bench.window /\
  exists g',
    GraphsHandler.update_data [PyInt 7; PyInt 8]
      [PyInt 1; PyInt 2; PyInt 3; PyInt 4; PyInt 5; PyInt 6] Bench.window =
      GraphsHandler.Failed GraphsHandler.ValueError g' /\
    GraphsHandler._atri_data g' =
      drop 2 (GraphsHandler._atri_data Bench.window) ++ map IEEE.of_int [7; 8] /\
    GraphsHandler._vent_data g' = GraphsHandler._vent_data Bench.window.
Proof.
  split.
  - apply (update_data_refuses_misfit [] [PyInt 9] [] (map IEEE.of_int [9])
             Bench.window); [reflexivity|reflexivity|simpl; lia|simpl; lia].
  - apply (update_data_refuses_misfit [PyInt 7; PyInt 8]
             [PyInt 1; PyInt 2; PyInt 3; PyInt 4; PyInt 5; PyInt 6]
             (map IEEE.of_int [7; 8]) (map IEEE.of_int [1; 2; 3; 4; 5; 6])
             Bench.window);
      [reflexivity|reflexivity|simpl; lia|simpl; lia|simpl; lia].
Defined.

(** * The two objects together *)

Section Together.
Import Struct _SerialHandler Wire.
Variable bo : byteorder.

Lemma turn_open_final st log :
  Serial.is_open (_conn st) = true ->
  Serial.fault (_conn st) = false ->
  exists b w, final (run_iteration bo st log) = with_input b w (requested bo st).
Proof.
  intros Hopen Hfault. rewrite run_iteration_exchange by assumption.
  destruct (readline_final (requested bo st) log) as (b & w & Hfin & _).
  exists b, w.
  destruct (_readline (requested bo st) log) as [line st' log'|e st' log'|st' log'];
    exact Hfin.
Qed.

End Together.

(** X26.  Parameters handed over before any pacemaker is there go to the
    first one that registers.  [send_data_to_pacemaker] on a handler fresh
    from [__init__] queues the block although nothing is connected; binding
    the port does not clear it; so once a pacemaker is found and registered
    and the transport has opened its port, the first thing written to the
    device is that block, not a request for ECG data. *)
Theorem early_block_goes_to_first_pacemaker (lib : pyserial)
    (bo : Struct.byteorder)
    (params : gmap string pyval) (comports0 comports : list ListPortInfo)
    (wire : list (list byte)) (dev : ListPortInfo) (others : list ListPortInfo)
    (a : ascii) (name : string)
    (Hconforms : ParameterSet.conforms params = true)
    (Hfound : ConnectionHandler._filter_devices comports = dev :: others)
    (Hport : device dev = Some (String a name)) :
  exists data,
    _SerialHandler.encode_params bo params = Ok data /\
    let ch' :=
      final (run (ConnectionHandler.send_data_to_pacemaker bo params ;;
                  ConnectionHandler._update_state lib comports ;;
                  ConnectionHandler._update_state lib comports ;;
                  ConnectionHandler.on_serial (_SerialHandler.run_iteration bo) ;;
                  ConnectionHandler.on_serial (_SerialHandler.run_iteration bo))%exec
               (ConnectionHandler.init comports0 (_SerialHandler.init wire false))) in
    ConnectionHandler._current_state ch' = REGISTERED /\
    Serial.port (_SerialHandler._conn (ConnectionHandler.serial ch')) = device dev /\
    Serial.is_open (_SerialHandler._conn (ConnectionHandler.serial ch')) = true /\
    Serial.tx (_SerialHandler._conn (ConnectionHandler.serial ch')) = [data].
Proof.
  destruct (conforms_encodes bo params Hconforms) as (data & Henc & _).
  exists data. split; [exact Henc|]. intros ch'.
  set (ch0 := ConnectionHandler.init comports0 (_SerialHandler.init wire false))
    in ch'.
  set (h1 := _SerialHandler.set_send_params true
               (_SerialHandler.set_sent_data data (ConnectionHandler.serial ch0))).
  set (ch1 := ConnectionHandler.set_serial h1 ch0).
  set (ch2 := Tick.settled
                (ConnectionHandler.set_wanted_state REGISTERED
                   (ConnectionHandler.set_first_serial_num (serial_number dev)
                      (ConnectionHandler.set_device (ConnectionHandler.Port dev)
                         (Tick.scanned comports ch1))))).
  set (ch3 := Tick.settled
                (ConnectionHandler.set_serial
                   (Wire.bound (device dev) (ConnectionHandler.serial ch2))
                   (Tick.scanned comports ch2))).
  set (h4 := _SerialHandler.set_conn
               (Serial.set_is_open true
                  (_SerialHandler._conn (ConnectionHandler.serial ch3)))
               (ConnectionHandler.serial ch3)).
  assert (Hch : exists b w,
            ch' = ConnectionHandler.set_serial
                    (Wire.with_input b w (Wire.requested bo h4)) ch3).
  { subst ch'.
    pose proof (send_data_to_pacemaker_run bo params ch0) as Hsend.
    rewrite Henc in Hsend. unfold run in Hsend.
    unfold run, bind at 1. rewrite Hsend. fold h1. fold ch1.
    unfold bind at 1.
    rewrite (tick_not_connected comports ch1) by reflexivity.
    replace (Tick.added comports ch1) with (dev :: others)
      by (unfold Tick.added; simpl; now rewrite difference_nil, Hfound).
    cbv zeta. simpl bool_decide. cbv iota. fold ch2.
    unfold bind at 1.
    rewrite (tick_registered_entering comports ch2 dev);
      [|reflexivity|discriminate|reflexivity|reflexivity].
    cbv zeta.
    replace (Tick.removed comports ch2) with (@nil ListPortInfo)
      by (symmetry; apply difference_self).
    unfold Ending.closing.
    fold ch3.
    unfold bind at 1. unfold ConnectionHandler.on_serial at 1, zoom.
    rewrite run_iteration_closed by reflexivity.
    replace (Serial.port (_SerialHandler._conn (ConnectionHandler.serial ch3)))
      with (Some (String a name)) by (symmetry; exact Hport).
    change (Serial.fault (_SerialHandler._conn (ConnectionHandler.serial ch3)))
      with false. cbv iota. fold h4.
    rewrite on_serial_final.
    cbn [ConnectionHandler.serial ConnectionHandler.set_serial].
    match goal with
    | |- context [final (_SerialHandler.run_iteration bo ?h ?l)] =>
        destruct (turn_open_final bo h l) as (b & w & ->);
          [reflexivity|reflexivity|]
    end.
    exists b, w. now destruct ch3. }
  destruct Hch as (b & w & ->).
  destruct (with_input_requested bo b w h4) as (_ & _ & _ & _ & Htx).
  cbn [ConnectionHandler.serial ConnectionHandler.set_serial].
  rewrite Htx. repeat split.
Qed.

Lemma early_block_goes_to_first_pacemaker_witness :
  exists data,
    _SerialHandler.encode_params Struct.LittleEndian ParameterSet.sample = Ok data /\
    let ch' :=
      final (run (ConnectionHandler.send_data_to_pacemaker Struct.LittleEndian
                    ParameterSet.sample ;;
                  ConnectionHandler._update_state from_3_5 [Scenario.pacemaker_1] ;;
                  ConnectionHandler._update_state from_3_5 [Scenario.pacemaker_1] ;;
                  ConnectionHandler.on_serial
                    (_SerialHandler.run_iteration Struct.LittleEndian) ;;
                  ConnectionHandler.on_serial
                    (_SerialHandler.run_iteration Struct.LittleEndian))%exec
               (ConnectionHandler.init [] (_SerialHandler.init [] false))) in
    ConnectionHandler._current_state ch' = REGISTERED /\
    Serial.port (_SerialHandler._conn (ConnectionHandler.serial ch')) =
      device Scenario.pacemaker_1 /\
    Serial.is_open (_SerialHandler._conn (ConnectionHandler.serial ch')) = true /\
    Serial.tx (_SerialHandler._conn (ConnectionHandler.serial ch')) = [data].
Proof.
  apply (early_block_goes_to_first_pacemaker from_3_5 Struct.LittleEndian
           ParameterSet.sample [] [Scenario.pacemaker_1] []
           Scenario.pacemaker_1 [] "C"%char "OM3");
    reflexivity.
Defined.
